(** * Premium text-to-speech: sanitiser, audio cache, usage ledger, router

    A shallow embedding of the quota-aware text-to-speech subsystem:

    - the [text-to-speech] edge function ([sanitizeText], [getCacheKey],
      [cleanCache], [containsHindi], [checkAndTrackUsage] and the request
      handler passed to [serve]);
    - the [approve_request] action of the [manage-subscription] edge function
      together with [validateSchoolSession];
    - the client hooks [useNativeTTS] ([sanitizeText]) and [useSmartTTS]
      ([fetchUsageInfo], [speakPremium], [speak]);
    - the other actions of [manage-subscription] that read or write the
      subscription and request tables ([request_upgrade],
      [get_subscription], [increment_tts], [reject_request],
      [block_student], [cancel_pro], [check_expiry]);
    - [canUsePremiumTTS] and [getStatusLabel] of the [useSubscription] hook,
      [getBestVoice] of [useNativeTTS], and the revision of the
      [text-to-speech] handler that tracks no usage.

    JavaScript strings are sequences of UTF-16 code units, numbers that the
    code only adds and compares are integers, the relational store is a
    record of row lists and the in-memory [Map]s are insertion-ordered
    association lists.  External parties (the speech vendor, the clock, the
    outcome of a remote call, what the store does with a lookup or a write)
    are explicit inputs of the functions that consult them. *)

From Stdlib Require Import ZArith List String Ascii Bool Lia.
Import ListNotations.

Local Open Scope Z_scope.

(* ===================================================================== *)
(** * JavaScript strings *)
(* ===================================================================== *)

Module Js.

(** A JavaScript string: its UTF-16 code units. *)
Definition jsstring := list Z.

(** ASCII literal to code units. *)
Definition str (s : string) : jsstring :=
  map (fun a => Z.of_N (N_of_ascii a)) (list_ascii_of_string s).

Fixpoint eqb (a b : jsstring) : bool :=
  match a, b with
  | [], [] => true
  | x :: a', y :: b' => (x =? y) && eqb a' b'
  | _, _ => false
  end.

(** [s.length] *)
Definition length (s : jsstring) : Z := Z.of_nat (List.length s).

(** [s.substring(0, n)] for a non-negative literal [n]. *)
Definition substring0 (n : nat) (s : jsstring) : jsstring := firstn n s.

(** A string is falsy exactly when it is empty. *)
Definition truthy (s : jsstring) : bool :=
  match s with [] => false | _ => true end.

Definition is_high_surrogate (u : Z) : bool := (55296 <=? u) && (u <=? 56319).
Definition is_low_surrogate (u : Z) : bool := (56320 <=? u) && (u <=? 57343).
Definition is_surrogate (u : Z) : bool := (55296 <=? u) && (u <=? 57343).

(** The code point of a surrogate pair. *)
Definition code_point (hi lo : Z) : Z :=
  65536 + (hi - 55296) * 1024 + (lo - 56320).

Definition star : Z := 42.
Definition backtick : Z := 96.
Definition hash : Z := 35.
Definition newline : Z := 10.
Definition dot : Z := 46.
Definition space : Z := 32.

(** LineTerminator: what [.] does not match (no [s] flag). *)
Definition is_line_terminator (u : Z) : bool :=
  (u =? 10) || (u =? 13) || (u =? 8232) || (u =? 8233).

(** The class [\s], which is also what [trim] strips. *)
Definition is_whitespace (u : Z) : bool :=
  ((9 <=? u) && (u <=? 13)) || (u =? 32) || (u =? 160) || (u =? 5760)
  || ((8192 <=? u) && (u <=? 8202)) || (u =? 8232) || (u =? 8233)
  || (u =? 8239) || (u =? 8287) || (u =? 12288) || (u =? 65279).

(** Well-formed UTF-16: every surrogate belongs to a high/low pair. *)
Inductive well_formed : jsstring -> Prop :=
| wf_nil : well_formed []
| wf_unit c s :
    is_surrogate c = false -> well_formed s -> well_formed (c :: s)
| wf_pair h l s :
    is_high_surrogate h = true -> is_low_surrogate l = true ->
    well_formed s -> well_formed (h :: l :: s).

End Js.

(* ===================================================================== *)
(** * TextSanitizer *)
(* ===================================================================== *)

Module Sanitizer.
Import Js.

Definition in_range (lo hi u : Z) : bool := (lo <=? u) && (u <=? hi).

(** [s.replace(/[\u{lo}-\u{hi}]/gu, '')].  With the [u] flag the scan
    advances by code points: a high surrogate followed by a low surrogate
    is one character, any other unit stands for itself. *)
Fixpoint remove_range (lo hi : Z) (s : jsstring) : jsstring :=
  match s with
  | [] => []
  | u :: rest =>
      match rest with
      | v :: rest' =>
          if is_high_surrogate u && is_low_surrogate v then
            if in_range lo hi (code_point u v)
            then remove_range lo hi rest'
            else u :: v :: remove_range lo hi rest'
          else
            if in_range lo hi u
            then remove_range lo hi rest
            else u :: remove_range lo hi rest
      | [] => if in_range lo hi u then [] else [u]
      end
  end.

(** [s.replace(/\*\*(.*?)\*\*/g, '$1')].

    [opened = Some buf] records that an opening [**] was met on the current
    line and that [buf] holds, in reverse, the units read since.  The lazy
    group ends at the first later [**]; [.] does not cross a line
    terminator, so when the line (or the text) ends first the attempt
    fails, and so does every attempt starting further right on that line
    (its closing [**] would have been found): the units are kept as read. *)
Fixpoint strip_bold (opened : option jsstring) (s : jsstring) : jsstring :=
  match s with
  | [] =>
      match opened with
      | None => []
      | Some buf => star :: star :: rev buf
      end
  | c :: rest =>
      let single :=
        match opened with
        | None => c :: strip_bold None rest
        | Some buf =>
            if is_line_terminator c
            then star :: star :: rev buf ++ c :: strip_bold None rest
            else strip_bold (Some (c :: buf)) rest
        end in
      match rest with
      | d :: rest' =>
          if (c =? star) && (d =? star) then
            match opened with
            | None => strip_bold (Some []) rest'
            | Some buf => rev buf ++ strip_bold None rest'
            end
          else single
      | [] => single
      end
  end.

(** [s.replace(/D(.*?)D/g, '$1')] for a one-unit delimiter [D]: used with
    [*] and with the backtick. *)
Fixpoint strip_pair (d : Z) (opened : option jsstring) (s : jsstring)
  : jsstring :=
  match s with
  | [] =>
      match opened with
      | None => []
      | Some buf => d :: rev buf
      end
  | c :: rest =>
      match opened with
      | None =>
          if c =? d then strip_pair d (Some []) rest
          else c :: strip_pair d None rest
      | Some buf =>
          if c =? d then rev buf ++ strip_pair d None rest
          else if is_line_terminator c
          then d :: rev buf ++ c :: strip_pair d None rest
          else strip_pair d (Some (c :: buf)) rest
      end
  end.

(** [s.replace(/#{1,6}\s/g, '')].  [pending] counts the [#] of the run
    being read.  A run followed by white space loses that white space and
    its last six [#] (all of them when it has at most six); a run followed
    by anything else is kept. *)
Fixpoint strip_heading (pending : nat) (s : jsstring) : jsstring :=
  match s with
  | [] => repeat hash pending
  | c :: rest =>
      if c =? hash then strip_heading (S pending) rest
      else if is_whitespace c then
        match pending with
        | O => c :: strip_heading O rest
        | S _ => repeat hash (pending - 6) ++ strip_heading O rest
        end
      else repeat hash pending ++ c :: strip_heading O rest
  end.

(** [s.replace(/\n+/g, '. ')]: each maximal run of line feeds becomes a
    full stop and a space (emitted at the last line feed of the run). *)
Fixpoint newlines_to_stop (s : jsstring) : jsstring :=
  match s with
  | [] => []
  | c :: rest =>
      if c =? newline then
        match rest with
        | d :: _ =>
            if d =? newline then newlines_to_stop rest
            else dot :: space :: newlines_to_stop rest
        | [] => [dot; space]
        end
      else c :: newlines_to_stop rest
  end.

(** [s.replace(/\s+/g, ' ')]: each maximal white-space run becomes one
    space (emitted at the last unit of the run). *)
Fixpoint collapse_whitespace (s : jsstring) : jsstring :=
  match s with
  | [] => []
  | c :: rest =>
      if is_whitespace c then
        match rest with
        | d :: _ =>
            if is_whitespace d then collapse_whitespace rest
            else space :: collapse_whitespace rest
        | [] => [space]
        end
      else c :: collapse_whitespace rest
  end.

Fixpoint trim_start (s : jsstring) : jsstring :=
  match s with
  | [] => []
  | c :: rest => if is_whitespace c then trim_start rest else s
  end.

Fixpoint trim_end (s : jsstring) : jsstring :=
  match s with
  | [] => []
  | c :: rest =>
      match trim_end rest with
      | [] => if is_whitespace c then [] else [c]
      | kept => c :: kept
      end
  end.

(** [s.trim()]: white space is stripped from both ends. *)
Definition trim (s : jsstring) : jsstring := trim_end (trim_start s).

(** The emoji blocks removed by the edge function, in source order. *)
Definition server_ranges : list (Z * Z) :=
  [ (128512, 128591)    (* 1F600-1F64F *)
  ; (127744, 128511)    (* 1F300-1F5FF *)
  ; (128640, 128767)    (* 1F680-1F6FF *)
  ; (9728, 9983)        (* 2600-26FF *)
  ; (9984, 10175)       (* 2700-27BF *)
  ; (129280, 129535)    (* 1F900-1F9FF *)
  ; (129536, 129647) ]. (* 1FA00-1FA6F *)

(** The emoji blocks removed by the browser hook. *)
Definition client_ranges : list (Z * Z) :=
  [ (128512, 128591); (127744, 128511); (128640, 128767); (9728, 9983) ].

Definition remove_ranges (ranges : list (Z * Z)) (s : jsstring) : jsstring :=
  fold_left (fun acc r => remove_range (fst r) (snd r) acc) ranges s.

(** The markdown and white-space part of the chain, shared by both
    variants. *)
Definition strip_markup (s : jsstring) : jsstring :=
  trim
    (collapse_whitespace
       (newlines_to_stop
          (strip_heading O
             (strip_pair backtick None
                (strip_pair star None
                   (strip_bold None s)))))).

Definition sanitize_with (ranges : list (Z * Z)) (text : jsstring) : jsstring :=
  strip_markup (remove_ranges ranges text).

(** [sanitizeText] of the [text-to-speech] edge function. *)
Definition sanitizeText (text : jsstring) : jsstring :=
  sanitize_with server_ranges text.

(** [sanitizeText] of the [useNativeTTS] hook. *)
Definition sanitizeText_client (text : jsstring) : jsstring :=
  sanitize_with client_ranges text.

End Sanitizer.

(* ===================================================================== *)
(** * Insertion-ordered maps *)
(* ===================================================================== *)

(** A JavaScript [Map] keyed by strings: an association list in insertion
    order, in which [set] keeps the position of a key that is present. *)
Module JsMap.
Import Js.

Definition t (V : Type) := list (jsstring * V).

Fixpoint get {V} (k : jsstring) (m : t V) : option V :=
  match m with
  | [] => None
  | (k', v) :: m' => if Js.eqb k' k then Some v else get k m'
  end.

Fixpoint set {V} (k : jsstring) (v : V) (m : t V) : t V :=
  match m with
  | [] => [(k, v)]
  | (k', v') :: m' =>
      if Js.eqb k' k then (k', v) :: m' else (k', v') :: set k v m'
  end.

Definition delete {V} (k : jsstring) (m : t V) : t V :=
  filter (fun e => negb (Js.eqb (fst e) k)) m.

Definition size {V} (m : t V) : Z := Z.of_nat (List.length m).

(** [m.keys().next().value] *)
Definition first_key {V} (m : t V) : option jsstring :=
  match m with
  | [] => None
  | (k, _) :: _ => Some k
  end.

End JsMap.

(* ===================================================================== *)
(** * The relational store *)
(* ===================================================================== *)

Module Store.

Inductive Plan := basic | pro.

Definition plan_eqb (a b : Plan) : bool :=
  match a, b with
  | basic, basic | pro, pro => true
  | _, _ => false
  end.

Inductive RequestStatus := pending | approved | rejected | blocked.

Definition status_eqb (a b : RequestStatus) : bool :=
  match a, b with
  | pending, pending | approved, approved
  | rejected, rejected | blocked, blocked => true
  | _, _ => false
  end.

(** A row of [public.subscriptions].  Timestamps are milliseconds since
    the epoch; [end_date] is nullable. *)
Record Subscription := {
  id : string;
  student_id : string;
  plan : Plan;
  start_date : Z;
  end_date : option Z;
  tts_used : Z;
  tts_limit : Z;
  is_active : bool
}.

(** A row of [public.upgrade_requests]. *)
Record UpgradeRequest := {
  req_id : string;
  req_student_id : string;
  status : RequestStatus;
  processed_at : option Z;
  processed_by : option string;
  rejection_reason : option string
}.

(** The columns of [public.students] that the actions read. *)
Record Student := {
  stu_id : string;
  school_id : string
}.

(** A row of [session_tokens]. *)
Record SessionToken := {
  token : string;
  user_id : string;
  user_type : string;
  expires_at : Z;
  is_revoked : bool
}.

Record Db := {
  subscriptions : list Subscription;
  upgrade_requests : list UpgradeRequest;
  students : list Student;
  session_tokens : list SessionToken
}.

Definition with_subscriptions (db : Db) (subs : list Subscription) : Db :=
  {| subscriptions := subs;
     upgrade_requests := upgrade_requests db;
     students := students db;
     session_tokens := session_tokens db |}.

Definition with_upgrade_requests (db : Db) (reqs : list UpgradeRequest) : Db :=
  {| subscriptions := subscriptions db;
     upgrade_requests := reqs;
     students := students db;
     session_tokens := session_tokens db |}.

(** What a query hands back: [{ data, error }]. *)
Inductive QueryResult (A : Type) :=
| QData (row : option A)
| QError.
Arguments QData {A} row.
Arguments QError {A}.

(** [.maybeSingle()]: no row is [data: null], one row is that row, several
    rows are an error. *)
Definition maybeSingle {A} (rows : list A) : QueryResult A :=
  match rows with
  | [] => QData None
  | [r] => QData (Some r)
  | _ => QError
  end.

(** The [data] of a query whose [error] is not looked at. *)
Definition data_of {A} (q : QueryResult A) : option A :=
  match q with
  | QData row => row
  | QError => None
  end.

(** [from('subscriptions').select('*').eq('student_id', sid)] *)
Definition subscriptions_of (db : Db) (sid : string) : list Subscription :=
  filter (fun s => String.eqb (student_id s) sid) (subscriptions db).

Definition set_tts_used (s : Subscription) (v : Z) : Subscription :=
  {| id := id s; student_id := student_id s; plan := plan s;
     start_date := start_date s; end_date := end_date s;
     tts_used := v; tts_limit := tts_limit s; is_active := is_active s |}.

(** [from('subscriptions').update({ tts_used: v }).eq('id', rid)] *)
Definition update_tts_used (db : Db) (rid : string) (v : Z) : Db :=
  with_subscriptions db
    (map (fun s => if String.eqb (id s) rid then set_tts_used s v else s)
         (subscriptions db)).

(** How the store answers a round trip of [checkAndTrackUsage]: normally,
    with [{ error }], or by rejecting the awaited promise, which is what
    the [catch] of [checkAndTrackUsage] is there for.  An update changes
    the rows only in the first case. *)
Inductive Fault := Healthy | Failing | Throwing.

(** What the store does with a write of the [manage-subscription] handler:
    it applies it, or it answers [{ error }] and leaves the rows as they
    were (the client library resolves every query to [{ data, error }],
    also one that could not be sent). *)
Inductive Write := Applied | Refused.

End Store.

(* ===================================================================== *)
(** * UsageLedger: [checkAndTrackUsage] *)
(* ===================================================================== *)

Module Ledger.
Import Store.

Record UsageInfo := {
  ui_plan : Plan;
  ttsUsed : Z;
  ttsLimit : Z;
  ttsRemaining : Z;
  canUsePremium : bool
}.

Record UsageResult := {
  canUse : bool;
  usageInfo : option UsageInfo;
  reason : option string
}.

(** What the first round trip gave the caller. *)
Inductive Fetched :=
| Threw
| Answered (q : QueryResult Subscription).

(** Round trip 1: the [select ... maybeSingle()]. *)
Definition fetch_subscription (fault : Fault) (db : Db) (studentId : string)
  : Fetched :=
  match fault with
  | Throwing => Threw
  | Failing => Answered QError
  | Healthy => Answered (maybeSingle (subscriptions_of db studentId))
  end.

(** [sub.end_date && new Date(sub.end_date) < new Date()] *)
Definition isExpired (sub : Subscription) (now : Z) : bool :=
  match end_date sub with
  | None => false
  | Some e => e <? now
  end.

(** The outcome of the checks made between the two round trips: either an
    answer for the caller, or the update to issue and the answer that
    follows it. *)
Inductive Verdict :=
| Deny (r : UsageResult)
| Grant (rowId : string) (newTtsUsed : Z) (r : UsageResult).

Definition decide (f : Fetched) (textLength now : Z) : Verdict :=
  match f with
  | Threw =>
      Deny {| canUse := false; usageInfo := None;
              reason := Some "Usage check failed"%string |}
  | Answered QError | Answered (QData None) =>
      Deny {| canUse := false; usageInfo := None;
              reason := Some "No subscription found"%string |}
  | Answered (QData (Some sub)) =>
      let isPro := plan_eqb (plan sub) pro && is_active sub in
      let hasQuota := tts_used sub + textLength <=? tts_limit sub in
      if negb isPro then
        Deny {| canUse := false;
                reason := Some "Basic plan - use Web TTS"%string;
                usageInfo := Some {| ui_plan := basic;
                                     ttsUsed := tts_used sub;
                                     ttsLimit := tts_limit sub;
                                     ttsRemaining := tts_limit sub - tts_used sub;
                                     canUsePremium := false |} |}
      else if isExpired sub now then
        Deny {| canUse := false; usageInfo := None;
                reason := Some "Pro subscription expired"%string |}
      else if negb hasQuota then
        Deny {| canUse := false;
                reason := Some "TTS limit reached"%string;
                usageInfo := Some {| ui_plan := pro;
                                     ttsUsed := tts_used sub;
                                     ttsLimit := tts_limit sub;
                                     ttsRemaining := 0;
                                     canUsePremium := false |} |}
      else
        let newTtsUsed := tts_used sub + textLength in
        Grant (id sub) newTtsUsed
          {| canUse := true;
             reason := None;
             usageInfo := Some {| ui_plan := pro;
                                  ttsUsed := newTtsUsed;
                                  ttsLimit := tts_limit sub;
                                  ttsRemaining := tts_limit sub - newTtsUsed;
                                  canUsePremium := newTtsUsed <? tts_limit sub |} |}
  end.

(** What the [catch] of [checkAndTrackUsage] returns. *)
Definition usage_check_failed : UsageResult :=
  {| canUse := false; usageInfo := None;
     reason := Some "Usage check failed"%string |}.

(** Round trip 2: the update by row id.  The code awaits it and does not
    look at what it resolves to, so an update that the store answers with
    [{ error }] still ends in the grant; one that rejects ends in the
    [catch]. *)
Definition track (updating : Fault) (db : Db) (rowId : string)
  (newTtsUsed : Z) (r : UsageResult) : UsageResult * Db :=
  match updating with
  | Healthy => (r, update_tts_used db rowId newTtsUsed)
  | Failing => (r, db)
  | Throwing => (usage_check_failed, db)
  end.

(** [checkAndTrackUsage(supabase, studentId, textLength)]: the select, the
    checks, and for a grant the update.  [fault] is how the store answers
    the select and [updating] how it answers the update. *)
Definition checkAndTrackUsage (fault updating : Fault) (db : Db)
  (studentId : string) (textLength now : Z) : UsageResult * Db :=
  match decide (fetch_subscription fault db studentId) textLength now with
  | Deny r => (r, db)
  | Grant rowId newTtsUsed r => track updating db rowId newTtsUsed r
  end.

(** The entitlement condition in the words of the specification: plan pro,
    active, not past its end date, and room for [characterCount] more. *)
Definition entitled (sub : Subscription) (characterCount now : Z) : Prop :=
  plan sub = pro
  /\ is_active sub = true
  /\ match end_date sub with
     | None => True
     | Some e => now <= e
     end
  /\ tts_used sub + characterCount <= tts_limit sub.

(** The usage counters stored for a student, one per row of theirs. *)
Definition stored_usage (db : Db) (studentId : string) : list Z :=
  map tts_used (subscriptions_of db studentId).

(** ** Two calls in flight

    Each [await] is a point where another request of the same isolate, or
    another isolate, can run.  A call is therefore two atomic steps: the
    select with the checks that follow it, and the update. *)
Inductive Call :=
| Waiting (studentId : string) (textLength : Z)
| Selected (rowId : string) (newTtsUsed : Z) (r : UsageResult)
| Returned (r : UsageResult).

Definition step_call (now : Z) (updating : Fault) (db : Db) (c : Call)
  : Call * Db :=
  match c with
  | Waiting sid n =>
      match decide (fetch_subscription Healthy db sid) n now with
      | Deny r => (Returned r, db)
      | Grant rowId v r => (Selected rowId v r, db)
      end
  | Selected rowId v r =>
      let (answer, db') := track updating db rowId v r in
      (Returned answer, db')
  | Returned r => (Returned r, db)
  end.

(** Which of the two calls takes the next step. *)
Inductive Turn := First | Second.

(** [updating] tells how the store answers the update of each call. *)
Fixpoint run_schedule (now : Z) (updating : Turn -> Fault)
  (sched : list Turn) (db : Db) (a b : Call) : Call * Call * Db :=
  match sched with
  | [] => (a, b, db)
  | First :: sched' =>
      let (a', db') := step_call now (updating First) db a in
      run_schedule now updating sched' db' a' b
  | Second :: sched' =>
      let (b', db') := step_call now (updating Second) db b in
      run_schedule now updating sched' db' a b'
  end.



End Ledger.

(* ===================================================================== *)
(** * The [text-to-speech] edge function *)
(* ===================================================================== *)

Module TtsFunction.
Import Js Store Ledger Sanitizer.

Definition CACHE_TTL_MS : Z := 30 * 60 * 1000.

Record CacheEntry := { audio : string; timestamp : Z }.

(** The module-level [audioCache]. *)
Definition AudioCache := JsMap.t CacheEntry.

(** [cleanCache()], run when the clock reads [now]. *)
Definition cleanCache (now : Z) (audioCache : AudioCache) : AudioCache :=
  filter (fun e => negb (CACHE_TTL_MS <? now - timestamp (snd e))) audioCache.

(** [containsHindi(text)]: a unit of the Devanagari block. *)
Definition containsHindi (text : jsstring) : bool :=
  existsb (fun u => (2304 <=? u) && (u <=? 2431)) text.

Definition truthy_opt (s : option string) : bool :=
  match s with
  | None => false
  | Some s' => negb (String.eqb s' "")
  end.

(** The environment variables the handler reads. *)
Record Env := {
  SPEECHIFY_API_KEY : option string;
  SUPABASE_URL : option string;
  SUPABASE_SERVICE_ROLE_KEY : option string
}.

(** The JSON body.  [text] is [None] when the field is absent or is not a
    string; the other fields are [None] when absent. *)
Record TtsBody := {
  text : option jsstring;
  voiceId : option jsstring;
  language : option jsstring;
  studentId : option string
}.

(** A request: a CORS preflight, or a call whose body parsed ([Some]) or
    did not (then [req.json()] rejects). *)
Inductive Request :=
| Options
| Post (parsed : option TtsBody).

(** What is sent to the speech vendor. *)
Record VendorRequest := {
  input : jsstring;
  voice_id : jsstring;
  audio_format : string;
  vmodel : jsstring;
  vlanguage : jsstring
}.

(** What the vendor sends back: an HTTP status, the body as text, and the
    [audio_data] field of the body when there is a non-empty one. *)
Record VendorResponse := {
  vstatus : Z;
  vtext : string;
  audio_data : option string
}.

(** [response.ok] *)
Definition vendor_ok (r : VendorResponse) : bool :=
  (200 <=? vstatus r) && (vstatus r <=? 299).

(** [fetch] either resolves with a response or rejects (so does reading a
    body that is not JSON). *)
Inductive VendorReply :=
| Responded (r : VendorResponse)
| Rejected.

Inductive ResponseBody :=
| Preflight
| ErrorBody (error : string) (details : option string)
| FallbackBody (reason : option string) (usageInfo : option UsageInfo)
| AudioBody (audio : string) (cached : bool) (textLength : Z)
            (audioSize : option Z) (usageInfo : option UsageInfo).

Record Response := { status : Z; body : ResponseBody }.

(** The three clock readings of one request. *)
Record Clock := {
  at_usage_check : Z;   (* [new Date()] in [checkAndTrackUsage] *)
  at_sweep : Z;         (* [Date.now()] in [cleanCache] *)
  at_store : Z          (* [Date.now()] when the audio is cached *)
}.

(** A handled request: the response, the store and the cache it leaves,
    and the request made to the vendor if one was made. *)
Record Outcome := {
  response : Response;
  db_after : Db;
  cache_after : AudioCache;
  vendor_call : option VendorRequest
}.

Definition error_response (code : Z) (msg : string) : Response :=
  {| status := code; body := ErrorBody msg None |}.

Definition hi_IN : jsstring := str "hi-IN".
Definition en_IN : jsstring := str "en-IN".
Definition model_name : jsstring := str "simba-multilingual".

(** Whether [new Response(body, { status })] accepts [status]: it throws
    for a status outside 200..599 and for a status that allows no body
    (204, 205 and 304 in that range). *)
Definition carries_body (status : Z) : bool :=
  (200 <=? status) && (status <=? 599)
  && negb ((status =? 204) || (status =? 205) || (status =? 304)).

(** [Math.round(audioBase64.length * 0.75)] *)
Definition approx_size (audioBase64 : string) : Z :=
  (3 * Z.of_nat (String.length audioBase64) + 2) / 4.

Section Runtime.

(** [String.prototype.toLowerCase], supplied by the runtime. *)
Variable toLowerCase : jsstring -> jsstring.

(** [getCacheKey(text, voiceId, model)] *)
Definition getCacheKey (text voiceId model : jsstring) : jsstring :=
  let normalizedText := substring0 500 (toLowerCase (sanitizeText text)) in
  model ++ str ":" ++ voiceId ++ str ":" ++ normalizedText.

(** The handler from "Determine model" to its end: cache sweep, cache
    lookup, vendor call, cache fill. *)
Definition synthesize (vendor : VendorRequest -> VendorReply)
  (clock : Clock) (db : Db) (audioCache : AudioCache)
  (truncatedText voiceId language : jsstring)
  (usageInfo : option UsageInfo) : Outcome :=
  let hasHindi := containsHindi truncatedText in
  let model := model_name in
  let detectedLanguage :=
    if hasHindi then hi_IN
    else if Js.eqb language hi_IN then hi_IN else en_IN in
  let swept := cleanCache (at_sweep clock) audioCache in
  let cacheKey := getCacheKey truncatedText voiceId model in
  match JsMap.get cacheKey swept with
  | Some cached =>
      {| response :=
           {| status := 200;
              body := AudioBody (audio cached) true
                        (Js.length truncatedText) None usageInfo |};
         db_after := db; cache_after := swept; vendor_call := None |}
  | None =>
      let requestBody :=
        {| input := truncatedText; voice_id := voiceId;
           audio_format := "mp3"; vmodel := model;
           vlanguage := detectedLanguage |} in
      let failed (r : Response) :=
        {| response := r; db_after := db; cache_after := swept;
           vendor_call := Some requestBody |} in
      match vendor requestBody with
      | Rejected => failed (error_response 500 "Internal server error")
      | Responded r =>
          if negb (vendor_ok r) then
            if vstatus r =? 401 then
              failed (error_response 401
                        "TTS authentication failed. Please check API key.")
            else if vstatus r =? 429 then
              failed (error_response 429
                        "TTS rate limit reached. Please try again later.")
            else if carries_body (vstatus r) then
              failed {| status := vstatus r;
                        body := ErrorBody "TTS generation failed"
                                  (Some (vtext r)) |}
            else
              (* [new Response] throws; the handler's [catch] answers *)
              failed (error_response 500 "Internal server error")
          else
            match audio_data r with
            | None =>
                failed (error_response 500
                          "Invalid response from TTS service")
            | Some audioBase64 =>
                let stored :=
                  JsMap.set cacheKey
                    {| audio := audioBase64; timestamp := at_store clock |}
                    swept in
                let bounded :=
                  if 100 <? JsMap.size stored then
                    match JsMap.first_key stored with
                    | Some oldestKey =>
                        if truthy oldestKey
                        then JsMap.delete oldestKey stored
                        else stored
                    | None => stored
                    end
                  else stored in
                {| response :=
                     {| status := 200;
                        body := AudioBody audioBase64 false
                                  (Js.length truncatedText)
                                  (Some (approx_size audioBase64))
                                  usageInfo |};
                   db_after := db; cache_after := bounded;
                   vendor_call := Some requestBody |}
            end
      end
  end.

Definition maxLength : nat := 2000.

(** The text that is spoken and billed: [cleanText] cut at [maxLength]
    units, with an ellipsis when it was cut. *)
Definition truncate (cleanText : jsstring) : jsstring :=
  if Z.of_nat maxLength <? Js.length cleanText
  then substring0 maxLength cleanText ++ str "..."
  else cleanText.

(** The handler passed to [serve].  [fault] and [updating] are how the
    store answers the select and the update of the usage check, and
    [vendor] how the speech vendor answers. *)
Definition serve (env : Env) (fault updating : Fault)
  (vendor : VendorRequest -> VendorReply) (clock : Clock)
  (db : Db) (audioCache : AudioCache) (req : Request) : Outcome :=
  let stop (r : Response) :=
    {| response := r; db_after := db; cache_after := audioCache;
       vendor_call := None |} in
  match req with
  | Options => stop {| status := 200; body := Preflight |}
  | Post parsed =>
      if negb (truthy_opt (SPEECHIFY_API_KEY env)) then
        stop (error_response 500 "TTS service not configured")
      else
        match parsed with
        | None => stop (error_response 500 "Internal server error")
        | Some b =>
            match text b with
            | None | Some [] => stop (error_response 400 "Text is required")
            | Some rawText =>
                let cleanText := sanitizeText rawText in
                if Js.length cleanText =? 0 then
                  stop (error_response 400 "No speakable text provided")
                else
                  let truncatedText := truncate cleanText in
                  let voice :=
                    match voiceId b with
                    | Some v => v
                    | None => str "henry"
                    end in
                  let lang :=
                    match language b with
                    | Some l => l
                    | None => en_IN
                    end in
                  if truthy_opt (studentId b)
                     && truthy_opt (SUPABASE_URL env)
                     && truthy_opt (SUPABASE_SERVICE_ROLE_KEY env)
                  then
                    let sid :=
                      match studentId b with
                      | Some s => s
                      | None => ""%string
                      end in
                    let (usageResult, db') :=
                      checkAndTrackUsage fault updating db sid
                        (Js.length truncatedText) (at_usage_check clock) in
                    if negb (canUse usageResult) then
                      {| response :=
                           {| status := 200;
                              body := FallbackBody (reason usageResult)
                                        (Ledger.usageInfo usageResult) |};
                         db_after := db'; cache_after := audioCache;
                         vendor_call := None |}
                    else
                      synthesize vendor clock db' audioCache truncatedText
                        voice lang (Ledger.usageInfo usageResult)
                  else
                    synthesize vendor clock db audioCache truncatedText
                      voice lang None
            end
        end
  end.

End Runtime.

End TtsFunction.

(* ===================================================================== *)
(** * JavaScript dates *)
(* ===================================================================== *)

(** Time values are milliseconds since the epoch.  The day and calendar
    functions are those of the ECMAScript specification; edge functions run
    with UTC as local time, so local time is the time value itself. *)
Module JsDate.

Definition msPerDay : Z := 86400000.

Definition Day (t : Z) : Z := t / msPerDay.
Definition TimeWithinDay (t : Z) : Z := t mod msPerDay.

Definition DaysInYear (y : Z) : Z :=
  if negb (y mod 4 =? 0) then 365
  else if negb (y mod 100 =? 0) then 366
  else if negb (y mod 400 =? 0) then 365
  else 366.

Definition DayFromYear (y : Z) : Z :=
  365 * (y - 1970) + (y - 1969) / 4 - (y - 1901) / 100 + (y - 1601) / 400.

(** Upward search for the last year that starts on or before day [d]. *)
Fixpoint year_search (fuel : nat) (d y : Z) : Z :=
  match fuel with
  | O => y
  | S fuel' =>
      if DayFromYear (y + 1) <=? d then year_search fuel' d (y + 1) else y
  end.

Definition YearFromTime (t : Z) : Z :=
  let d := Day t in
  year_search (Z.to_nat (Z.abs d / 100000 + 3)) d
    (1970 + Z.min (d / 365) (d / 366)).

Definition InLeapYear (t : Z) : Z :=
  if DaysInYear (YearFromTime t) =? 366 then 1 else 0.

Definition DayWithinYear (t : Z) : Z := Day t - DayFromYear (YearFromTime t).

(** Day within the year on which month [m] (0 to 11) starts. *)
Definition month_offset (m leap : Z) : Z :=
  if m =? 0 then 0
  else if m =? 1 then 31
  else if m =? 2 then 59 + leap
  else if m =? 3 then 90 + leap
  else if m =? 4 then 120 + leap
  else if m =? 5 then 151 + leap
  else if m =? 6 then 181 + leap
  else if m =? 7 then 212 + leap
  else if m =? 8 then 243 + leap
  else if m =? 9 then 273 + leap
  else if m =? 10 then 304 + leap
  else 334 + leap.

Definition MonthFromTime (t : Z) : Z :=
  let d := DayWithinYear t in
  let leap := InLeapYear t in
  if d <? 31 then 0
  else if d <? 59 + leap then 1
  else if d <? 90 + leap then 2
  else if d <? 120 + leap then 3
  else if d <? 151 + leap then 4
  else if d <? 181 + leap then 5
  else if d <? 212 + leap then 6
  else if d <? 243 + leap then 7
  else if d <? 273 + leap then 8
  else if d <? 304 + leap then 9
  else if d <? 334 + leap then 10
  else 11.

Definition DateFromTime (t : Z) : Z :=
  DayWithinYear t - month_offset (MonthFromTime t) (InLeapYear t) + 1.

(** [MakeDay(year, month, date)]: the day number of the first of the month,
    plus [date - 1]. *)
Definition MakeDay (year month date : Z) : Z :=
  let ym := year + month / 12 in
  let mn := month mod 12 in
  let leap := if DaysInYear ym =? 366 then 1 else 0 in
  DayFromYear ym + month_offset mn leap + date - 1.

Definition MakeDate (day time : Z) : Z := day * msPerDay + time.

(** [d.getDate()] *)
Definition getDate (t : Z) : Z := DateFromTime t.

(** [d.setDate(date)]: the time value [d] holds afterwards. *)
Definition setDate (t date : Z) : Z :=
  MakeDate (MakeDay (YearFromTime t) (MonthFromTime t) date) (TimeWithinDay t).

End JsDate.

(* ===================================================================== *)
(** * The [manage-subscription] edge function: [approve_request] *)
(* ===================================================================== *)

Module ManageSubscription.
Import Store.

Definition truthy_opt := TtsFunction.truthy_opt.

(** The fields of the request body that [approve_request] reads. *)
Record SubscriptionRequest := {
  sessionToken : option string;
  schoolUuid : option string;
  requestId : option string
}.

Record Validation := { valid : bool; validatedSchool : option string }.

Definition invalid : Validation :=
  {| valid := false; validatedSchool := None |}.

(** [validateSchoolSession(supabase, token, expectedSchoolId)] with the
    clock reading [now]. *)
Definition validateSchoolSession (db : Db) (tok : string)
  (expectedSchoolId : option string) (now : Z) : Validation :=
  match maybeSingle
          (filter (fun s => String.eqb (token s) tok) (session_tokens db)) with
  | QError | QData None => invalid
  | QData (Some data) =>
      if is_revoked data || (expires_at data <? now) then invalid
      else if negb (String.eqb (user_type data) "school") then invalid
      else
        match expectedSchoolId with
        | Some expected =>
            if negb (String.eqb expected "")
               && negb (String.eqb (user_id data) expected)
            then invalid
            else {| valid := true; validatedSchool := Some (user_id data) |}
        | None => {| valid := true; validatedSchool := Some (user_id data) |}
        end
  end.

(** The four clock readings of an approval. *)
Record Clock := {
  at_validation : Z;   (* [new Date()] in [validateSchoolSession] *)
  at_processed : Z;    (* [processed_at: new Date()] *)
  at_end_date : Z;     (* [const endDate = new Date()] *)
  at_start_date : Z    (* [start_date: new Date()] *)
}.

Definition approve (r : UpgradeRequest) (now : Z) (school : string)
  : UpgradeRequest :=
  {| req_id := req_id r; req_student_id := req_student_id r;
     status := approved;
     processed_at := Some now;
     processed_by := Some school;
     rejection_reason := rejection_reason r |}.

Definition activate_pro (s : Subscription) (startDate endDate : Z)
  : Subscription :=
  {| id := id s; student_id := student_id s;
     plan := pro;
     start_date := startDate;
     end_date := Some endDate;
     tts_used := 0;
     tts_limit := tts_limit s;
     is_active := true |}.

Record Response := {
  status : Z;
  success : bool;
  message : string
}.

(** The [case "approve_request"] branch of the handler.  [onRequest] and
    [onSubscription] are what the store does with the two updates; the
    code awaits them and does not look at what they resolve to. *)
Definition approve_request (clock : Clock) (onRequest onSubscription : Write)
  (db : Db) (body : SubscriptionRequest) : Response * Db :=
  match sessionToken body, schoolUuid body, requestId body with
  | Some tok, Some school, Some rid =>
      if negb (truthy_opt (sessionToken body))
         || negb (truthy_opt (schoolUuid body))
         || negb (truthy_opt (requestId body))
      then ({| status := 400; success := false;
               message := "Missing required fields" |}, db)
      else
        let validation :=
          validateSchoolSession db tok (Some school) (at_validation clock) in
        if negb (valid validation) then
          ({| status := 401; success := false;
              message := "Invalid session" |}, db)
        else
          let request :=
            data_of (maybeSingle
                       (filter (fun r => String.eqb (req_id r) rid)
                               (upgrade_requests db))) in
          match request with
          | None =>
              ({| status := 404; success := false;
                  message := "Request not found or already processed" |}, db)
          | Some request =>
              if negb (status_eqb (Store.status request) pending) then
                ({| status := 404; success := false;
                    message := "Request not found or already processed" |}, db)
              else
                let student :=
                  data_of (maybeSingle
                             (filter (fun s => String.eqb (stu_id s)
                                                 (req_student_id request))
                                     (students db))) in
                let belongs :=
                  match student with
                  | Some s => String.eqb (school_id s) school
                  | None => false
                  end in
                if negb belongs then
                  ({| status := 403; success := false;
                      message := "Unauthorized" |}, db)
                else
                  let db1 :=
                    match onRequest with
                    | Applied =>
                        with_upgrade_requests db
                          (map (fun r =>
                                  if String.eqb (req_id r) rid
                                  then approve r (at_processed clock) school
                                  else r)
                               (upgrade_requests db))
                    | Refused => db
                    end in
                  let endDate :=
                    JsDate.setDate (at_end_date clock)
                      (JsDate.getDate (at_end_date clock) + 30) in
                  let db2 :=
                    match onSubscription with
                    | Applied =>
                        with_subscriptions db1
                          (map (fun s =>
                                  if String.eqb (student_id s)
                                       (req_student_id request)
                                  then activate_pro s (at_start_date clock)
                                         endDate
                                  else s)
                               (subscriptions db1))
                    | Refused => db1
                    end in
                  ({| status := 200; success := true;
                      message := "Pro plan activated for 30 days" |}, db2)
          end
  | _, _, _ =>
      ({| status := 400; success := false;
          message := "Missing required fields" |}, db)
  end.

End ManageSubscription.

(* ===================================================================== *)
(** * The [useSmartTTS] hook *)
(* ===================================================================== *)

Module SmartTTS.
Import Js Store.

Record TTSUsageInfo := {
  plan : Plan;
  ttsUsed : Z;
  ttsLimit : Z;
  ttsRemaining : Z;
  canUsePremium : bool;
  usingPremium : bool
}.

Record SmartTTSState := {
  isSpeaking : bool;
  isLoading : bool;
  error : option string;
  currentVoiceId : jsstring;
  usageInfo : option TTSUsageInfo
}.

Definition with_usageInfo (st : SmartTTSState) (u : option TTSUsageInfo)
  : SmartTTSState :=
  {| isSpeaking := isSpeaking st; isLoading := isLoading st;
     error := error st; currentVoiceId := currentVoiceId st;
     usageInfo := u |}.

Definition with_flags (st : SmartTTSState) (speaking loading : bool)
  : SmartTTSState :=
  {| isSpeaking := speaking; isLoading := loading;
     error := error st; currentVoiceId := currentVoiceId st;
     usageInfo := usageInfo st |}.

Definition truthy_opt := TtsFunction.truthy_opt.

(** ** [fetchUsageInfo] *)

(** The [subscription] object of a [get_subscription] answer; a field is
    [None] when it is absent or null. *)
Record SubscriptionView := {
  v_plan : option Plan;
  v_tts_used : option Z;
  v_tts_limit : option Z;
  v_is_active : option bool;
  v_end_date : option Z
}.

(** The [data] of the answer: whether it carries a truthy [error], and its
    [subscription]. *)
Record SubscriptionData := {
  data_error : bool;
  subscription : option SubscriptionView
}.

(** [supabase.functions.invoke('manage-subscription', ...)] resolves to
    [{ data, error }]: the client library catches what its transport
    throws and hands it back as [error], so the [catch] of
    [fetchUsageInfo] has nothing to catch from it. *)
Inductive Invocation :=
| Invoked (error : bool) (data : option SubscriptionData).

Definition safe_default : TTSUsageInfo :=
  {| plan := basic; ttsUsed := 0; ttsLimit := 150000;
     ttsRemaining := 150000; canUsePremium := false;
     usingPremium := false |}.

(** [x || dflt] on a number that may be absent. *)
Definition number_or (x : option Z) (dflt : Z) : Z :=
  match x with
  | Some v => if v =? 0 then dflt else v
  | None => dflt
  end.

(** [fetchUsageInfo()]: the state it leaves, given what the remote call
    resolved to and the clock reading [now]. *)
Definition fetchUsageInfo (studentId : option string) (st : SmartTTSState)
  (answer : Invocation) (now : Z) : SmartTTSState :=
  if negb (truthy_opt studentId) then st
  else
    match answer with
    | Invoked err data =>
        let data_err :=
          match data with
          | Some d => data_error d
          | None => false
          end in
        if err || data_err then with_usageInfo st (Some safe_default)
        else
          let sub :=
            match data with
            | Some d => subscription d
            | None => None
            end in
          let field {A} (f : SubscriptionView -> option A) : option A :=
            match sub with
            | Some s => f s
            | None => None
            end in
          let plan :=
            match field v_plan with Some p => p | None => basic end in
          let ttsUsed := number_or (field v_tts_used) 0 in
          let ttsLimit := number_or (field v_tts_limit) 150000 in
          let isActive :=
            match field v_is_active with Some b => b | None => true end in
          let isExpired :=
            match field v_end_date with
            | Some e => e <? now
            | None => false
            end in
          let canUsePremium :=
            plan_eqb plan pro && isActive && negb isExpired
            && (ttsUsed <? ttsLimit) in
          with_usageInfo st
            (Some {| plan := plan; ttsUsed := ttsUsed; ttsLimit := ttsLimit;
                     ttsRemaining := Z.max 0 (ttsLimit - ttsUsed);
                     canUsePremium := canUsePremium;
                     usingPremium := canUsePremium |})
    end.

(** ** [speakPremium] *)

(** The module-level [clientAudioCache]: cache key to audio data URL. *)
Definition ClientCache := JsMap.t string.

(** [s.includes(needle)] *)
Definition includes (needle s : string) : bool :=
  match String.index 0 needle s with
  | Some _ => true
  | None => false
  end.

Definition nonempty (s : string) : bool := negb (String.eqb s "").

(** The [data] of a [text-to-speech] answer. *)
Record TtsData := {
  d_error : option string;
  d_audio : option string;
  d_usageInfo : option Ledger.UsageInfo
}.

(** [supabase.functions.invoke('text-to-speech', ...)]: [{ error }] for a
    response outside 2xx or an unreachable function, [{ data }] otherwise. *)
Inductive FunctionReply :=
| ReplyError (message : string)
| ReplyData (data : option TtsData).

(** How the client sees a response of the edge function. *)
Definition reply_of_response (r : TtsFunction.Response) : FunctionReply :=
  if (200 <=? TtsFunction.status r) && (TtsFunction.status r <=? 299) then
    match TtsFunction.body r with
    | TtsFunction.Preflight => ReplyData None
    | TtsFunction.ErrorBody e _ =>
        ReplyData (Some {| d_error := Some e; d_audio := None;
                           d_usageInfo := None |})
    | TtsFunction.FallbackBody _ u =>
        ReplyData (Some {| d_error := Some "FALLBACK_TO_WEB_TTS"%string;
                           d_audio := None; d_usageInfo := u |})
    | TtsFunction.AudioBody a _ _ _ u =>
        ReplyData (Some {| d_error := None; d_audio := Some a;
                           d_usageInfo := u |})
    end
  else ReplyError "Edge Function returned a non-2xx status code".

(** What becomes of [audio.play()]. *)
Inductive Playback :=
| Ended          (* [onplay], then [onended] *)
| Errored        (* [onerror] *)
| PlayRejected.  (* the promise of [play()] rejects *)

Record SmartTTSOptions := {
  text : jsstring;
  voiceId : option jsstring
}.

Record PremiumResult := {
  played : bool;
  premium_state : SmartTTSState;
  premium_cache : ClientCache;
  from_cache : bool;
  function_called : bool
}.

Definition play (st : SmartTTSState) (cache : ClientCache)
  (hit called : bool) (p : Playback) : PremiumResult :=
  match p with
  | Ended =>
      {| played := true; premium_state := with_flags st false false;
         premium_cache := cache; from_cache := hit;
         function_called := called |}
  | Errored =>
      {| played := false; premium_state := with_flags st false false;
         premium_cache := cache; from_cache := hit;
         function_called := called |}
  | PlayRejected =>
      {| played := false; premium_state := st;
         premium_cache := cache; from_cache := hit;
         function_called := called |}
  end.

(** The [cacheKey] of [speakPremium]: the voice asked for, or else the
    current one, and the first 200 units of the text. *)
Definition client_key (st : SmartTTSState) (options : SmartTTSOptions)
  : jsstring :=
  let voice :=
    match voiceId options with
    | Some v => v
    | None => currentVoiceId st
    end in
  voice ++ str ":" ++ substring0 200 (text options).

(** [speakPremium(options)].  [reply] is what the edge function answers
    if it is called, [playback] what the audio element does. *)
Definition speakPremium (st : SmartTTSState) (cache : ClientCache)
  (options : SmartTTSOptions) (reply : FunctionReply) (playback : Playback)
  : PremiumResult :=
  let cacheKey := client_key st options in
  let cache1 :=
    match JsMap.get cacheKey cache with
    | Some cachedAudio =>
        if nonempty cachedAudio && includes "audio_data" cachedAudio
        then JsMap.delete cacheKey cache
        else cache
    | None => cache
    end in
  let failed :=
    {| played := false; premium_state := st; premium_cache := cache1;
       from_cache := false; function_called := true |} in
  let call :=
    match reply with
    | ReplyError _ => failed
    | ReplyData None => failed
    | ReplyData (Some data) =>
        let has_error :=
          match d_error data with
          | Some e => nonempty e
          | None => false
          end in
        let audio :=
          match d_audio data with
          | Some a => if nonempty a then Some a else None
          | None => None
          end in
        if has_error then failed
        else
          match audio with
          | None => failed
          | Some a =>
              let audioDataUrl := ("data:audio/mp3;base64," ++ a)%string in
              let st1 :=
                match d_usageInfo data, usageInfo st with
                | Some u, Some prev =>
                    with_usageInfo st
                      (Some {| plan := plan prev;
                               ttsUsed := Ledger.ttsUsed u;
                               ttsLimit := ttsLimit prev;
                               ttsRemaining := Ledger.ttsRemaining u;
                               canUsePremium := Ledger.canUsePremium u;
                               usingPremium := usingPremium prev |})
                | _, _ => st
                end in
              let cache2 :=
                if 50 <? JsMap.size cache1 then
                  match JsMap.first_key cache1 with
                  | Some firstKey =>
                      if truthy firstKey
                      then JsMap.delete firstKey cache1
                      else cache1
                  | None => cache1
                  end
                else cache1 in
              play st1 (JsMap.set cacheKey audioDataUrl cache2)
                   false true playback
          end
    end in
  match JsMap.get cacheKey cache1 with
  | Some validCachedAudio =>
      if nonempty validCachedAudio
      then play st cache1 true false playback
      else call
  | None => call
  end.

(** ** [speak] *)

Inductive Backend := Premium | Web.

(** What the outside world does during one [speak]: the edge function's
    answer, the audio element, and whether the browser voice resolves. *)
Record World := {
  reply : FunctionReply;
  playback : Playback;
  web_resolves : bool
}.

(** The routing decision of [speak]: [usePremium], [fallbackReason], and
    whether the cached plan status is marked as out of quota. *)
Record Route := {
  usePremium : bool;
  fallbackReason : string;
  limitReached : bool
}.

Definition route (studentId : option string) (usageInfo : option TTSUsageInfo)
  (textLength : Z) : Route :=
  if negb (truthy_opt studentId) then
    {| usePremium := false; fallbackReason := "No student ID";
       limitReached := false |}
  else
    match usageInfo with
    | None =>
        {| usePremium := false;
           fallbackReason := "Loading subscription info";
           limitReached := false |}
    | Some u =>
        match plan u with
        | basic =>
            {| usePremium := false;
               fallbackReason := "Basic plan - Web TTS only";
               limitReached := false |}
        | pro =>
            if canUsePremium u && (textLength <=? ttsRemaining u) then
              {| usePremium := true; fallbackReason := "";
                 limitReached := false |}
            else
              {| usePremium := false;
                 fallbackReason :=
                   if ttsRemaining u <? textLength
                   then "TTS limit reached - fallback to Web TTS"
                   else "Pro plan inactive or expired";
                 limitReached := ttsRemaining u <? textLength |}
        end
    end.

Record SpeakResult := {
  invoked : list Backend;
  state_after : SmartTTSState;
  cache_after : ClientCache;
  edge_function_called : bool
}.

(** [speakWeb(options)] *)
Definition speakWeb (st : SmartTTSState) (resolves : bool)
  : bool * SmartTTSState :=
  if resolves then (true, with_flags st true false) else (false, st).

Definition fail_state (st : SmartTTSState) : SmartTTSState :=
  {| isSpeaking := isSpeaking st; isLoading := false;
     error := Some "TTS failed"%string;
     currentVoiceId := currentVoiceId st; usageInfo := usageInfo st |}.

(** [speak(options)] called from a render whose state is [st]. *)
Definition speak (studentId : option string) (st : SmartTTSState)
  (cache : ClientCache) (options : SmartTTSOptions) (w : World)
  : SpeakResult :=
  if negb (truthy (text options))
     || (Js.length (Sanitizer.trim (text options)) =? 0)
  then {| invoked := []; state_after := st; cache_after := cache;
          edge_function_called := false |}
  else
    (* stop(); then isLoading: true, error: null *)
    let st0 :=
      {| isSpeaking := false; isLoading := true; error := None;
         currentVoiceId := currentVoiceId st; usageInfo := usageInfo st |} in
    let textLength := Js.length (text options) in
    let decision := route studentId (usageInfo st) textLength in
    let st1 :=
      if limitReached decision then
        match usageInfo st0 with
        | Some prev =>
            with_usageInfo st0
              (Some {| plan := plan prev; ttsUsed := ttsUsed prev;
                       ttsLimit := ttsLimit prev;
                       ttsRemaining := ttsRemaining prev;
                       canUsePremium := false; usingPremium := false |})
        | None => st0
        end
      else st0 in
    if usePremium decision then
      let p := speakPremium st1 cache options (reply w) (playback w) in
      if played p then
        {| invoked := [Premium]; state_after := premium_state p;
           cache_after := premium_cache p;
           edge_function_called := function_called p |}
      else
        let (success, st2) := speakWeb (premium_state p) (web_resolves w) in
        {| invoked := [Premium; Web];
           state_after := if success then st2 else fail_state st2;
           cache_after := premium_cache p;
           edge_function_called := function_called p |}
    else
      let (success, st2) := speakWeb st1 (web_resolves w) in
      {| invoked := [Web];
         state_after := if success then st2 else fail_state st2;
         cache_after := cache;
         edge_function_called := false |}.

End SmartTTS.

(* ===================================================================== *)
(** * The [manage-subscription] edge function: the other actions *)
(* ===================================================================== *)

Module SubscriptionActions.
Import Store.

(** The fields of the request body that the actions below read. *)
Record SubscriptionRequest := {
  sessionToken : option string;
  schoolUuid : option string;
  studentId : option string;
  requestId : option string;
  rejectionReason : option string;
  ttsCharacters : option Z
}.

(** A string field when it is truthy: present and not empty. *)
Definition present (field : option string) : option string :=
  match field with
  | Some s => if String.eqb s "" then None else Some s
  | None => None
  end.

(** [from('upgrade_requests').select(...).eq('student_id', sid)
      .eq('status', 'pending')] *)
Definition pending_requests_of (db : Db) (sid : string)
  : list UpgradeRequest :=
  filter (fun r => String.eqb (req_student_id r) sid
                   && status_eqb (status r) pending)
         (upgrade_requests db).

(** [from('upgrade_requests').select(...).eq('id', rid).maybeSingle()] *)
Definition request_by_id (db : Db) (rid : string) : option UpgradeRequest :=
  data_of (maybeSingle
             (filter (fun r => String.eqb (req_id r) rid)
                     (upgrade_requests db))).

(** [from('students').select('school_id').eq('id', sid).maybeSingle()] *)
Definition student_by_id (db : Db) (sid : string) : option Student :=
  data_of (maybeSingle
             (filter (fun s => String.eqb (stu_id s) sid) (students db))).

(** [student?.school_id === body.schoolUuid] *)
Definition in_school (student : option Student) (school : string) : bool :=
  match student with
  | Some s => String.eqb (school_id s) school
  | None => false
  end.

(** The row that [insert({ student_id, requested_plan: 'pro',
    status: 'pending' })] creates; the store chooses its [id]. *)
Definition new_request (rid sid : string) : UpgradeRequest :=
  {| req_id := rid; req_student_id := sid; status := pending;
     processed_at := None; processed_by := None;
     rejection_reason := None |}.

(** [update({ status: 'rejected', processed_at, processed_by,
    rejection_reason })] *)
Definition reject (r : UpgradeRequest) (now : Z) (school why : string)
  : UpgradeRequest :=
  {| req_id := req_id r; req_student_id := req_student_id r;
     status := rejected;
     processed_at := Some now;
     processed_by := Some school;
     rejection_reason := Some why |}.

(** [update({ status: 'blocked', processed_at, processed_by })] *)
Definition block (r : UpgradeRequest) (now : Z) (school : string)
  : UpgradeRequest :=
  {| req_id := req_id r; req_student_id := req_student_id r;
     status := blocked;
     processed_at := Some now;
     processed_by := Some school;
     rejection_reason := rejection_reason r |}.

(** [update({ plan: 'basic', end_date: null, is_active: true })] *)
Definition downgrade (s : Subscription) : Subscription :=
  {| id := id s; student_id := student_id s;
     plan := basic;
     start_date := start_date s;
     end_date := None;
     tts_used := tts_used s;
     tts_limit := tts_limit s;
     is_active := true |}.

(** [... .update({ plan: 'basic', ... }).eq('student_id', sid)] *)
Definition downgrade_student (db : Db) (sid : string) : Db :=
  with_subscriptions db
    (map (fun s => if String.eqb (student_id s) sid then downgrade s else s)
         (subscriptions db)).



(** The JSON object of a response, by shape. *)
Inductive Payload :=
| Failure (error : string)                 (* success: false *)
| Message (message : string)
| SubscriptionPayload (subscription : SmartTTS.SubscriptionView)
                      (pendingRequest : option UpgradeRequest)
| DeniedPayload (reason : string)          (* usePremiumTTS: false *)
| GrantedPayload (ttsUsed ttsLimit ttsRemaining : Z)
| ExpiryPayload (expiredCount : Z).

Record Response := { code : Z; payload : Payload }.

(** The [success] field of the JSON object. *)
Definition success (r : Response) : bool :=
  match payload r with
  | Failure _ => false
  | _ => true
  end.

Definition failure (c : Z) (error : string) : Response :=
  {| code := c; payload := Failure error |}.

(** The two clock readings of a school action. *)
Record Clock := {
  at_validation : Z;   (* [new Date()] in [validateSchoolSession] *)
  at_processed : Z     (* [processed_at: new Date()] *)
}.

(** The [data] of a lookup whose [error] the code does not look at: null
    when the store answers with an error. *)
Definition looked_up {A} (lookupError : bool) (q : QueryResult A)
  : option A :=
  if lookupError then None else data_of q.

(** The [case "request_upgrade"] branch, run with no other request in
    between its three round trips.  [existingError] and [subError] tell
    whether the store answers the two lookups with an error (the code
    reads only their [data]); [inserted] is what the store does with the
    insert: it creates the row under the id it generates, or refuses it
    ([insertError]). *)
Definition request_upgrade (existingError subError : bool)
  (inserted : option string) (db : Db) (body : SubscriptionRequest)
  : Response * Db :=
  match present (studentId body) with
  | None => (failure 400 "Student ID required", db)
  | Some sid =>
      match looked_up existingError
              (maybeSingle (pending_requests_of db sid)) with
      | Some existing =>
          (failure 400 "You already have a pending upgrade request", db)
      | None =>
          let sub :=
            looked_up subError (maybeSingle (subscriptions_of db sid)) in
          let isPro :=
            match sub with
            | Some s => plan_eqb (plan s) pro
            | None => false
            end in
          if isPro then (failure 400 "You already have a Pro plan", db)
          else
            match inserted with
            | None => (failure 500 "Failed to submit request", db)
            | Some rid =>
                ({| code := 200;
                    payload := Message "Upgrade request submitted" |},
                 with_upgrade_requests db
                   (upgrade_requests db ++ [new_request rid sid]))
            end
      end
  end.

(** ** Two requests for an upgrade in flight

    Each [await] of [request_upgrade] is a point where another request can
    run.  A call is therefore three atomic steps: the lookup of a pending
    request, the lookup of the subscription, and the insert. *)
Inductive UpgradeCall :=
| Asking (body : SubscriptionRequest)
| Unrequested (sid : string)    (* no pending request was seen *)
| Eligible (sid : string)       (* and no pro plan *)
| Replied (r : Response).

(** How the store answers the three round trips of one call. *)
Record UpgradeStore := {
  existingError : bool;
  subError : bool;
  inserted : option string
}.

Definition step_upgrade (store : UpgradeStore) (db : Db) (c : UpgradeCall)
  : UpgradeCall * Db :=
  match c with
  | Asking body =>
      match present (studentId body) with
      | None => (Replied (failure 400 "Student ID required"), db)
      | Some sid =>
          match looked_up (existingError store)
                  (maybeSingle (pending_requests_of db sid)) with
          | Some existing =>
              (Replied
                 (failure 400 "You already have a pending upgrade request"),
               db)
          | None => (Unrequested sid, db)
          end
      end
  | Unrequested sid =>
      let sub :=
        looked_up (subError store) (maybeSingle (subscriptions_of db sid)) in
      let isPro :=
        match sub with
        | Some s => plan_eqb (plan s) pro
        | None => false
        end in
      if isPro then (Replied (failure 400 "You already have a Pro plan"), db)
      else (Eligible sid, db)
  | Eligible sid =>
      match inserted store with
      | None => (Replied (failure 500 "Failed to submit request"), db)
      | Some rid =>
          (Replied {| code := 200;
                      payload := Message "Upgrade request submitted" |},
           with_upgrade_requests db
             (upgrade_requests db ++ [new_request rid sid]))
      end
  | Replied r => (Replied r, db)
  end.

(** Two calls, [a] against [first] and [b] against [second], taking their
    steps in the order of [sched]. *)
Fixpoint run_upgrades (first second : UpgradeStore) (sched : list Ledger.Turn)
  (db : Db) (a b : UpgradeCall) : UpgradeCall * UpgradeCall * Db :=
  match sched with
  | [] => (a, b, db)
  | Ledger.First :: sched' =>
      let (a', db') := step_upgrade first db a in
      run_upgrades first second sched' db' a' b
  | Ledger.Second :: sched' =>
      let (b', db') := step_upgrade second db b in
      run_upgrades first second sched' db' a b'
  end.

(** Whether a call has been answered with success. *)
Definition accepted (c : UpgradeCall) : bool :=
  match c with
  | Replied r => success r
  | _ => false
  end.

Section Newest.

(** [.order('created_at', { ascending: false }).limit(1)]: the store picks
    the row created last; the columns it orders by are not part of
    [UpgradeRequest]. *)
Variable newest : list UpgradeRequest -> option UpgradeRequest.


End Newest.

(** The [case "increment_tts"] branch, when the clock reads [now].
    [updating] is what the store does with the update, whose result the
    code does not look at. *)
Definition increment_tts (updating : Write) (db : Db)
  (body : SubscriptionRequest) (now : Z) : Response * Db :=
  match present (studentId body), ttsCharacters body with
  | Some sid, Some characters =>
      if characters =? 0 then
        (failure 400 "Student ID and character count required", db)
      else
        match data_of (maybeSingle (subscriptions_of db sid)) with
        | None =>
            ({| code := 200;
                payload := DeniedPayload "No subscription found" |}, db)
        | Some sub =>
            let isPro := plan_eqb (plan sub) pro && is_active sub in
            let hasQuota := tts_used sub + characters <=? tts_limit sub in
            let isExpired := Ledger.isExpired sub now in
            if isPro && hasQuota && negb isExpired then
              ({| code := 200;
                  payload :=
                    GrantedPayload (tts_used sub + characters) (tts_limit sub)
                      (tts_limit sub - (tts_used sub + characters)) |},
               match updating with
               | Applied =>
                   update_tts_used db (id sub) (tts_used sub + characters)
               | Refused => db
               end)
            else
              let reason :=
                if isPro && isExpired then "Subscription expired"%string
                else if isPro && negb hasQuota then "TTS limit reached"%string
                else "Basic plan"%string in
              ({| code := 200; payload := DeniedPayload reason |}, db)
        end
  | _, _ => (failure 400 "Student ID and character count required", db)
  end.

(** The [case "reject_request"] branch.  [updating] is what the store
    does with the update, whose result the code does not look at. *)
Definition reject_request (clock : Clock) (updating : Write) (db : Db)
  (body : SubscriptionRequest) : Response * Db :=
  match present (sessionToken body), present (schoolUuid body),
        present (requestId body) with
  | Some tok, Some school, Some rid =>
      let validation :=
        ManageSubscription.validateSchoolSession db tok (Some school)
          (at_validation clock) in
      if negb (ManageSubscription.valid validation) then
        (failure 401 "Invalid session", db)
      else
        match request_by_id db rid with
        | None => (failure 404 "Request not found or already processed", db)
        | Some request =>
            if negb (status_eqb (status request) pending) then
              (failure 404 "Request not found or already processed", db)
            else if negb (in_school (student_by_id db (req_student_id request))
                                    school) then
              (failure 403 "Unauthorized", db)
            else
              let why :=
                match present (rejectionReason body) with
                | Some given => given
                | None => "Request rejected by school"%string
                end in
              ({| code := 200; payload := Message "Request rejected" |},
               match updating with
               | Applied =>
                   with_upgrade_requests db
                     (map (fun r =>
                             if String.eqb (req_id r) rid
                             then reject r (at_processed clock) school why
                             else r)
                          (upgrade_requests db))
               | Refused => db
               end)
        end
  | _, _, _ => (failure 400 "Missing required fields", db)
  end.

(** The [case "block_student"] branch.  [onRequests] and [onSubscription]
    are what the store does with the two updates, whose results the code
    does not look at. *)
Definition block_student (clock : Clock) (onRequests onSubscription : Write)
  (db : Db) (body : SubscriptionRequest) : Response * Db :=
  match present (sessionToken body), present (schoolUuid body),
        present (studentId body) with
  | Some tok, Some school, Some sid =>
      let validation :=
        ManageSubscription.validateSchoolSession db tok (Some school)
          (at_validation clock) in
      if negb (ManageSubscription.valid validation) then
        (failure 401 "Invalid session", db)
      else if negb (in_school (student_by_id db sid) school) then
        (failure 404 "Student not found in your school", db)
      else
        let db1 :=
          match onRequests with
          | Applied =>
              with_upgrade_requests db
                (map (fun r => if String.eqb (req_student_id r) sid
                                  && status_eqb (status r) pending
                               then block r (at_processed clock) school
                               else r)
                     (upgrade_requests db))
          | Refused => db
          end in
        ({| code := 200;
            payload := Message "Student blocked from Pro access" |},
         match onSubscription with
         | Applied => downgrade_student db1 sid
         | Refused => db1
         end)
  | _, _, _ => (failure 400 "Missing required fields", db)
  end.

(** The [case "cancel_pro"] branch; [now] is the clock reading of the
    session check and [updating] what the store does with the update,
    whose result the code does not look at. *)
Definition cancel_pro (now : Z) (updating : Write) (db : Db)
  (body : SubscriptionRequest) : Response * Db :=
  match present (sessionToken body), present (schoolUuid body),
        present (studentId body) with
  | Some tok, Some school, Some sid =>
      let validation :=
        ManageSubscription.validateSchoolSession db tok (Some school) now in
      if negb (ManageSubscription.valid validation) then
        (failure 401 "Invalid session", db)
      else if negb (in_school (student_by_id db sid) school) then
        (failure 404 "Student not found in your school", db)
      else
        ({| code := 200; payload := Message "Pro subscription cancelled" |},
         match updating with
         | Applied => downgrade_student db sid
         | Refused => db
         end)
  | _, _, _ => (failure 400 "Missing required fields", db)
  end.

(** [.eq('plan', 'pro').lt('end_date', now)]: a null [end_date] is not
    less than anything. *)
Definition expired_pro (now : Z) (s : Subscription) : bool :=
  plan_eqb (plan s) pro
  && match end_date s with
     | Some e => e <? now
     | None => false
     end.

(** The [case "check_expiry"] branch.  [expiredError] and [updateError]
    tell whether the store answers the select and the update with an
    error; [now] is the clock reading. *)
Definition check_expiry (expiredError updateError : bool) (now : Z) (db : Db)
  : Response * Db :=
  if expiredError then
    (failure 500 "Failed to check expired subscriptions", db)
  else
    let expiredSubs := filter (expired_pro now) (subscriptions db) in
    let ids := map id expiredSubs in
    let db' :=
      if (0 <? Z.of_nat (List.length expiredSubs)) && negb updateError then
        with_subscriptions db
          (map (fun s => if existsb (String.eqb (id s)) ids
                         then downgrade s else s)
               (subscriptions db))
      else db in
    ({| code := 200;
        payload := ExpiryPayload (Z.of_nat (List.length expiredSubs)) |},
     db').

End SubscriptionActions.

(* ===================================================================== *)
(** * The [useSubscription] hook *)
(* ===================================================================== *)

Module SubscriptionHook.
Import Store.

(** [canUsePremiumTTS()] over the hook's [subscription], when the clock
    reads [now]. *)
Definition canUsePremiumTTS (subscription : option Subscription) (now : Z)
  : bool :=
  match subscription with
  | None => false
  | Some s =>
      if negb (plan_eqb (plan s) pro) then false
      else if negb (is_active s) then false
      else if match end_date s with
              | Some e => e <? now
              | None => false
              end then false
      else if tts_limit s <=? tts_used s then false
      else true
  end.

(** [getStatusLabel()] over the hook's [subscription] and
    [pendingRequest]. *)
Definition getStatusLabel (subscription : option Subscription)
  (pendingRequest : option UpgradeRequest) (now : Z) : string :=
  let request_is (st : RequestStatus) :=
    match pendingRequest with
    | Some r => status_eqb (status r) st
    | None => false
    end in
  match subscription with
  | None => "No Plan"
  | Some s =>
      if request_is blocked then "Blocked"
      else if request_is pending then "Pending Approval"
      else if plan_eqb (plan s) pro then
        if match end_date s with
           | Some e => e <? now
           | None => false
           end then "Expired"
        else if tts_limit s <=? tts_used s then "Voice Limit Reached"
        else "Active Pro"
      else "Basic"
  end.

End SubscriptionHook.

(* ===================================================================== *)
(** * The [useNativeTTS] hook: [getBestVoice] *)
(* ===================================================================== *)

Module NativeTTS.
Import Js.

(** The fields of a [SpeechSynthesisVoice] that the hook reads. *)
Record Voice := { name : jsstring; lang : jsstring }.

(** [s.startsWith(prefix)] *)
Fixpoint startsWith (prefix s : jsstring) : bool :=
  match prefix, s with
  | [], _ => true
  | p :: prefix', c :: s' => (c =? p) && startsWith prefix' s'
  | _ :: _, [] => false
  end.

(** [getBestVoice()]: [availableVoices] is the hook's state, [engineVoices]
    what [speechSynthesis.getVoices()] returns at the call. *)
Definition getBestVoice (availableVoices engineVoices : list Voice)
  : option Voice :=
  let voices :=
    match availableVoices with
    | [] => engineVoices
    | _ :: _ => availableVoices
    end in
  match find (fun v => Js.eqb (lang v) (str "hi-IN")) voices with
  | Some hindiVoice => Some hindiVoice
  | None =>
      match find (fun v => Js.eqb (lang v) (str "en-IN")) voices with
      | Some indianEnglish => Some indianEnglish
      | None =>
          match find (fun v => startsWith (str "en") (lang v)) voices with
          | Some englishVoice => Some englishVoice
          | None => hd_error voices
          end
      end
  end.

End NativeTTS.

(* ===================================================================== *)
(** * The [text-to-speech] edge function without usage tracking *)
(* ===================================================================== *)

(** The earlier revision of the handler: the same helpers and the same
    synthesis, no store, and a cut at 5000 units. *)
Module UntrackedTts.
Import Js Sanitizer TtsFunction.

Section Runtime.

Variable toLowerCase : jsstring -> jsstring.

Definition maxLength : nat := 5000.

Definition truncate (cleanText : jsstring) : jsstring :=
  if Z.of_nat maxLength <? Js.length cleanText
  then substring0 maxLength cleanText ++ str "..."
  else cleanText.

(** A handled request: the response, the cache it leaves, and the request
    made to the vendor if one was made. *)
Record Outcome := {
  response : Response;
  cache_after : AudioCache;
  vendor_call : option VendorRequest
}.

(** The steps after the cut are those of [TtsFunction.synthesize], which
    passes the store through untouched and reports no usage. *)
Definition synthesize (vendor : VendorRequest -> VendorReply)
  (clock : Clock) (audioCache : AudioCache)
  (truncatedText voiceId language : jsstring) : Outcome :=
  let out :=
    TtsFunction.synthesize toLowerCase vendor clock
      {| Store.subscriptions := []; Store.upgrade_requests := [];
         Store.students := []; Store.session_tokens := [] |}
      audioCache truncatedText voiceId language None in
  {| response := TtsFunction.response out;
     cache_after := TtsFunction.cache_after out;
     vendor_call := TtsFunction.vendor_call out |}.

Definition serve (env : Env) (vendor : VendorRequest -> VendorReply)
  (clock : Clock) (audioCache : AudioCache) (req : Request) : Outcome :=
  let stop (r : Response) :=
    {| response := r; cache_after := audioCache; vendor_call := None |} in
  match req with
  | Options => stop {| status := 200; body := Preflight |}
  | Post parsed =>
      if negb (truthy_opt (SPEECHIFY_API_KEY env)) then
        stop (error_response 500 "TTS service not configured")
      else
        match parsed with
        | None => stop (error_response 500 "Internal server error")
        | Some b =>
            match text b with
            | None | Some [] => stop (error_response 400 "Text is required")
            | Some rawText =>
                let cleanText := sanitizeText rawText in
                if Js.length cleanText =? 0 then
                  stop (error_response 400 "No speakable text provided")
                else
                  let truncatedText := truncate cleanText in
                  let voice :=
                    match voiceId b with
                    | Some v => v
                    | None => str "henry"
                    end in
                  let lang :=
                    match language b with
                    | Some l => l
                    | None => en_IN
                    end in
                  synthesize vendor clock audioCache truncatedText voice lang
            end
        end
  end.

End Runtime.

End UntrackedTts.
(* ===================================================================== *)
(** * Properties of the usage ledger *)
(* ===================================================================== *)

Module LedgerFacts.
Import Store Ledger.

(** The rows used by the scenarios: one student, one subscription. *)
Definition pro_row (used limit : Z) : Subscription :=
  {| id := "sub-1"; student_id := "student-1"; plan := pro;
     start_date := 0; end_date := None;
     tts_used := used; tts_limit := limit; is_active := true |}.

Definition one_row (row : Subscription) : Db :=
  {| subscriptions := [row]; upgrade_requests := [];
     students := []; session_tokens := [] |}.

Lemma set_tts_used_student s v : student_id (set_tts_used s v) = student_id s.
Proof. reflexivity. Qed.

(** Selecting a student's rows commutes with the update by row id. *)
Lemma subscriptions_of_update db rid v sid :
  subscriptions_of (update_tts_used db rid v) sid
  = map (fun s => if String.eqb (id s) rid then set_tts_used s v else s)
        (subscriptions_of db sid).
Proof.
  unfold subscriptions_of, update_tts_used; simpl.
  induction (subscriptions db) as [|s rows IH]; simpl; [reflexivity|].
  destruct (String.eqb (id s) rid) eqn:E.
  - rewrite set_tts_used_student.
    destruct (String.eqb (student_id s) sid); simpl; rewrite ?E, IH; reflexivity.
  - destruct (String.eqb (student_id s) sid); simpl; rewrite ?E, IH; reflexivity.
Qed.

Lemma maybeSingle_some {A} (rows : list A) (r : A) :
  maybeSingle rows = QData (Some r) -> rows = [r].
Proof.
  destruct rows as [|a [|b rows]]; simpl; intros H; inversion H; reflexivity.
Qed.

Lemma fetch_some fault db sid sub :
  fetch_subscription fault db sid = Answered (QData (Some sub)) ->
  fault = Healthy /\ subscriptions_of db sid = [sub].
Proof.
  destruct fault; simpl; intros H; try discriminate.
  inversion H as [H1]. split; [reflexivity|]. now apply maybeSingle_some.
Qed.

(** [decide] on a row that was found: a grant exactly when the row is
    entitled. *)
Lemma decide_entitled sub n now :
  entitled sub n now ->
  decide (Answered (QData (Some sub))) n now
  = Grant (id sub) (tts_used sub + n)
      {| canUse := true; reason := None;
         usageInfo :=
           Some {| ui_plan := pro; ttsUsed := tts_used sub + n;
                   ttsLimit := tts_limit sub;
                   ttsRemaining := tts_limit sub - (tts_used sub + n);
                   canUsePremium := tts_used sub + n <? tts_limit sub |} |}.
Proof.
  intros (Hp & Ha & He & Hq). unfold decide, isExpired.
  rewrite Hp, Ha. simpl.
  destruct (end_date sub) as [e|].
  - destruct (Z.ltb_spec e now); [lia|].
    destruct (Z.leb_spec (tts_used sub + n) (tts_limit sub)); [reflexivity|lia].
  - destruct (Z.leb_spec (tts_used sub + n) (tts_limit sub)); [reflexivity|lia].
Qed.

Lemma decide_not_entitled sub n now :
  ~ entitled sub n now ->
  exists r, decide (Answered (QData (Some sub))) n now = Deny r
            /\ canUse r = false /\ exists why, reason r = Some why.
Proof.
  intros Hn. unfold decide, isExpired.
  destruct (plan sub) eqn:Hp; simpl.
  - eexists; split; [reflexivity|]; simpl; eauto.
  - destruct (is_active sub) eqn:Ha; simpl.
    2:{ eexists; split; [reflexivity|]; simpl; eauto. }
    destruct (end_date sub) as [e|] eqn:He.
    + destruct (Z.ltb_spec e now).
      { eexists; split; [reflexivity|]; simpl; eauto. }
      destruct (Z.leb_spec (tts_used sub + n) (tts_limit sub)); simpl.
      { exfalso. apply Hn. unfold entitled. rewrite Hp, Ha, He. repeat split; lia. }
      eexists; split; [reflexivity|]; simpl; eauto.
    + destruct (Z.leb_spec (tts_used sub + n) (tts_limit sub)); simpl.
      { exfalso. apply Hn. unfold entitled. rewrite Hp, Ha, He. repeat split; lia. }
      eexists; split; [reflexivity|]; simpl; eauto.
Qed.

Lemma entitled_dec sub n now : entitled sub n now \/ ~ entitled sub n now.
Proof.
  unfold entitled.
  destruct (plan sub); [right; intros (H & _); discriminate|].
  destruct (is_active sub); [|right; intros (_ & H & _); discriminate].
  destruct (Z.le_gt_cases (tts_used sub + n) (tts_limit sub)).
  2:{ right; intros (_ & _ & _ & Hq); lia. }
  destruct (end_date sub) as [e|].
  - destruct (Z.le_gt_cases now e).
    + left; repeat split; assumption.
    + right; intros (_ & _ & He & _); lia.
  - left; repeat split; trivial.
Qed.

(** Every denial carries a reason and comes from [decide] alone. *)
Lemma decide_deny_reason f n now r :
  decide f n now = Deny r -> canUse r = false /\ exists why, reason r = Some why.
Proof.
  destruct f as [|[[sub|]|]].
  - simpl; intros H; inversion H; simpl; eauto.
  - destruct (entitled_dec sub n now) as [He|He].
    + rewrite (decide_entitled _ _ _ He). discriminate.
    + destruct (decide_not_entitled _ _ _ He) as (r' & -> & Hc & Hw).
      intros H; inversion H; subst; auto.
  - simpl; intros H; inversion H; simpl; eauto.
  - simpl; intros H; inversion H; simpl; eauto.
Qed.

Lemma decide_grant f n now rid v r :
  decide f n now = Grant rid v r ->
  exists sub, f = Answered (QData (Some sub)) /\ entitled sub n now
              /\ rid = id sub /\ v = tts_used sub + n /\ canUse r = true.
Proof.
  destruct f as [|[[sub|]|]]; try (simpl; discriminate).
  destruct (entitled_dec sub n now) as [He|He].
  - rewrite (decide_entitled _ _ _ He). intros H; inversion H; subst.
    exists sub. split; [reflexivity|]. split; [exact He|]. auto.
  - destruct (decide_not_entitled _ _ _ He) as (r' & -> & _). discriminate.
Qed.

(** After a grant the student's only row carries the incremented counter. *)
Lemma granted_row_updated db sid sub v :
  subscriptions_of db sid = [sub] ->
  subscriptions_of (update_tts_used db (id sub) v) sid = [set_tts_used sub v].
Proof.
  intros H. rewrite subscriptions_of_update, H. simpl.
  now rewrite String.eqb_refl.
Qed.

Lemma check_unfold fault updating db sid n now :
  checkAndTrackUsage fault updating db sid n now
  = match decide (fetch_subscription fault db sid) n now with
    | Deny r => (r, db)
    | Grant rowId v r => track updating db rowId v r
    end.
Proof. reflexivity. Qed.

(** Whether the store applies an update it is sent. *)
Definition applies (updating : Fault) : bool :=
  match updating with
  | Healthy => true
  | _ => false
  end.

(** The store after the update round trip. *)
Lemma track_store updating db rid v r :
  snd (track updating db rid v r)
  = if applies updating then update_tts_used db rid v else db.
Proof. destruct updating; reflexivity. Qed.

(** The answer after the update round trip: the grant, unless the awaited
    update rejected. *)
Lemma track_answer updating db rid v r :
  fst (track updating db rid v r)
  = match updating with Throwing => usage_check_failed | _ => r end.
Proof. destruct updating; reflexivity. Qed.

(** A denial changes nothing in the store. *)
Lemma denied_store_unchanged fault updating db sid n now :
  canUse (fst (checkAndTrackUsage fault updating db sid n now)) = false ->
  snd (checkAndTrackUsage fault updating db sid n now) = db.
Proof.
  rewrite check_unfold.
  destruct (decide (fetch_subscription fault db sid) n now) as [r|rid v r] eqn:D;
    simpl; [reflexivity|].
  apply decide_grant in D. destruct D as (sub & _ & _ & _ & _ & Hc).
  destruct updating; simpl; [rewrite Hc; discriminate|reflexivity|reflexivity].
Qed.

(** What a call does when the student's row was found. *)
Lemma check_on_row fault updating db sid n now sub :
  fetch_subscription fault db sid = Answered (QData (Some sub)) ->
  (entitled sub n now ->
   (updating <> Throwing ->
    canUse (fst (checkAndTrackUsage fault updating db sid n now)) = true
    /\ exists u,
        usageInfo (fst (checkAndTrackUsage fault updating db sid n now))
        = Some u
        /\ ttsUsed u = tts_used sub + n)
   /\ (updating = Throwing ->
       fst (checkAndTrackUsage fault updating db sid n now)
       = usage_check_failed)
   /\ snd (checkAndTrackUsage fault updating db sid n now)
      = if applies updating
        then update_tts_used db (id sub) (tts_used sub + n) else db)
  /\ (~ entitled sub n now ->
      canUse (fst (checkAndTrackUsage fault updating db sid n now)) = false).
Proof.
  intros F. rewrite check_unfold, F. split; intros He.
  - rewrite (decide_entitled _ _ _ He).
    destruct updating; simpl; repeat split; eauto; congruence.
  - destruct (decide_not_entitled _ _ _ He) as (r & -> & Hc & _). exact Hc.
Qed.

(** A call is granted exactly when the row was found, is entitled, and the
    awaited update did not reject. *)
Lemma granted_iff fault updating db sid n now :
  canUse (fst (checkAndTrackUsage fault updating db sid n now)) = true
  <-> exists sub,
        fetch_subscription fault db sid = Answered (QData (Some sub))
        /\ entitled sub n now /\ updating <> Throwing.
Proof.
  split.
  - intros Hc. rewrite check_unfold in Hc.
    destruct (decide (fetch_subscription fault db sid) n now) as [r|rid v r] eqn:D.
    + apply decide_deny_reason in D. simpl in Hc. destruct D as [D _]. congruence.
    + apply decide_grant in D. destruct D as (sub & F & He & _).
      exists sub. split; [exact F|]. split; [exact He|].
      intros ->. simpl in Hc. discriminate.
  - intros (sub & F & He & Hu).
    destruct (check_on_row fault updating db sid n now sub F) as [Hyes _].
    destruct (Hyes He) as (Hg & _). now destruct (Hg Hu).
Qed.

(** Every denial carries a reason. *)
Lemma denied_reason fault updating db sid n now :
  canUse (fst (checkAndTrackUsage fault updating db sid n now)) = false ->
  exists why,
    reason (fst (checkAndTrackUsage fault updating db sid n now)) = Some why.
Proof.
  rewrite check_unfold.
  destruct (decide (fetch_subscription fault db sid) n now) as [r|rid v r] eqn:D.
  - intros _. apply decide_deny_reason in D. exact (proj2 D).
  - apply decide_grant in D. destruct D as (sub & _ & _ & _ & _ & Hg).
    destruct updating; simpl; intros Hc; [congruence|congruence|eauto].
Qed.

(** C2.  What [checkAndTrackUsage] does on every store: it grants exactly
    when the student's subscription is found and is pro, active, not past
    its end date and has room for [characterCount] more characters, and the
    awaited update does not reject; a grant reports the counter raised by
    [characterCount]; a denial carries a reason and leaves the store as it
    was.  The store is another matter, because the code never looks at what
    the update resolved to.  When the store applies the update, the
    student's row is rewritten once with [tts_used] raised by exactly
    [characterCount] and every row with another id is left alone: a pro
    student at 0 of 150000 asking for 5 characters ends at 5.  When the
    store answers the update with an error, the same grant and the same
    raised counter are reported while the stored counter stays where it
    was: the same student is granted, is told 5, and stays at 0. *)
Theorem checkAndTrackUsage_reports_an_update_it_never_checked :
  (forall fault updating db sid n now,
      let r := fst (checkAndTrackUsage fault updating db sid n now) in
      let db' := snd (checkAndTrackUsage fault updating db sid n now) in
      (canUse r = true <->
       exists sub,
         fetch_subscription fault db sid = Answered (QData (Some sub))
         /\ entitled sub n now /\ updating <> Throwing)
      /\ (forall sub,
             fetch_subscription fault db sid = Answered (QData (Some sub)) ->
             canUse r = true ->
             (exists u, usageInfo r = Some u
                        /\ ttsUsed u = tts_used sub + n)
             /\ (updating = Healthy ->
                 subscriptions_of db' sid
                 = [set_tts_used sub (tts_used sub + n)]
                 /\ stored_usage db' sid = [tts_used sub + n]
                 /\ subscriptions db'
                    = map (fun s => if String.eqb (id s) (id sub)
                                    then set_tts_used s (tts_used sub + n)
                                    else s)
                          (subscriptions db))
             /\ (updating = Failing ->
                 db' = db /\ stored_usage db' sid = [tts_used sub]))
      /\ (canUse r = false ->
          db' = db /\ exists why, reason r = Some why))
  /\ (let out :=
        checkAndTrackUsage Healthy Healthy (one_row (pro_row 0 150000))
          "student-1" 5 0 in
      canUse (fst out) = true
      /\ stored_usage (snd out) "student-1" = [5])
  /\ (let out :=
        checkAndTrackUsage Healthy Failing (one_row (pro_row 0 150000))
          "student-1" 5 0 in
      canUse (fst out) = true
      /\ option_map ttsUsed (usageInfo (fst out)) = Some 5
      /\ stored_usage (snd out) "student-1" = [0]).
Proof.
  split; [|split; vm_compute; auto].
  intros fault updating db sid n now r db'. subst r db'.
  split; [apply granted_iff|]. split.
  - intros sub F Hc.
    apply granted_iff in Hc. destruct Hc as (sub' & F' & He & Hu).
    assert (sub' = sub) by congruence. subst sub'.
    destruct (check_on_row fault updating db sid n now sub F) as [Hyes _].
    destruct (Hyes He) as (Hg & _ & Hs).
    split; [exact (proj2 (Hg Hu))|].
    apply fetch_some in F. destruct F as [_ Frows].
    split; intros ->; simpl in Hs; rewrite Hs.
    + unfold stored_usage.
      rewrite (granted_row_updated db sid sub _ Frows).
      split; [reflexivity|]. split; reflexivity.
    + split; [reflexivity|]. unfold stored_usage. now rewrite Frows.
  - intros Hc. split; [now apply denied_store_unchanged|].
    now apply denied_reason.
Qed.

(** The grant at 0 of 150000 whose update the store answers with an error,
    through the general statement: granted, and the stored counter is the
    one before the call. *)
Lemma checkAndTrackUsage_reports_an_update_it_never_checked_witness :
  canUse (fst (checkAndTrackUsage Healthy Failing
                 (one_row (pro_row 0 150000)) "student-1" 5 0)) = true
  /\ stored_usage (snd (checkAndTrackUsage Healthy Failing
                          (one_row (pro_row 0 150000)) "student-1" 5 0))
       "student-1" = [0].
Proof.
  pose proof (proj1 checkAndTrackUsage_reports_an_update_it_never_checked
                Healthy Failing (one_row (pro_row 0 150000))
                "student-1"%string 5 0)
    as (Hiff & Hgrant & _).
  assert (Hc : canUse (fst (checkAndTrackUsage Healthy Failing
                              (one_row (pro_row 0 150000)) "student-1" 5 0))
               = true).
  { apply Hiff. exists (pro_row 0 150000). split; [reflexivity|].
    split; [unfold entitled; simpl; repeat split; lia|discriminate]. }
  split; [exact Hc|].
  exact (proj2 (proj2 (proj2 (Hgrant (pro_row 0 150000) eq_refl Hc))
                  eq_refl)).
Defined.

(** C3. A denied request never touches the store: whatever the reason
    (no row, store failure, basic plan, inactive, expired, not enough
    quota), and whatever the store would have done with an update, the
    database after the call is the database before it.  A pro student at
    149995 of 150000 asking for 10 characters is denied and stays at
    149995. *)
Theorem denied_request_leaves_usage_untouched :
  (forall fault updating db sid n now,
      canUse (fst (checkAndTrackUsage fault updating db sid n now)) = false ->
      snd (checkAndTrackUsage fault updating db sid n now) = db)
  /\ (forall fault updating db sid n now sub,
         fetch_subscription fault db sid = Answered (QData (Some sub)) ->
         plan sub = basic \/ is_active sub = false
         \/ isExpired sub now = true \/ tts_used sub + n > tts_limit sub ->
         canUse (fst (checkAndTrackUsage fault updating db sid n now)) = false
         /\ snd (checkAndTrackUsage fault updating db sid n now) = db)
  /\ (forall updating,
         let db := one_row (pro_row 149995 150000) in
         let out := checkAndTrackUsage Healthy updating db "student-1" 10 0 in
         canUse (fst out) = false
         /\ snd out = db
         /\ stored_usage (snd out) "student-1" = [149995]).
Proof.
  split; [exact denied_store_unchanged|].
  split; [|intros updating; vm_compute; auto].
  intros fault updating db sid n now sub F Hwhy.
  assert (Hn : ~ entitled sub n now).
  { intros (Hp & Ha & He & Hq). unfold isExpired in Hwhy.
    destruct Hwhy as [H|[H|[H|H]]]; try congruence; try lia.
    destruct (end_date sub) as [e|]; [|discriminate].
    apply Z.ltb_lt in H. lia. }
  destruct (check_on_row fault updating db sid n now sub F) as [_ Hd].
  split; [exact (Hd Hn)|]. apply denied_store_unchanged. exact (Hd Hn).
Qed.

(** Scenario B through the general statement. *)
Lemma denied_request_leaves_usage_untouched_witness :
  snd (checkAndTrackUsage Healthy Healthy (one_row (pro_row 149995 150000))
         "student-1" 10 0)
  = one_row (pro_row 149995 150000).
Proof.
  apply (proj1 denied_request_leaves_usage_untouched).
  reflexivity.
Defined.

(** ** Two calls for one student *)



(** What a call adds to the stored counter: its length when it is granted
    and the store applies its update, nothing otherwise. *)
Definition kept (updating : Fault) (g : bool) (n : Z) : Z :=
  if g && applies updating then n else 0.








End LedgerFacts.
(* ===================================================================== *)
(** * Properties of the [text-to-speech] edge function *)
(* ===================================================================== *)

Module TtsFacts.
Import Js Store Ledger Sanitizer TtsFunction LedgerFacts.

(** ** The server-side cache *)

Lemma get_in {V} k (m : JsMap.t V) v :
  JsMap.get k m = Some v -> exists k', In (k', v) m.
Proof.
  induction m as [|[k' v'] m IH]; simpl; [discriminate|].
  destruct (Js.eqb k' k).
  - intros H; inversion H; subst. exists k'. now left.
  - intros H. destruct (IH H) as [k'' Hin]. exists k''. now right.
Qed.

Lemma cleanCache_in now cache k e :
  In (k, e) (cleanCache now cache) <->
  In (k, e) cache /\ now - timestamp e <= CACHE_TTL_MS.
Proof.
  unfold cleanCache. rewrite filter_In. simpl.
  rewrite negb_true_iff, Z.ltb_ge. tauto.
Qed.

(** A lookup that follows the sweep only finds entries within the TTL. *)
Lemma swept_hit_is_fresh now cache k e :
  JsMap.get k (cleanCache now cache) = Some e ->
  now - timestamp e <= CACHE_TTL_MS /\ exists k', In (k', e) cache.
Proof.
  intros H. apply get_in in H. destruct H as [k' Hin].
  apply cleanCache_in in Hin. destruct Hin as [Hin Hfresh]. eauto.
Qed.

Section Runtime.
Variable toLowerCase : jsstring -> jsstring.

Local Abbreviation serve := (serve toLowerCase).
Local Abbreviation synthesize := (synthesize toLowerCase).
Local Abbreviation getCacheKey := (getCacheKey toLowerCase).

(** The second half of the handler never writes to the store. *)
Lemma synthesize_db vendor clock db cache t v l u :
  db_after (synthesize vendor clock db cache t v l u) = db.
Proof.
  unfold TtsFunction.synthesize.
  destruct (JsMap.get _ _); [reflexivity|].
  destruct (vendor _) as [r|]; [|reflexivity].
  destruct (negb (vendor_ok r)).
  - destruct (vstatus r =? 401); [reflexivity|].
    destruct (vstatus r =? 429); [reflexivity|].
    destruct (carries_body (vstatus r)); reflexivity.
  - destruct (audio_data r); reflexivity.
Qed.

(** A cache hit answers with the cached audio and calls nobody. *)
Lemma synthesize_hit vendor clock db cache t v l u e :
  JsMap.get (getCacheKey t v model_name) (cleanCache (at_sweep clock) cache)
  = Some e ->
  synthesize vendor clock db cache t v l u
  = {| response := {| status := 200;
                      body := AudioBody (audio e) true (Js.length t) None u |};
       db_after := db;
       cache_after := cleanCache (at_sweep clock) cache;
       vendor_call := None |}.
Proof.
  intros H. unfold TtsFunction.synthesize. now rewrite H.
Qed.

(** A cached answer can only come from a hit after the sweep. *)
Lemma synthesize_cached vendor clock db cache t v l u a n sz u' :
  body (response (synthesize vendor clock db cache t v l u))
  = AudioBody a true n sz u' ->
  exists e,
    JsMap.get (getCacheKey t v model_name) (cleanCache (at_sweep clock) cache)
    = Some e
    /\ a = audio e
    /\ vendor_call (synthesize vendor clock db cache t v l u) = None.
Proof.
  unfold TtsFunction.synthesize.
  destruct (JsMap.get _ _) as [e|]; simpl.
  - intros H; inversion H; subst. exists e. auto.
  - destruct (vendor _) as [r|]; simpl; [|discriminate].
    destruct (negb (vendor_ok r)).
    + destruct (vstatus r =? 401); simpl; [discriminate|].
      destruct (vstatus r =? 429); simpl; [discriminate|].
      destruct (carries_body (vstatus r)); simpl; discriminate.
    + destruct (audio_data r); simpl; discriminate.
Qed.

(** The vendor failed: it rejected, answered outside 2xx, or answered
    without audio. *)
Definition vendor_failed (reply : VendorReply) : Prop :=
  match reply with
  | Rejected => True
  | Responded r => vendor_ok r = false \/ audio_data r = None
  end.

(** An answer the client takes for a failure: outside 2xx. *)
Definition failure_status (r : Response) : Prop :=
  status r < 200 \/ 299 < status r.

(** On a miss with a failing vendor the answer is an error, the vendor was
    called, and nothing was cached. *)
Lemma synthesize_vendor_failure vendor clock db cache t v l u :
  JsMap.get (getCacheKey t v model_name) (cleanCache (at_sweep clock) cache)
  = None ->
  (forall q, vendor_failed (vendor q)) ->
  let out := synthesize vendor clock db cache t v l u in
  failure_status (response out)
  /\ vendor_call out <> None
  /\ cache_after out = cleanCache (at_sweep clock) cache.
Proof.
  intros Hmiss Hfail. unfold TtsFunction.synthesize. rewrite Hmiss.
  match goal with |- context [vendor ?q] => specialize (Hfail q);
    destruct (vendor q) as [r|] eqn:V end.
  - unfold vendor_ok in *. simpl in Hfail.
    destruct ((200 <=? vstatus r) && (vstatus r <=? 299)) eqn:Ok; simpl.
    + destruct Hfail as [Hf|Hnone]; [unfold vendor_ok in Hf; congruence|].
      rewrite Hnone. simpl.
      unfold failure_status; simpl. repeat split; try lia. discriminate.
    + assert (vstatus r < 200 \/ 299 < vstatus r).
      { apply andb_false_iff in Ok. rewrite !Z.leb_gt in Ok. lia. }
      destruct (Z.eqb_spec (vstatus r) 401); simpl.
      { unfold failure_status; simpl. repeat split; try lia. discriminate. }
      destruct (Z.eqb_spec (vstatus r) 429); simpl.
      { unfold failure_status; simpl. repeat split; try lia. discriminate. }
      destruct (carries_body (vstatus r)); simpl;
        unfold failure_status; simpl; repeat split; try lia; discriminate.
  - simpl. unfold failure_status; simpl. repeat split; try lia. discriminate.
Qed.

(** ** Requests that reach the usage check *)

(** The text the handler speaks and bills for a raw text. *)
Definition spoken (raw : jsstring) : jsstring := truncate (sanitizeText raw).

(** A configured environment and a body that names a student and carries a
    speakable text. *)
Record tracked (env : Env) (b : TtsBody) (raw : jsstring) (sid : string)
  : Prop := {
  tracked_key : truthy_opt (SPEECHIFY_API_KEY env) = true;
  tracked_url : truthy_opt (SUPABASE_URL env) = true;
  tracked_role : truthy_opt (SUPABASE_SERVICE_ROLE_KEY env) = true;
  tracked_text : text b = Some raw;
  tracked_speakable : sanitizeText raw <> [];
  tracked_student : studentId b = Some sid;
  tracked_sid : sid <> ""%string
}.

Definition voice_of (b : TtsBody) : jsstring :=
  match voiceId b with Some v => v | None => str "henry" end.

Definition language_of (b : TtsBody) : jsstring :=
  match language b with Some l => l | None => en_IN end.

Lemma length_zero (s : jsstring) : (Js.length s =? 0) = false <-> s <> [].
Proof.
  unfold Js.length. destruct s; simpl; split; intros H;
    try congruence; try discriminate; reflexivity.
Qed.

(** What the handler does with a tracked request: the usage check first,
    then, if granted, the rest. *)
Lemma serve_tracked env fault updating vendor clock db cache b raw sid :
  tracked env b raw sid ->
  serve env fault updating vendor clock db cache (Post (Some b))
  = let check := checkAndTrackUsage fault updating db sid
                   (Js.length (spoken raw)) (at_usage_check clock) in
    if negb (canUse (fst check)) then
      {| response := {| status := 200;
                        body := FallbackBody (reason (fst check))
                                  (usageInfo (fst check)) |};
         db_after := snd check; cache_after := cache; vendor_call := None |}
    else
      synthesize vendor clock (snd check) cache (spoken raw)
        (voice_of b) (language_of b) (usageInfo (fst check)).
Proof.
  intros [Hk Hu Hr Ht Hs Hst Hsid].
  unfold TtsFunction.serve. rewrite Hk, Ht. simpl.
  destruct raw as [|c raw'].
  { exfalso. apply Hs. reflexivity. }
  apply length_zero in Hs. rewrite Hs.
  rewrite Hst, Hu, Hr.
  assert (Hne : truthy_opt (Some sid) = true).
  { simpl. destruct (String.eqb_spec sid ""); [contradiction|reflexivity]. }
  rewrite Hne. simpl.
  unfold spoken, voice_of, language_of.
  destruct (checkAndTrackUsage fault updating db sid _ _) as [r db']. simpl.
  destruct (canUse r); reflexivity.
Qed.

(** Whatever the handler answers with [cached: true] was found after the
    sweep. *)
Lemma serve_cached env fault updating vendor clock db cache req a n sz u :
  body (response (serve env fault updating vendor clock db cache req))
  = AudioBody a true n sz u ->
  exists k e,
    JsMap.get k (cleanCache (at_sweep clock) cache) = Some e /\ a = audio e.
Proof.
  unfold TtsFunction.serve.
  destruct req as [|[b|]]; simpl; try discriminate.
  2:{ destruct (negb _); simpl; discriminate. }
  destruct (negb (truthy_opt (SPEECHIFY_API_KEY env))); simpl; [discriminate|].
  destruct (text b) as [[|c raw]|]; simpl; try discriminate.
  destruct (Js.length (sanitizeText (c :: raw)) =? 0); simpl; [discriminate|].
  destruct (truthy_opt (studentId b) && truthy_opt (SUPABASE_URL env)
            && truthy_opt (SUPABASE_SERVICE_ROLE_KEY env)).
  - destruct (checkAndTrackUsage _ _ _ _ _ _) as [r db'].
    destruct (negb (canUse r)); simpl; [discriminate|].
    intros H. apply synthesize_cached in H.
    destruct H as (e & Hget & Ha & _). eauto.
  - intros H. apply synthesize_cached in H.
    destruct H as (e & Hget & Ha & _). eauto.
Qed.

(** The store as a granted call leaves it: with the counter raised when
    the store applied the update, as it was otherwise. *)
Definition ledger_store (updating : Fault) (db : Db) (sub : Subscription)
  (n : Z) : Db :=
  if applies updating
  then update_tts_used db (id sub) (tts_used sub + n) else db.

Lemma ledger_store_usage updating db sid sub n :
  fetch_subscription Healthy db sid = Answered (QData (Some sub)) ->
  stored_usage (ledger_store updating db sub n) sid
  = [tts_used sub + if applies updating then n else 0].
Proof.
  intros F. apply fetch_some in F. destruct F as [_ Frows].
  unfold ledger_store, stored_usage.
  destruct (applies updating).
  - now rewrite (granted_row_updated db sid sub _ Frows).
  - now rewrite Frows, Z.add_0_r.
Qed.

(** A tracked request of an entitled student, the awaited update not
    rejecting: the handler goes on to the cache and the vendor with the
    store as the ledger call left it, reporting the raised counter, and the
    store stays so whatever happens there. *)
Lemma tracked_grant env updating vendor clock db cache b raw sid sub :
  tracked env b raw sid ->
  fetch_subscription Healthy db sid = Answered (QData (Some sub)) ->
  entitled sub (Js.length (spoken raw)) (at_usage_check clock) ->
  updating <> Throwing ->
  exists u,
    ttsUsed u = tts_used sub + Js.length (spoken raw)
    /\ serve env Healthy updating vendor clock db cache (Post (Some b))
       = synthesize vendor clock
           (ledger_store updating db sub (Js.length (spoken raw)))
           cache (spoken raw) (voice_of b) (language_of b) (Some u)
    /\ db_after (serve env Healthy updating vendor clock db cache
                   (Post (Some b)))
       = ledger_store updating db sub (Js.length (spoken raw)).
Proof.
  intros Ht F He Hu. rewrite (serve_tracked _ _ _ _ _ _ _ _ _ _ Ht).
  destruct (check_on_row Healthy updating db sid (Js.length (spoken raw))
              (at_usage_check clock) sub F) as [Hyes _].
  destruct (Hyes He) as (Hg & _ & Hs).
  destruct (Hg Hu) as (Hc & u & Hinfo & Hused).
  cbv zeta. rewrite Hc, Hs, Hinfo. cbn [negb].
  exists u. split; [exact Hused|]. split; [reflexivity|].
  now rewrite synthesize_db.
Qed.

(** When the store cannot be read (the select answers with an error, or the
    call throws), a tracked request is sent back to the Web voice: no vendor
    call, nothing written. *)
Lemma store_failure_fails_closed env fault updating vendor clock db cache b
  raw sid :
  tracked env b raw sid ->
  fault <> Healthy ->
  let out := serve env fault updating vendor clock db cache (Post (Some b)) in
  vendor_call out = None
  /\ db_after out = db
  /\ exists why, body (response out) = FallbackBody (Some why) None.
Proof.
  intros Ht Hf. cbv zeta. rewrite (serve_tracked _ _ _ _ _ _ _ _ _ _ Ht).
  rewrite check_unfold.
  destruct fault; [contradiction| |]; simpl; eauto.
Qed.

(** When the awaited update rejects, the request of an entitled student is
    sent back to the Web voice as well. *)
Lemma rejected_update_fails_closed env vendor clock db cache b raw sid sub :
  tracked env b raw sid ->
  fetch_subscription Healthy db sid = Answered (QData (Some sub)) ->
  entitled sub (Js.length (spoken raw)) (at_usage_check clock) ->
  let out :=
    serve env Healthy Throwing vendor clock db cache (Post (Some b)) in
  vendor_call out = None
  /\ db_after out = db
  /\ body (response out)
     = FallbackBody (Some "Usage check failed"%string) None.
Proof.
  intros Ht F He. cbv zeta. rewrite (serve_tracked _ _ _ _ _ _ _ _ _ _ Ht).
  rewrite check_unfold, F, (decide_entitled _ _ _ He). simpl. auto.
Qed.

(** ASCII lower-casing, for the scenarios. *)
Definition ascii_lower (s : jsstring) : jsstring :=
  map (fun u => if (65 <=? u) && (u <=? 90) then u + 32 else u) s.

End Runtime.

Definition configured : Env :=
  {| SPEECHIFY_API_KEY := Some "key"%string;
     SUPABASE_URL := Some "https://project.example"%string;
     SUPABASE_SERVICE_ROLE_KEY := Some "role"%string |}.

Definition hello_from_student : TtsBody :=
  {| text := Some (str "Hello"); voiceId := None; language := None;
     studentId := Some "student-1"%string |}.

Definition hello_key : jsstring := str "simba-multilingual:henry:hello".

Lemma hello_tracked :
  tracked configured hello_from_student (str "Hello") "student-1".
Proof.
  constructor; try reflexivity; [vm_compute|]; discriminate.
Qed.

(** C10.  In the usage-tracking handler the ledger is consulted before
    the cache is looked at, so a request served from the server cache goes
    through the same ledger call as a fresh synthesis.  For a request that
    names a student whose subscription is entitled to the spoken text (the
    awaited update not rejecting), the store ends as that call left it
    whatever the cache and the vendor do, and when the audio is found in
    the server cache the answer is the cached audio, the vendor is not
    called, and the reported usage is raised by the full length of the
    truncated, sanitized text.  The stored [tts_used] is raised by that
    length when the store applied the update; when the store answered the
    update with an error, which the code does not look at, the cached audio
    is served with the raised counter reported and the stored counter where
    it was. *)
Theorem cached_audio_is_billed_if_the_update_took :
  forall toLowerCase env updating vendor clock db cache b raw sid sub,
    tracked env b raw sid ->
    fetch_subscription Healthy db sid = Answered (QData (Some sub)) ->
    entitled sub (Js.length (spoken raw)) (at_usage_check clock) ->
    updating <> Throwing ->
    let out := serve toLowerCase env Healthy updating vendor clock db cache
                 (Post (Some b)) in
    let billed := tts_used sub + Js.length (spoken raw) in
    db_after out
    = snd (checkAndTrackUsage Healthy updating db sid
             (Js.length (spoken raw)) (at_usage_check clock))
    /\ (updating = Healthy -> stored_usage (db_after out) sid = [billed])
    /\ (updating = Failing ->
        db_after out = db
        /\ stored_usage (db_after out) sid = [tts_used sub])
    /\ forall e,
        JsMap.get (getCacheKey toLowerCase (spoken raw) (voice_of b) model_name)
          (cleanCache (at_sweep clock) cache) = Some e ->
        vendor_call out = None
        /\ exists u,
            response out
            = {| status := 200;
                 body := AudioBody (audio e) true (Js.length (spoken raw))
                           None (Some u) |}
            /\ ttsUsed u = billed.
Proof.
  intros lower env updating vendor clock db cache b raw sid sub Ht F He Hu
    out billed.
  destruct (tracked_grant lower env updating vendor clock db cache b raw sid
              sub Ht F He Hu) as (u & Hused & Hout & Hdb).
  destruct (check_on_row Healthy updating db sid (Js.length (spoken raw))
              (at_usage_check clock) sub F) as [Hyes _].
  destruct (Hyes He) as (_ & _ & Hs).
  pose proof (ledger_store_usage updating db sid sub
                (Js.length (spoken raw)) F) as Hstored.
  subst out. rewrite Hdb, Hs.
  split; [reflexivity|].
  split; [intros ->; rewrite Hstored; reflexivity|].
  split.
  { intros ->. split; [reflexivity|].
    rewrite Hstored. cbn [applies]. now rewrite Z.add_0_r. }
  intros e Hhit. rewrite Hout.
  rewrite (synthesize_hit lower _ _ _ _ _ _ _ _ e Hhit).
  split; [reflexivity|]. exists u. split; [reflexivity|exact Hused].
Qed.

(** "Hello" asked again by a pro student at 0 of 150000 while its audio is
    in the cache and the store answers the update with an error: the cached
    audio is served, the vendor is not called, and the stored counter is
    still 0. *)
Lemma cached_audio_is_billed_if_the_update_took_witness :
  let out :=
    serve ascii_lower configured Healthy Failing (fun _ => Rejected)
      {| at_usage_check := 2000; at_sweep := 2000; at_store := 2000 |}
      (one_row (pro_row 0 150000))
      [(hello_key, {| audio := "QUJD"; timestamp := 1000 |})]
      (Post (Some hello_from_student)) in
  stored_usage (db_after out) "student-1" = [0]
  /\ vendor_call out = None.
Proof.
  cbv zeta.
  pose proof (cached_audio_is_billed_if_the_update_took ascii_lower configured
                Failing (fun _ => Rejected)
                {| at_usage_check := 2000; at_sweep := 2000; at_store := 2000 |}
                (one_row (pro_row 0 150000))
                [(hello_key, {| audio := "QUJD"; timestamp := 1000 |})]
                hello_from_student (str "Hello") "student-1"%string
                (pro_row 0 150000) hello_tracked eq_refl) as H.
  cbv zeta in H.
  assert (He : entitled (pro_row 0 150000) (Js.length (spoken (str "Hello"))) 2000).
  { unfold entitled; simpl. repeat split; vm_compute; congruence. }
  assert (Hu : Failing <> Throwing) by discriminate.
  destruct (H He Hu) as (_ & _ & Hkept & Hhit).
  split; [exact (proj2 (Hkept eq_refl))|].
  exact (proj1 (Hhit {| audio := "QUJD"; timestamp := 1000 |} eq_refl)).
Defined.

End TtsFacts.
(* ===================================================================== *)
(** * Properties of the client hook *)
(* ===================================================================== *)

Module SmartTTSFacts.
Import Js Store SmartTTS.

(** A text that [speak] does not skip: not empty, nor white space only. *)
Definition speakable (t : jsstring) : Prop :=
  t <> [] /\ Sanitizer.trim t <> [].

Lemma speakable_guard t :
  speakable t ->
  negb (truthy t) || (Js.length (Sanitizer.trim t) =? 0) = false.
Proof.
  intros [Hne Htrim]. destruct t as [|c t']; [contradiction|]. simpl.
  unfold Js.length. destruct (Sanitizer.trim (c :: t')); [contradiction|].
  reflexivity.
Qed.

Definition initial_state (u : option TTSUsageInfo) : SmartTTSState :=
  {| isSpeaking := false; isLoading := false; error := None;
     currentVoiceId := str "henry"; usageInfo := u |}.

Definition basic_info : TTSUsageInfo :=
  {| plan := basic; ttsUsed := 0; ttsLimit := 150000;
     ttsRemaining := 150000; canUsePremium := false; usingPremium := false |}.

Definition pro_info (used : Z) : TTSUsageInfo :=
  {| plan := pro; ttsUsed := used; ttsLimit := 150000;
     ttsRemaining := 150000 - used; canUsePremium := true;
     usingPremium := true |}.

(** When the route is not premium, only the browser voice is invoked. *)
Lemma speak_web_only sid st cache options w :
  usePremium (route sid (usageInfo st) (Js.length (text options))) = false ->
  invoked (speak sid st cache options w) = []
  \/ invoked (speak sid st cache options w) = [Web].
Proof.
  intros Hr. unfold speak.
  destruct (negb (truthy (text options)) || _); [now left|].
  cbv zeta. rewrite Hr. right.
  destruct (speakWeb _ _); reflexivity.
Qed.

Lemma speak_web_speakable sid st cache options w :
  speakable (text options) ->
  usePremium (route sid (usageInfo st) (Js.length (text options))) = false ->
  invoked (speak sid st cache options w) = [Web]
  /\ edge_function_called (speak sid st cache options w) = false.
Proof.
  intros Hs Hr. unfold speak. rewrite (speakable_guard _ Hs).
  cbv zeta. rewrite Hr. destruct (speakWeb _ _); split; reflexivity.
Qed.

Lemma route_basic sid u n :
  plan u = basic -> usePremium (route sid (Some u) n) = false.
Proof.
  intros Hp. unfold route. destruct (negb (truthy_opt sid)); [reflexivity|].
  now rewrite Hp.
Qed.

(** C5.  For a student whose resolved plan is basic the routing decision is
    never premium, whatever the text: [speak] does not invoke the Premium
    backend and does not call the edge function, and every text it does not
    skip as blank goes to the Web backend. *)
Theorem basic_plan_never_invokes_premium :
  forall sid st cache options w u,
    usageInfo st = Some u ->
    plan u = basic ->
    let out := speak sid st cache options w in
    usePremium (route sid (usageInfo st) (Js.length (text options))) = false
    /\ ~ In Premium (invoked out)
    /\ edge_function_called out = false
    /\ (speakable (text options) -> invoked out = [Web]).
Proof.
  intros sid st cache options w u Hu Hp out.
  assert (Hr : usePremium (route sid (usageInfo st) (Js.length (text options)))
               = false).
  { rewrite Hu. now apply route_basic. }
  split; [exact Hr|]. subst out. split; [|split].
  - destruct (speak_web_only sid st cache options w Hr) as [-> | ->]; simpl.
    + tauto.
    + intros [H|[]]; discriminate.
  - unfold speak. destruct (negb (truthy (text options)) || _); [reflexivity|].
    cbv zeta. rewrite Hr. destruct (speakWeb _ _); reflexivity.
  - intros Hs. now apply speak_web_speakable.
Qed.

(** Scenario A: a student on the basic plan asks for "Hello world". *)
Lemma basic_plan_never_invokes_premium_witness :
  invoked (speak (Some "student-1"%string) (initial_state (Some basic_info)) []
             {| text := str "Hello world"; voiceId := None |}
             {| reply := ReplyError "unused"; playback := Ended;
                web_resolves := true |})
  = [Web].
Proof.
  apply (basic_plan_never_invokes_premium
           (Some "student-1"%string) (initial_state (Some basic_info)) []
           {| text := str "Hello world"; voiceId := None |}
           {| reply := ReplyError "unused"; playback := Ended;
              web_resolves := true |}
           basic_info eq_refl eq_refl).
  split; vm_compute; discriminate.
Defined.

(** ** [fetchUsageInfo] *)

(** A failure reported as [{ error }], or as an [error] field of the data,
    resets the plan status to the safe default. *)
Lemma fetch_error_gives_safe_default sid st err data now :
  truthy_opt sid = true ->
  err = true \/ (exists d, data = Some d /\ data_error d = true) ->
  usageInfo (fetchUsageInfo sid st (Invoked err data) now) = Some safe_default.
Proof.
  intros Hs Herr. unfold fetchUsageInfo. rewrite Hs. simpl.
  destruct Herr as [-> | (d & -> & ->)]; [reflexivity|].
  now rewrite orb_true_r.
Qed.

(** With the safe default for a plan status, no text is routed to the
    Premium backend. *)
Lemma safe_default_routes_web sid n :
  usePremium (route sid (Some safe_default) n) = false.
Proof. now apply route_basic. Qed.

End SmartTTSFacts.
(* ===================================================================== *)
(** * The two caches, and a premium request from end to end *)
(* ===================================================================== *)

Module RouterFacts.
Import Js Store Ledger TtsFunction LedgerFacts TtsFacts SmartTTSFacts.

(** ** C7: the TTL of the server cache, and the client cache without one *)

(** A call of [speakPremium] made when the clock reads [now].  The hook
    never reads the clock, so [now] does not enter the result. *)
Definition speakPremium_at (now : Z) := SmartTTS.speakPremium.

Definition hello_options : SmartTTS.SmartTTSOptions :=
  {| SmartTTS.text := str "Hello"; SmartTTS.voiceId := None |}.

Definition audio_reply (a : string) : SmartTTS.FunctionReply :=
  SmartTTS.ReplyData
    (Some {| SmartTTS.d_error := None; SmartTTS.d_audio := Some a;
             SmartTTS.d_usageInfo := None |}).

(** C7, counterexample: the client cache.  Audio fetched at time 0 is served
    from [clientAudioCache] one millisecond after the 30 minutes have
    passed: the edge function is not called again. *)
Lemma client_cache_serves_expired_audio :
  let st := initial_state (Some (pro_info 0)) in
  let first :=
    speakPremium_at 0 st [] hello_options (audio_reply "QUJD") SmartTTS.Ended in
  let second :=
    speakPremium_at (0 + CACHE_TTL_MS + 1)
      (SmartTTS.premium_state first) (SmartTTS.premium_cache first)
      hello_options (SmartTTS.ReplyError "not called") SmartTTS.Ended in
  SmartTTS.function_called first = true
  /\ SmartTTS.premium_cache first
     = [(str "henry:Hello", "data:audio/mp3;base64,QUJD"%string)]
  /\ CACHE_TTL_MS < (0 + CACHE_TTL_MS + 1) - 0
  /\ SmartTTS.from_cache second = true
  /\ SmartTTS.function_called second = false
  /\ SmartTTS.played second = true.
Proof. vm_compute. repeat split. Qed.

(** C7, amended: the server cache.  A lookup made after [cleanCache] only
    finds entries whose age is within [CACHE_TTL_MS]; no entry older than
    that survives the sweep; and whenever the handler answers with cached
    audio, that audio is an entry of the cache whose age at the sweep was
    within the TTL. *)
Theorem server_cache_hit_is_fresh :
  (forall now cache k e,
      JsMap.get k (cleanCache now cache) = Some e ->
      now - timestamp e <= CACHE_TTL_MS)
  /\ (forall now cache k e,
         In (k, e) cache -> CACHE_TTL_MS < now - timestamp e ->
         ~ In (k, e) (cleanCache now cache))
  /\ (forall toLowerCase env fault updating vendor clock db cache req a n sz u,
         body (response (serve toLowerCase env fault updating vendor clock db
                           cache req))
         = AudioBody a true n sz u ->
         exists k e,
           In (k, e) cache /\ audio e = a
           /\ at_sweep clock - timestamp e <= CACHE_TTL_MS).
Proof.
  split; [|split].
  - intros now cache k e H. exact (proj1 (swept_hit_is_fresh _ _ _ _ H)).
  - intros now cache k e _ Hold Hin. apply cleanCache_in in Hin. lia.
  - intros lower env fault updating vendor clock db cache req a n sz u H.
    apply serve_cached in H. destruct H as (k & e & Hget & ->).
    destruct (swept_hit_is_fresh _ _ _ _ Hget) as [Hfresh [k' Hin]].
    exists k', e. auto.
Qed.

(** An entry found exactly 30 minutes after it was stored is within the
    TTL. *)
Lemma server_cache_hit_is_fresh_witness :
  1800000 - timestamp {| audio := "QUJD"; timestamp := 0 |} <= CACHE_TTL_MS.
Proof.
  apply (proj1 server_cache_hit_is_fresh 1800000
           [(hello_key, {| audio := "QUJD"; timestamp := 0 |})] hello_key).
  reflexivity.
Defined.

(** ** C1: a premium request whose vendor call fails *)

Definition unauthorized : VendorReply :=
  Responded {| vstatus := 401; vtext := "unauthorized"; audio_data := None |}.

(** C1, counterexample.  A pro student at 0 of 150000 asks for
    "Hello"; the store answers as it should and the vendor answers 401.  The
    handler answers 401 too, and the stored counter has gone from 0 to 5. *)
Lemma vendor_failure_is_billed :
  let db := one_row (pro_row 0 150000) in
  let out :=
    serve ascii_lower configured Healthy Healthy (fun _ => unauthorized)
      {| at_usage_check := 0; at_sweep := 0; at_store := 0 |}
      db [] (Post (Some hello_from_student)) in
  stored_usage db "student-1" = [0]
  /\ vendor_call out
     = Some {| input := str "Hello"; voice_id := str "henry";
               audio_format := "mp3"; vmodel := model_name;
               vlanguage := en_IN |}
  /\ status (response out) = 401
  /\ stored_usage (db_after out) "student-1" = [5].
Proof. vm_compute. repeat split. Qed.

Lemma failure_seen_as_error r :
  failure_status r -> exists m, SmartTTS.reply_of_response r = SmartTTS.ReplyError m.
Proof.
  unfold failure_status, SmartTTS.reply_of_response. intros H.
  destruct ((200 <=? status r) && (status r <=? 299)) eqn:E; [|eauto].
  apply andb_true_iff in E. rewrite !Z.leb_le in E. lia.
Qed.

(** With nothing cached and an error for an answer, [speakPremium] has
    called the edge function, plays nothing and changes no state. *)
Lemma speakPremium_error st cache options m p :
  JsMap.get (SmartTTS.client_key st options) cache = None ->
  SmartTTS.speakPremium st cache options (SmartTTS.ReplyError m) p
  = {| SmartTTS.played := false; SmartTTS.premium_state := st;
       SmartTTS.premium_cache := cache; SmartTTS.from_cache := false;
       SmartTTS.function_called := true |}.
Proof.
  intros Hmiss. unfold SmartTTS.speakPremium. cbv zeta.
  rewrite Hmiss. cbv beta iota. rewrite ?Hmiss. reflexivity.
Qed.

Lemma route_premium sid u n :
  SmartTTS.usePremium (SmartTTS.route sid u n) = true ->
  SmartTTS.limitReached (SmartTTS.route sid u n) = false.
Proof.
  unfold SmartTTS.route.
  destruct (negb (SmartTTS.truthy_opt sid)); simpl; [discriminate|].
  destruct u as [u|]; simpl; [|discriminate].
  destruct (SmartTTS.plan u); simpl; [discriminate|].
  destruct (SmartTTS.canUsePremium u && (n <=? SmartTTS.ttsRemaining u));
    simpl; [reflexivity|discriminate].
Qed.

(** [speak] on the premium route, nothing cached, the edge function
    answering with an error: the Web backend is tried next, and when it
    resolves no error is left in the state. *)
Lemma speak_premium_failure sid st cache options w m :
  speakable (SmartTTS.text options) ->
  SmartTTS.usePremium
    (SmartTTS.route sid (SmartTTS.usageInfo st)
       (Js.length (SmartTTS.text options))) = true ->
  JsMap.get (SmartTTS.client_key st options) cache = None ->
  SmartTTS.reply w = SmartTTS.ReplyError m ->
  let result := SmartTTS.speak sid st cache options w in
  SmartTTS.invoked result = [SmartTTS.Premium; SmartTTS.Web]
  /\ SmartTTS.edge_function_called result = true
  /\ (SmartTTS.web_resolves w = true ->
      SmartTTS.error (SmartTTS.state_after result) = None
      /\ SmartTTS.isSpeaking (SmartTTS.state_after result) = true).
Proof.
  intros Hs Hr Hmiss Hreply. unfold SmartTTS.speak.
  rewrite (speakable_guard _ Hs). cbv zeta.
  rewrite Hr, (route_premium _ _ _ Hr), Hreply.
  rewrite speakPremium_error by exact Hmiss.
  cbn [SmartTTS.played SmartTTS.premium_state SmartTTS.premium_cache
       SmartTTS.function_called].
  unfold SmartTTS.speakWeb.
  destruct (SmartTTS.web_resolves w); simpl.
  - split; [reflexivity|]. split; [reflexivity|]. intros _. split; reflexivity.
  - split; [reflexivity|]. split; [reflexivity|]. discriminate.
Qed.

(** C1, amended.  The usage is committed before the vendor is called and is
    not taken back.  When a tracked request of an entitled student (the
    awaited update not rejecting) misses the server cache and the vendor
    call fails (it rejects, answers outside 2xx, or answers without audio),
    the vendor has been called, the store stands as the ledger call left
    it, with the stored [tts_used] raised by the length of the spoken text
    when the store applied the update, and the handler answers outside 2xx.
    On that answer the client's [speak], on the premium route with nothing
    cached, goes on to the Web backend, and leaves no error in its state
    when the Web voice resolves. *)
Theorem vendor_failure_keeps_usage_and_falls_back :
  forall toLowerCase env updating vendor clock db cache b raw sid sub,
    tracked env b raw sid ->
    fetch_subscription Healthy db sid = Answered (QData (Some sub)) ->
    entitled sub (Js.length (spoken raw)) (at_usage_check clock) ->
    updating <> Throwing ->
    JsMap.get (getCacheKey toLowerCase (spoken raw) (voice_of b) model_name)
      (cleanCache (at_sweep clock) cache) = None ->
    (forall q, vendor_failed (vendor q)) ->
    let out := serve toLowerCase env Healthy updating vendor clock db cache
                 (Post (Some b)) in
    (exists q, vendor_call out = Some q)
    /\ db_after out
       = snd (checkAndTrackUsage Healthy updating db sid
                (Js.length (spoken raw)) (at_usage_check clock))
    /\ (updating = Healthy ->
        stored_usage (db_after out) sid
        = [tts_used sub + Js.length (spoken raw)])
    /\ failure_status (response out)
    /\ forall csid st ccache options w,
        SmartTTS.reply w = SmartTTS.reply_of_response (response out) ->
        speakable (SmartTTS.text options) ->
        SmartTTS.usePremium
          (SmartTTS.route csid (SmartTTS.usageInfo st)
             (Js.length (SmartTTS.text options))) = true ->
        JsMap.get (SmartTTS.client_key st options) ccache = None ->
        let result := SmartTTS.speak csid st ccache options w in
        SmartTTS.invoked result = [SmartTTS.Premium; SmartTTS.Web]
        /\ (SmartTTS.web_resolves w = true ->
            SmartTTS.error (SmartTTS.state_after result) = None).
Proof.
  intros lower env updating vendor clock db cache b raw sid sub Ht F He Hu
    Hmiss Hfail out.
  destruct (tracked_grant lower env updating vendor clock db cache b raw sid
              sub Ht F He Hu) as (u & _ & Hout & Hdb).
  fold out in Hout, Hdb.
  destruct (synthesize_vendor_failure lower vendor clock
              (ledger_store updating db sub (Js.length (spoken raw)))
              cache (spoken raw) (voice_of b) (language_of b) (Some u)
              Hmiss Hfail) as (Hstatus & Hcalled & _).
  rewrite <- Hout in Hstatus, Hcalled.
  destruct (check_on_row Healthy updating db sid (Js.length (spoken raw))
              (at_usage_check clock) sub F) as [Hyes _].
  destruct (Hyes He) as (_ & _ & Hs).
  split.
  { destruct (vendor_call out) as [q|]; [eauto|contradiction]. }
  split; [rewrite Hdb, Hs; reflexivity|].
  split.
  { intros ->. rewrite Hdb.
    rewrite (ledger_store_usage Healthy db sid sub _ F). reflexivity. }
  split; [exact Hstatus|].
  intros csid st ccache options w Hreply Hs' Hr Hcmiss result.
  destruct (failure_seen_as_error _ Hstatus) as [m Hm].
  rewrite Hm in Hreply.
  destruct (speak_premium_failure csid st ccache options w m Hs' Hr Hcmiss
              Hreply) as (Hinv & _ & Hweb).
  split; [exact Hinv|]. intros Hw. exact (proj1 (Hweb Hw)).
Qed.

(** Scenario D on the amended statement: the vendor answers 401 to "Hello"
    from a pro student at 0 of 150000; 5 characters stay billed. *)
Lemma vendor_failure_keeps_usage_and_falls_back_witness :
  stored_usage
    (db_after
       (serve ascii_lower configured Healthy Healthy (fun _ => unauthorized)
          {| at_usage_check := 0; at_sweep := 0; at_store := 0 |}
          (one_row (pro_row 0 150000)) [] (Post (Some hello_from_student))))
    "student-1"
  = [0 + 5].
Proof.
  assert (He : entitled (pro_row 0 150000) (Js.length (spoken (str "Hello"))) 0).
  { unfold entitled; simpl. repeat split; vm_compute; congruence. }
  assert (Hf : forall q : VendorRequest, vendor_failed ((fun _ => unauthorized) q)).
  { intros q. simpl. left. reflexivity. }
  assert (Hu : Healthy <> Throwing) by discriminate.
  exact (proj1 (proj2 (proj2
           (vendor_failure_keeps_usage_and_falls_back ascii_lower configured
              Healthy (fun _ => unauthorized)
              {| at_usage_check := 0; at_sweep := 0; at_store := 0 |}
              (one_row (pro_row 0 150000)) [] hello_from_student (str "Hello")
              "student-1"%string (pro_row 0 150000)
              hello_tracked eq_refl He Hu eq_refl Hf))) eq_refl).
Defined.

(** ** C6: failures of the store *)

(** A vendor that answers every request with the audio [a]. *)
Definition speaking (a : string) : VendorReply :=
  Responded {| vstatus := 200; vtext := ""; audio_data := Some a |}.

(** C6.  Where a failure of the store fails closed, and where it does not.
    The plan resolver answers every failure of its fetch, reported as
    [{ error }] or as an [error] field of the data, with the safe default,
    under which no text is routed to the Premium backend.  The ledger sends
    a tracked request back to the Web voice, calling no vendor and writing
    nothing, when its select is answered with an error or rejects, and when
    its awaited update rejects.  But it never looks at what the update
    resolved to: when the store answers the update with an error, the
    request of an entitled student is handled as a granted one on a store
    that has not changed.  A pro student at 0 of 150000 asks for "Hello",
    the store refuses the update and the vendor speaks: the handler answers
    200 with the vendor's audio and a reported usage of 5, and the stored
    counter is still 0. *)
Theorem refused_update_gives_premium_without_accounting :
  (forall sid st err data now,
      SmartTTS.truthy_opt sid = true ->
      err = true
      \/ (exists d, data = Some d /\ SmartTTS.data_error d = true) ->
      let u :=
        SmartTTS.usageInfo
          (SmartTTS.fetchUsageInfo sid st (SmartTTS.Invoked err data) now) in
      u = Some SmartTTS.safe_default
      /\ forall n, SmartTTS.usePremium (SmartTTS.route sid u n) = false)
  /\ (forall toLowerCase env fault updating vendor clock db cache b raw sid,
         tracked env b raw sid ->
         fault <> Healthy ->
         let out := serve toLowerCase env fault updating vendor clock db cache
                      (Post (Some b)) in
         vendor_call out = None
         /\ db_after out = db
         /\ exists why, body (response out) = FallbackBody (Some why) None)
  /\ (forall toLowerCase env vendor clock db cache b raw sid sub,
         tracked env b raw sid ->
         fetch_subscription Healthy db sid = Answered (QData (Some sub)) ->
         entitled sub (Js.length (spoken raw)) (at_usage_check clock) ->
         let out := serve toLowerCase env Healthy Throwing vendor clock db
                      cache (Post (Some b)) in
         vendor_call out = None
         /\ db_after out = db
         /\ body (response out)
            = FallbackBody (Some "Usage check failed"%string) None)
  /\ (forall toLowerCase env vendor clock db cache b raw sid sub,
         tracked env b raw sid ->
         fetch_subscription Healthy db sid = Answered (QData (Some sub)) ->
         entitled sub (Js.length (spoken raw)) (at_usage_check clock) ->
         let out := serve toLowerCase env Healthy Failing vendor clock db
                      cache (Post (Some b)) in
         db_after out = db
         /\ stored_usage (db_after out) sid = [tts_used sub]
         /\ exists u,
             ttsUsed u = tts_used sub + Js.length (spoken raw)
             /\ out = synthesize toLowerCase vendor clock db cache
                        (spoken raw) (voice_of b) (language_of b) (Some u))
  /\ (let out :=
        serve ascii_lower configured Healthy Failing (fun _ => speaking "QUJD")
          {| at_usage_check := 0; at_sweep := 0; at_store := 0 |}
          (one_row (pro_row 0 150000)) [] (Post (Some hello_from_student)) in
      exists u,
        response out
        = {| status := 200;
             body := AudioBody "QUJD" false 5 (Some 3) (Some u) |}
        /\ ttsUsed u = 5
        /\ vendor_call out
           = Some {| input := str "Hello"; voice_id := str "henry";
                     audio_format := "mp3"; vmodel := model_name;
                     vlanguage := en_IN |}
        /\ stored_usage (db_after out) "student-1" = [0]).
Proof.
  split; [|split; [|split; [|split]]].
  - intros sid st err data now Hs Herr u. subst u.
    rewrite (fetch_error_gives_safe_default sid st err data now Hs Herr).
    split; [reflexivity|]. intros n. apply safe_default_routes_web.
  - intros lower env fault updating vendor clock db cache b raw sid Ht Hf.
    now apply store_failure_fails_closed with (raw := raw) (sid := sid).
  - intros lower env vendor clock db cache b raw sid sub Ht F He.
    now apply rejected_update_fails_closed
      with (raw := raw) (sid := sid) (sub := sub).
  - intros lower env vendor clock db cache b raw sid sub Ht F He out.
    assert (Hu : Failing <> Throwing) by discriminate.
    destruct (tracked_grant lower env Failing vendor clock db cache b raw sid
                sub Ht F He Hu) as (u & Hused & Hout & Hdb).
    fold out in Hout, Hdb. unfold ledger_store in Hout, Hdb.
    cbn [applies] in Hout, Hdb.
    split; [exact Hdb|]. split.
    + rewrite Hdb. apply fetch_some in F. destruct F as [_ Frows].
      unfold stored_usage. now rewrite Frows.
    + exists u. split; [exact Hused|exact Hout].
  - vm_compute. eexists. repeat split.
Qed.

(** The failing input through the general statement: the stored counter of
    the pro student is still 0 after the request was handled as a granted
    one. *)
Lemma refused_update_gives_premium_without_accounting_witness :
  let out :=
    serve ascii_lower configured Healthy Failing (fun _ => speaking "QUJD")
      {| at_usage_check := 0; at_sweep := 0; at_store := 0 |}
      (one_row (pro_row 0 150000)) [] (Post (Some hello_from_student)) in
  db_after out = one_row (pro_row 0 150000)
  /\ stored_usage (db_after out) "student-1" = [0].
Proof.
  cbv zeta.
  assert (He : entitled (pro_row 0 150000) (Js.length (spoken (str "Hello"))) 0).
  { unfold entitled; simpl. repeat split; vm_compute; congruence. }
  pose proof (proj1 (proj2 (proj2 (proj2
                refused_update_gives_premium_without_accounting)))
                ascii_lower configured (fun _ => speaking "QUJD")
                {| at_usage_check := 0; at_sweep := 0; at_store := 0 |}
                (one_row (pro_row 0 150000)) [] hello_from_student
                (str "Hello") "student-1"%string (pro_row 0 150000)
                hello_tracked eq_refl He) as H.
  cbv zeta in H. destruct H as (Hdb & Hstored & _).
  split; [exact Hdb|exact Hstored].
Defined.

End RouterFacts.
(* ===================================================================== *)
(** * Properties of [approve_request] *)
(* ===================================================================== *)

Module ApprovalFacts.
Import Store ManageSubscription.

Lemma month_in_range t : 0 <= JsDate.MonthFromTime t < 12.
Proof.
  unfold JsDate.MonthFromTime.
  repeat match goal with
         | |- context [if ?c then _ else _] => destruct c
         end; lia.
Qed.

Lemma month_offset_of_month m leap :
  0 <= m < 12 ->
  JsDate.month_offset (m mod 12) leap = JsDate.month_offset m leap
  /\ m / 12 = 0.
Proof.
  intros H. rewrite Z.mod_small by lia. rewrite Z.div_small by lia. auto.
Qed.

(** [d.setDate(d.getDate() + k)] moves the time value by [k] whole days. *)
Lemma setDate_getDate_plus t k :
  JsDate.setDate t (JsDate.getDate t + k) = t + k * JsDate.msPerDay.
Proof.
  unfold JsDate.setDate, JsDate.getDate, JsDate.DateFromTime, JsDate.MakeDay,
    JsDate.MakeDate.
  destruct (month_offset_of_month (JsDate.MonthFromTime t)
              (if JsDate.DaysInYear (JsDate.YearFromTime t) =? 366 then 1 else 0)
              (month_in_range t)) as [Hoff Hdiv].
  rewrite Hdiv, Z.add_0_r, Hoff.
  unfold JsDate.InLeapYear, JsDate.DayWithinYear, JsDate.Day,
    JsDate.TimeWithinDay, JsDate.msPerDay.
  pose proof (Z.div_mod t 86400000 ltac:(lia)) as Hdm.
  set (off := JsDate.month_offset _ _).
  set (y0 := JsDate.DayFromYear _).
  lia.
Qed.

Definition thirty_days : Z := 30 * JsDate.msPerDay.

(** The rows of an approval scenario: a school with a live session, one of
    its students on the basic plan with some usage, and that student's
    pending request. *)
Definition school_db : Db :=
  {| subscriptions :=
       [ {| id := "sub-1"; student_id := "student-1"; plan := basic;
            start_date := 0; end_date := None; tts_used := 1200;
            tts_limit := 150000; is_active := true |} ];
     upgrade_requests :=
       [ {| req_id := "req-1"; req_student_id := "student-1";
            Store.status := pending; processed_at := None;
            processed_by := None; rejection_reason := None |} ];
     students := [ {| stu_id := "student-1"; school_id := "school-1" |} ];
     session_tokens :=
       [ {| token := "tok"; user_id := "school-1"; user_type := "school";
            expires_at := 2000000000000; is_revoked := false |} ] |}.

Definition approve_body : SubscriptionRequest :=
  {| sessionToken := Some "tok"%string; schoolUuid := Some "school-1"%string;
     requestId := Some "req-1"%string |}.

(** 2026-11-03T05:00:00Z and the three readings after it. *)
Definition approval_clock : Clock :=
  {| at_validation := 1793682000000; at_processed := 1793682000005;
     at_end_date := 1793682000007; at_start_date := 1793682000009 |}.

(** The same school when the student has no subscription row: the rows are
    made by a trigger on the insertion of a student, so a student who was
    there before the trigger has none. *)
Definition school_db_without_row : Db :=
  {| subscriptions := [];
     upgrade_requests := upgrade_requests school_db;
     students := students school_db;
     session_tokens := session_tokens school_db |}.

(** What a successful answer of [approve_request] tells about the rows it
    started from. *)
Lemma approve_request_success clock onRequest onSubscription db body :
  success (fst (approve_request clock onRequest onSubscription db body))
  = true ->
  exists rid school request,
    requestId body = Some rid
    /\ schoolUuid body = Some school
    /\ filter (fun r => String.eqb (req_id r) rid) (upgrade_requests db)
       = [request]
    /\ Store.status request = pending
    /\ snd (approve_request clock onRequest onSubscription db body)
       = let db1 :=
           match onRequest with
           | Applied =>
               with_upgrade_requests db
                 (map (fun r => if String.eqb (req_id r) rid
                                then approve r (at_processed clock) school
                                else r)
                      (upgrade_requests db))
           | Refused => db
           end in
         match onSubscription with
         | Applied =>
             with_subscriptions db1
               (map (fun s =>
                       if String.eqb (student_id s) (req_student_id request)
                       then activate_pro s (at_start_date clock)
                              (at_end_date clock + thirty_days)
                       else s)
                    (subscriptions db1))
         | Refused => db1
         end.
Proof.
  unfold approve_request.
  destruct (sessionToken body) as [tok|]; [|simpl; discriminate].
  destruct (schoolUuid body) as [school|]; [|simpl; discriminate].
  destruct (requestId body) as [rid|]; [|simpl; discriminate].
  destruct (negb _ || negb _ || negb _); [simpl; discriminate|].
  destruct (negb (valid _)); [simpl; discriminate|].
  destruct (maybeSingle (filter _ (upgrade_requests db))) as [[request|]|] eqn:Q;
    cbn [data_of]; try (simpl; discriminate).
  destruct (negb (status_eqb (Store.status request) pending)) eqn:P;
    [simpl; discriminate|].
  destruct (negb match data_of (maybeSingle (filter _ (students db))) with
                 | Some s => String.eqb (school_id s) school
                 | None => false
                 end); [simpl; discriminate|].
  cbn [fst snd]. intros _.
  exists rid, school, request.
  split; [reflexivity|]. split; [reflexivity|]. split.
  { destruct (filter _ (upgrade_requests db)) as [|r0 [|r1 l]];
      simpl in Q; inversion Q; reflexivity. }
  split.
  { destruct (Store.status request); simpl in P; try discriminate P;
      reflexivity. }
  rewrite setDate_getDate_plus. fold thirty_days. reflexivity.
Qed.

(** An update that matches no row changes none. *)
Lemma map_unmatched {A} (hit : A -> bool) (f : A -> A) (rows : list A) :
  filter hit rows = [] ->
  map (fun r => if hit r then f r else r) rows = rows.
Proof.
  induction rows as [|r rows IH]; simpl; [reflexivity|].
  destruct (hit r); [discriminate|]. intros H. now rewrite IH.
Qed.

(** C8.  What an approval does, and what its answer of success does not
    tell.  When [approve_request] answers success, the request it names was
    pending.  If the store applies the update of the subscriptions, every
    row of the request's student is rewritten to plan pro, [tts_used] 0,
    active, with [end_date] exactly 30 days (30 times 86400000 ms) after
    the instant the handler read the clock for it, and every other row is
    left as it was; if the store applies the update of the request, the
    request is approved.  But the code looks at the result of neither
    update and answers success all the same, so that success is also
    answered when the store refuses the update, and when the student has no
    subscription row for it to match: then no row of the student is pro.
    A student on the basic plan at 1200 characters whose update the store
    refuses stays on the basic plan at 1200 characters; a student without a
    row has none afterwards; both approvals answer 200, "Pro plan activated
    for 30 days". *)
Theorem approval_answers_success_whatever_the_updates_did :
  (forall clock onRequest onSubscription db body,
      let out := approve_request clock onRequest onSubscription db body in
      success (fst out) = true ->
      exists request,
        In request (upgrade_requests db)
        /\ Store.status request = pending
        /\ requestId body = Some (req_id request)
        /\ (onSubscription = Applied ->
            subscriptions (snd out)
            = map (fun s =>
                     if String.eqb (student_id s) (req_student_id request)
                     then activate_pro s (at_start_date clock)
                            (at_end_date clock + thirty_days)
                     else s)
                  (subscriptions db)
            /\ forall s,
                In s (subscriptions (snd out)) ->
                student_id s = req_student_id request ->
                plan s = pro /\ tts_used s = 0 /\ is_active s = true
                /\ end_date s = Some (at_end_date clock + 2592000000))
        /\ (onSubscription = Refused ->
            subscriptions (snd out) = subscriptions db)
        /\ (subscriptions_of db (req_student_id request) = [] ->
            subscriptions (snd out) = subscriptions db)
        /\ (onRequest = Applied ->
            forall r,
              In r (upgrade_requests (snd out)) ->
              req_id r = req_id request -> Store.status r = approved)
        /\ (onRequest = Refused ->
            upgrade_requests (snd out) = upgrade_requests db))
  /\ (let out :=
        approve_request approval_clock Applied Refused school_db approve_body in
      fst out = {| status := 200; success := true;
                   message := "Pro plan activated for 30 days" |}
      /\ map plan (subscriptions_of (snd out) "student-1") = [basic]
      /\ map tts_used (subscriptions_of (snd out) "student-1") = [1200])
  /\ (let out :=
        approve_request approval_clock Applied Applied school_db_without_row
          approve_body in
      fst out = {| status := 200; success := true;
                   message := "Pro plan activated for 30 days" |}
      /\ map Store.status (upgrade_requests (snd out)) = [approved]
      /\ subscriptions_of (snd out) "student-1" = []).
Proof.
  split; [|split; vm_compute; auto].
  intros clock onRequest onSubscription db body out Hok. subst out.
  destruct (approve_request_success _ _ _ _ _ Hok)
    as (rid & school & request & Hrid & _ & Hrows & Hpend & Hdb).
  assert (Hin : In request (filter (fun r => String.eqb (req_id r) rid)
                              (upgrade_requests db))).
  { rewrite Hrows. now left. }
  apply filter_In in Hin. destruct Hin as [Hin Hid].
  apply String.eqb_eq in Hid.
  exists request. split; [exact Hin|]. split; [exact Hpend|].
  split; [now rewrite Hid|].
  rewrite Hdb. cbv zeta.
  assert (Hsubs1 : forall w,
             subscriptions
               match w with
               | Applied =>
                   with_upgrade_requests db
                     (map (fun r => if String.eqb (req_id r) rid
                                    then approve r (at_processed clock) school
                                    else r)
                          (upgrade_requests db))
               | Refused => db
               end = subscriptions db).
  { intros []; reflexivity. }
  split; [|split; [|split; [|split]]].
  - intros ->. cbn [subscriptions with_subscriptions]. rewrite Hsubs1.
    split; [reflexivity|].
    intros s Hs Hstu. apply in_map_iff in Hs. destruct Hs as (s0 & Heq & _).
    destruct (String.eqb (student_id s0) (req_student_id request)) eqn:E.
    + subst s. simpl. repeat split.
    + subst s. apply String.eqb_neq in E. contradiction.
  - intros ->. apply Hsubs1.
  - intros Hnone. destruct onSubscription; [|apply Hsubs1].
    cbn [subscriptions with_subscriptions]. rewrite Hsubs1.
    apply (map_unmatched
             (fun s => String.eqb (student_id s) (req_student_id request))).
    exact Hnone.
  - intros ->. intros r Hr Hreq.
    assert (Hr' : In r (map (fun r => if String.eqb (req_id r) rid
                                      then approve r (at_processed clock) school
                                      else r)
                           (upgrade_requests db))).
    { destruct onSubscription; exact Hr. }
    apply in_map_iff in Hr'. destruct Hr' as (r0 & Heq & _).
    destruct (String.eqb (req_id r0) rid) eqn:E.
    + subst r. reflexivity.
    + subst r. apply String.eqb_neq in E. congruence.
  - intros ->. destruct onSubscription; reflexivity.
Qed.

(** The approval whose update of the subscriptions the store refuses,
    through the general statement: success is answered and the rows of the
    subscriptions are those of before. *)
Lemma approval_answers_success_whatever_the_updates_did_witness :
  success (fst (approve_request approval_clock Applied Refused school_db
                  approve_body)) = true
  /\ subscriptions (snd (approve_request approval_clock Applied Refused
                           school_db approve_body))
     = subscriptions school_db.
Proof.
  split; [reflexivity|].
  destruct (proj1 approval_answers_success_whatever_the_updates_did
              approval_clock Applied Refused school_db approve_body eq_refl)
    as (request & _ & _ & _ & _ & Hrefused & _).
  exact (Hrefused eq_refl).
Defined.

End ApprovalFacts.
(* ===================================================================== *)
(** * Properties of the sanitiser *)
(* ===================================================================== *)

Module SanitizerFacts.
Import Js Sanitizer.

(** ** The chain on a few texts *)

Example sanitize_bold :
  sanitizeText (str "**Hi** there") = str "Hi there".
Proof. reflexivity. Qed.

Example sanitize_heading_lines :
  sanitizeText (str "## Title" ++ [10; 10] ++ str "body  text ")
  = str "Title. body text".
Proof. reflexivity. Qed.

Example sanitize_emoji :
  sanitizeText (str "ok " ++ [55357; 56832] ++ str " `x`") = str "ok x".
Proof. reflexivity. Qed.

Example sanitize_unclosed_bold :
  sanitizeText (str "**a" ++ [10] ++ str "b**") = str "a. b".
Proof. reflexivity. Qed.

(** Lazy groups: the first closing delimiter ends the group, and what is
    left over is paired again by the next pattern. *)
Example sanitize_nested_stars :
  sanitizeText (str "***a***") = str "a"
  /\ sanitizeText (str "**a*b**") = str "a*b"
  /\ sanitizeText (str "*a**b*c**") = str "abc"
  /\ sanitizeText (str "**a***") = str "a*"
  /\ sanitizeText (str "*****") = str "*".
Proof. repeat split. Qed.

(** A run of more than six [#] loses its last six and the white space. *)
Example sanitize_seven_hashes :
  sanitizeText (str "a ####### x") = str "a #x".
Proof. reflexivity. Qed.

Example sanitize_line_feeds_and_trim :
  sanitizeText (str "a" ++ [10; 10; 10] ++ str "b") = str "a. b"
  /\ sanitizeText (32 :: 9 :: str " x ") = str "x".
Proof. split; reflexivity. Qed.

(** ** Code units *)

Ltac unit_facts :=
  unfold is_high_surrogate, is_low_surrogate, is_surrogate, is_whitespace,
    is_line_terminator, in_range, star, backtick, hash, newline, dot, space
    in *;
  repeat match goal with
         | H : _ && _ = true |- _ => apply andb_true_iff in H; destruct H
         | H : _ || _ = false |- _ => apply orb_false_iff in H; destruct H
         | H : (_ <=? _) = true |- _ => apply Z.leb_le in H
         | H : (_ <=? _) = false |- _ => apply Z.leb_gt in H
         | H : (_ =? _) = true |- _ => apply Z.eqb_eq in H
         | H : (_ =? _) = false |- _ => apply Z.eqb_neq in H
         end.

Lemma high_is_surrogate h : is_high_surrogate h = true -> is_surrogate h = true.
Proof.
  intros H. unit_facts. apply andb_true_iff. rewrite !Z.leb_le. lia.
Qed.

Lemma low_is_surrogate l : is_low_surrogate l = true -> is_surrogate l = true.
Proof.
  intros H. unit_facts. apply andb_true_iff. rewrite !Z.leb_le. lia.
Qed.

Lemma unit_not_high c : is_surrogate c = false -> is_high_surrogate c = false.
Proof.
  intros H. destruct (is_high_surrogate c) eqn:E; [|reflexivity].
  apply high_is_surrogate in E. congruence.
Qed.

Lemma surrogate_not_whitespace c :
  is_surrogate c = true -> is_whitespace c = false.
Proof.
  intros H. unit_facts.
  repeat (apply orb_false_iff; split);
    rewrite ?andb_false_iff, ?Z.leb_gt, ?Z.eqb_neq; lia.
Qed.

Lemma surrogate_not_terminator c :
  is_surrogate c = true -> is_line_terminator c = false.
Proof.
  intros H. unit_facts.
  repeat (apply orb_false_iff; split); rewrite ?Z.eqb_neq; lia.
Qed.

Lemma surrogate_below c d :
  is_surrogate c = true -> d < 55296 -> (c =? d) = false.
Proof. intros H Hd. unit_facts. apply Z.eqb_neq. lia. Qed.

Lemma terminator_is_whitespace c :
  is_line_terminator c = true -> is_whitespace c = true.
Proof.
  unfold is_line_terminator, is_whitespace. intros H.
  repeat (apply orb_true_iff in H; destruct H as [H|H]);
    apply Z.eqb_eq in H; subst c; reflexivity.
Qed.

(** ** Well-formed strings *)

Lemma wf_tail c s : is_surrogate c = false -> well_formed (c :: s) -> well_formed s.
Proof.
  intros Hc H. inversion H as [|? ? _ Hs|h l s' Hh _ _]; subst; [exact Hs|].
  apply high_is_surrogate in Hh. congruence.
Qed.

Lemma wf_app a b : well_formed a -> well_formed b -> well_formed (a ++ b).
Proof.
  intros Ha Hb. induction Ha; simpl; [exact Hb| |];
    constructor; assumption.
Qed.

Lemma wf_snoc a c : well_formed a -> is_surrogate c = false -> well_formed (a ++ [c]).
Proof. intros Ha Hc. apply wf_app; [exact Ha|]. repeat constructor. exact Hc. Qed.

Lemma wf_snoc_pair a h l :
  well_formed a -> is_high_surrogate h = true -> is_low_surrogate l = true ->
  well_formed (a ++ [h; l]).
Proof. intros Ha Hh Hl. apply wf_app; [exact Ha|]. repeat constructor; assumption. Qed.

(** Induction on a well-formed string that gives the property for every
    shorter well-formed string, one character (a unit or a pair) at a time. *)
Lemma wf_length_ind (P : jsstring -> Prop) :
  (forall s, well_formed s ->
             (forall t, well_formed t -> (List.length t < List.length s)%nat -> P t) ->
             P s) ->
  forall s, well_formed s -> P s.
Proof.
  intros Hstep s.
  remember (List.length s) as n eqn:Hn. revert s Hn.
  induction n as [n IH] using lt_wf_ind. intros s Hn Hs.
  apply Hstep; [exact Hs|]. intros t Ht Hlt. subst n. exact (IH _ Hlt t eq_refl Ht).
Qed.

(** ** Edits: what a step of the chain may do to a well-formed string

    It keeps or drops whole characters, and inserts full stops and spaces. *)
Inductive edit : jsstring -> jsstring -> Prop :=
| edit_nil : edit [] []
| edit_keep c s t :
    is_surrogate c = false -> edit s t -> edit (c :: s) (c :: t)
| edit_keep_pair h l s t :
    is_high_surrogate h = true -> is_low_surrogate l = true ->
    edit s t -> edit (h :: l :: s) (h :: l :: t)
| edit_drop c s t :
    is_surrogate c = false -> edit s t -> edit (c :: s) t
| edit_drop_pair h l s t :
    is_high_surrogate h = true -> is_low_surrogate l = true ->
    edit s t -> edit (h :: l :: s) t
| edit_insert c s t :
    c = dot \/ c = space -> edit s t -> edit s (c :: t).

Lemma edit_refl s : well_formed s -> edit s s.
Proof. induction 1; constructor; assumption. Qed.

Lemma edit_app a a' b b' : edit a a' -> edit b b' -> edit (a ++ b) (a' ++ b').
Proof.
  intros Ha Hb. induction Ha; simpl; [exact Hb| | | | |];
    constructor; assumption.
Qed.

Lemma edit_wf_r s t : edit s t -> well_formed t.
Proof.
  induction 1; try assumption; try (constructor; assumption).
  constructor; [|assumption].
  destruct H as [-> | ->]; reflexivity.
Qed.

(** How many times the unit [d] occurs. *)
Fixpoint count (d : Z) (s : jsstring) : nat :=
  match s with
  | [] => O
  | c :: rest => if c =? d then S (count d rest) else count d rest
  end.



(** An edit adds no unit other than full stops and spaces. *)
Lemma edit_count d s t :
  d <> dot -> d <> space -> edit s t -> (count d t <= count d s)%nat.
Proof.
  intros Hd Hs. induction 1; simpl; try lia.
  - destruct (c =? d); lia.
  - destruct (h =? d), (l =? d); lia.
  - destruct (c =? d); lia.
  - destruct (h =? d), (l =? d); lia.
  - destruct (Z.eqb_spec c d); [|lia].
    destruct H as [-> | ->]; congruence.
Qed.



(** ** Removing an emoji block *)

Lemma remove_range_unit lo hi c s :
  is_high_surrogate c = false ->
  remove_range lo hi (c :: s)
  = if in_range lo hi c then remove_range lo hi s else c :: remove_range lo hi s.
Proof.
  intros Hc. destruct s as [|v s']; simpl; rewrite ?Hc; simpl;
    destruct (in_range lo hi c); reflexivity.
Qed.

Lemma remove_range_pair lo hi h l s :
  is_high_surrogate h = true -> is_low_surrogate l = true ->
  remove_range lo hi (h :: l :: s)
  = if in_range lo hi (code_point h l) then remove_range lo hi s
    else h :: l :: remove_range lo hi s.
Proof. intros Hh Hl. simpl. rewrite Hh, Hl. reflexivity. Qed.

Lemma remove_range_edit lo hi s : well_formed s -> edit s (remove_range lo hi s).
Proof.
  induction 1 as [|c s Hc Hs IH|h l s Hh Hl Hs IH].
  - constructor.
  - rewrite remove_range_unit by now apply unit_not_high.
    destruct (in_range lo hi c); constructor; assumption.
  - rewrite remove_range_pair by assumption.
    destruct (in_range lo hi (code_point h l)); constructor; assumption.
Qed.

Lemma remove_range_length lo hi s :
  well_formed s -> (List.length (remove_range lo hi s) <= List.length s)%nat.
Proof.
  induction 1 as [|c s Hc Hs IH|h l s Hh Hl Hs IH].
  - simpl. lia.
  - rewrite remove_range_unit by now apply unit_not_high.
    destruct (in_range lo hi c); simpl; lia.
  - rewrite remove_range_pair by assumption.
    destruct (in_range lo hi (code_point h l)); simpl; lia.
Qed.

(** The text holds no character of the block. *)
Definition emoji_free (lo hi : Z) (s : jsstring) : Prop :=
  remove_range lo hi s = s.

Lemma emoji_free_unit lo hi c s :
  is_surrogate c = false -> well_formed s ->
  emoji_free lo hi (c :: s) <-> in_range lo hi c = false /\ emoji_free lo hi s.
Proof.
  intros Hc Hs. unfold emoji_free.
  rewrite remove_range_unit by now apply unit_not_high.
  destruct (in_range lo hi c); split.
  - intros H. pose proof (remove_range_length lo hi s Hs) as Hlen.
    rewrite H in Hlen. simpl in Hlen. lia.
  - intros [H _]. discriminate.
  - intros H. inversion H as [H']. rewrite H'. auto.
  - intros [_ H]. now rewrite H.
Qed.

Lemma emoji_free_pair lo hi h l s :
  is_high_surrogate h = true -> is_low_surrogate l = true -> well_formed s ->
  emoji_free lo hi (h :: l :: s)
  <-> in_range lo hi (code_point h l) = false /\ emoji_free lo hi s.
Proof.
  intros Hh Hl Hs. unfold emoji_free.
  rewrite remove_range_pair by assumption.
  destruct (in_range lo hi (code_point h l)); split.
  - intros H. pose proof (remove_range_length lo hi s Hs) as Hlen.
    rewrite H in Hlen. simpl in Hlen. lia.
  - intros [H _]. discriminate.
  - intros H. inversion H as [H']. rewrite H'. auto.
  - intros [_ H]. now rewrite H.
Qed.

(** Once removed, the block stays out. *)
Lemma remove_range_emoji_free lo hi s :
  well_formed s -> emoji_free lo hi (remove_range lo hi s).
Proof.
  induction 1 as [|c s Hc Hs IH|h l s Hh Hl Hs IH].
  - reflexivity.
  - rewrite remove_range_unit by now apply unit_not_high.
    destruct (in_range lo hi c) eqn:E; [exact IH|].
    apply emoji_free_unit; auto.
    exact (edit_wf_r _ _ (remove_range_edit lo hi s Hs)).
  - rewrite remove_range_pair by assumption.
    destruct (in_range lo hi (code_point h l)) eqn:E; [exact IH|].
    apply emoji_free_pair; auto.
    exact (edit_wf_r _ _ (remove_range_edit lo hi s Hs)).
Qed.

(** A block that holds neither the full stop nor the space. *)
Definition block (r : Z * Z) : Prop :=
  in_range (fst r) (snd r) dot = false /\ in_range (fst r) (snd r) space = false.

Lemma edit_wf_l s t : edit s t -> well_formed s.
Proof. induction 1; try assumption; constructor; assumption. Qed.

(** An edit brings no character of a block back. *)
Lemma edit_emoji_free r s t :
  block r -> edit s t ->
  emoji_free (fst r) (snd r) s -> emoji_free (fst r) (snd r) t.
Proof.
  intros [Hdot Hspace]. induction 1 as
      [|c s t Hc He IH|h l s t Hh Hl He IH|c s t Hc He IH
       |h l s t Hh Hl He IH|c s t Hc He IH]; intros Hfree.
  - exact Hfree.
  - apply emoji_free_unit in Hfree; [|exact Hc|exact (edit_wf_l _ _ He)].
    apply emoji_free_unit; [exact Hc|exact (edit_wf_r _ _ He)|].
    destruct Hfree; auto.
  - apply emoji_free_pair in Hfree; [|exact Hh|exact Hl|exact (edit_wf_l _ _ He)].
    apply emoji_free_pair; [exact Hh|exact Hl|exact (edit_wf_r _ _ He)|].
    destruct Hfree; auto.
  - apply emoji_free_unit in Hfree; [|exact Hc|exact (edit_wf_l _ _ He)].
    destruct Hfree; auto.
  - apply emoji_free_pair in Hfree; [|exact Hh|exact Hl|exact (edit_wf_l _ _ He)].
    destruct Hfree; auto.
  - apply emoji_free_unit; [destruct Hc as [-> | ->]; reflexivity
                           |exact (edit_wf_r _ _ He)|].
    split; [destruct Hc as [-> | ->]; assumption|auto].
Qed.

(** Removing the blocks of a list, one after the other. *)
Lemma remove_ranges_cons r ranges s :
  remove_ranges (r :: ranges) s
  = remove_ranges ranges (remove_range (fst r) (snd r) s).
Proof. reflexivity. Qed.

Inductive edits : jsstring -> jsstring -> Prop :=
| edits_refl s : well_formed s -> edits s s
| edits_step s t u : edit s t -> edits t u -> edits s u.

Lemma edits_wf_r s t : edits s t -> well_formed t.
Proof. induction 1; assumption. Qed.

Lemma edits_emoji_free r s t :
  block r -> edits s t ->
  emoji_free (fst r) (snd r) s -> emoji_free (fst r) (snd r) t.
Proof.
  intros Hr. induction 1; [auto|]. intros Hs. apply IHedits.
  now apply (edit_emoji_free r s t).
Qed.

Lemma edits_count d s t :
  d <> dot -> d <> space -> edits s t -> (count d t <= count d s)%nat.
Proof.
  intros Hd Hs. induction 1; [lia|].
  pose proof (edit_count d _ _ Hd Hs H). lia.
Qed.


Lemma edits_trans s t u : edits s t -> edits t u -> edits s u.
Proof.
  induction 1; [auto|]. intros Hu. econstructor; [eassumption|auto].
Qed.

Lemma edits_one s t : edit s t -> edits s t.
Proof.
  intros H. econstructor; [exact H|]. constructor. exact (edit_wf_r _ _ H).
Qed.

Lemma remove_ranges_edits ranges s :
  well_formed s -> edits s (remove_ranges ranges s).
Proof.
  revert s. induction ranges as [|r ranges IH]; intros s Hs.
  - now constructor.
  - rewrite remove_ranges_cons. econstructor.
    + exact (remove_range_edit (fst r) (snd r) s Hs).
    + apply IH. exact (edit_wf_r _ _ (remove_range_edit (fst r) (snd r) s Hs)).
Qed.

(** After the chain of removals no listed block is left. *)
Lemma remove_ranges_emoji_free ranges s :
  Forall block ranges -> well_formed s ->
  Forall (fun r => emoji_free (fst r) (snd r) (remove_ranges ranges s)) ranges.
Proof.
  intros Hb. revert s. induction Hb as [|r ranges Hr Hb IH]; intros s Hs.
  - constructor.
  - rewrite remove_ranges_cons.
    pose proof (edit_wf_r _ _ (remove_range_edit (fst r) (snd r) s Hs)) as Hs'.
    constructor; [|now apply IH].
    apply (edits_emoji_free r (remove_range (fst r) (snd r) s)); [exact Hr| |].
    + now apply remove_ranges_edits.
    + now apply remove_range_emoji_free.
Qed.


(** ** Every step of the chain is an edit *)

Lemma edit_drop_all a s t :
  Forall (fun c => is_surrogate c = false) a -> edit s t -> edit (a ++ s) t.
Proof.
  induction 1; simpl; [auto|]. intros He. constructor; auto.
Qed.

Lemma wf_units a :
  Forall (fun c => is_surrogate c = false) a -> well_formed a.
Proof. induction 1; constructor; assumption. Qed.

Lemma repeat_units c n :
  is_surrogate c = false -> Forall (fun c => is_surrogate c = false) (repeat c n).
Proof. intros Hc. induction n; simpl; constructor; assumption. Qed.

Section Delimiter.
Variable d : Z.
Hypothesis d_low : d < 55296.
Hypothesis d_unit : is_surrogate d = false.

Lemma strip_pair_edit s :
  well_formed s ->
  edit s (strip_pair d None s)
  /\ forall buf, well_formed (rev buf) ->
                 edit (d :: rev buf ++ s) (strip_pair d (Some buf) s).
Proof.
  induction 1 as [|c s Hc Hs [IH1 IH2]|h l s Hh Hl Hs [IH1 IH2]].
  - split; [constructor|]. intros buf Hb. simpl. rewrite app_nil_r.
    apply edit_refl. now constructor.
  - split.
    + simpl. destruct (Z.eqb_spec c d) as [->|Hne].
      * exact (IH2 [] wf_nil).
      * now constructor.
    + intros buf Hb. simpl. destruct (Z.eqb_spec c d) as [->|Hne].
      * constructor; [exact d_unit|].
        apply edit_app; [now apply edit_refl|]. now constructor.
      * destruct (is_line_terminator c).
        -- constructor; [exact d_unit|].
           apply edit_app; [now apply edit_refl|]. now constructor.
        -- specialize (IH2 (c :: buf)). simpl in IH2.
           rewrite <- app_assoc in IH2. apply IH2. now apply wf_snoc.
  - pose proof (high_is_surrogate _ Hh) as Sh.
    pose proof (low_is_surrogate _ Hl) as Sl.
    split.
    + simpl. rewrite (surrogate_below h d Sh d_low).
      rewrite (surrogate_below l d Sl d_low). now constructor.
    + intros buf Hb. simpl.
      rewrite (surrogate_below h d Sh d_low), (surrogate_below l d Sl d_low).
      rewrite (surrogate_not_terminator h Sh), (surrogate_not_terminator l Sl).
      specialize (IH2 (l :: h :: buf)). simpl in IH2.
      rewrite <- !app_assoc in IH2. apply IH2.
      now apply wf_snoc_pair.
Qed.

End Delimiter.

Lemma strip_bold_single opened c rest :
  match rest with
  | d :: _ => (c =? star) && (d =? star)
  | [] => false
  end = false ->
  strip_bold opened (c :: rest)
  = match opened with
    | None => c :: strip_bold None rest
    | Some buf =>
        if is_line_terminator c
        then star :: star :: rev buf ++ c :: strip_bold None rest
        else strip_bold (Some (c :: buf)) rest
    end.
Proof.
  intros H. destruct rest as [|d rest']; simpl; [reflexivity|].
  now rewrite H.
Qed.

Lemma strip_bold_double opened rest :
  strip_bold opened (star :: star :: rest)
  = match opened with
    | None => strip_bold (Some []) rest
    | Some buf => rev buf ++ strip_bold None rest
    end.
Proof. reflexivity. Qed.

Lemma star_unit : is_surrogate star = false.
Proof. reflexivity. Qed.

Lemma strip_bold_edit s :
  well_formed s ->
  edit s (strip_bold None s)
  /\ forall buf, well_formed (rev buf) ->
                 edit (star :: star :: rev buf ++ s) (strip_bold (Some buf) s).
Proof.
  intros Hwf. induction Hwf as [s Hs IH] using wf_length_ind.
  destruct Hs as [|c s Hc Hs|h l s Hh Hl Hs].
  - split; [constructor|]. intros buf Hb. simpl. rewrite app_nil_r.
    apply edit_refl. repeat constructor; assumption.
  - destruct (match s with
              | d :: _ => (c =? star) && (d =? star)
              | [] => false
              end) eqn:Two.
    + destruct s as [|d s']; [discriminate|].
      apply andb_true_iff in Two. destruct Two as [Ec Ed].
      apply Z.eqb_eq in Ec, Ed. subst c d.
      pose proof (wf_tail _ _ star_unit Hs) as Hs'.
      destruct (IH s' Hs' ltac:(simpl; lia)) as [IH1 IH2].
      split.
      * rewrite strip_bold_double. exact (IH2 [] wf_nil).
      * intros buf Hb. rewrite strip_bold_double.
        do 2 (constructor; [exact star_unit|]).
        apply edit_app; [now apply edit_refl|].
        do 2 (constructor; [exact star_unit|]). exact IH1.
    + destruct (IH s Hs ltac:(simpl; lia)) as [IH1 IH2].
      split.
      * rewrite (strip_bold_single None c s Two). now constructor.
      * intros buf Hb. rewrite (strip_bold_single (Some buf) c s Two).
        destruct (is_line_terminator c).
        -- do 2 (constructor; [exact star_unit|]).
           apply edit_app; [now apply edit_refl|]. now constructor.
        -- specialize (IH2 (c :: buf)). simpl in IH2.
           rewrite <- app_assoc in IH2. apply IH2. now apply wf_snoc.
  - pose proof (high_is_surrogate _ Hh) as Sh.
    pose proof (low_is_surrogate _ Hl) as Sl.
    destruct (IH s Hs ltac:(simpl; lia)) as [IH1 IH2].
    assert (Th : match l :: s with
                 | d :: _ => (h =? star) && (d =? star)
                 | [] => false
                 end = false).
    { now rewrite (surrogate_below h star Sh). }
    assert (Tl : match s with
                 | d :: _ => (l =? star) && (d =? star)
                 | [] => false
                 end = false).
    { destruct s; [reflexivity|]. now rewrite (surrogate_below l star Sl). }
    split.
    + rewrite (strip_bold_single None h (l :: s) Th),
        (strip_bold_single None l s Tl).
      now constructor.
    + intros buf Hb.
      rewrite (strip_bold_single (Some buf) h (l :: s) Th),
        (surrogate_not_terminator h Sh).
      rewrite (strip_bold_single (Some (h :: buf)) l s Tl),
        (surrogate_not_terminator l Sl).
      specialize (IH2 (l :: h :: buf)). simpl in IH2.
      rewrite <- !app_assoc in IH2. apply IH2.
      now apply wf_snoc_pair.
Qed.

Lemma hash_unit : is_surrogate hash = false.
Proof. reflexivity. Qed.

Lemma strip_heading_edit s :
  well_formed s ->
  forall n, edit (repeat hash n ++ s) (strip_heading n s).
Proof.
  induction 1 as [|c s Hc Hs IH|h l s Hh Hl Hs IH]; intros n.
  - simpl. rewrite app_nil_r. apply edit_refl, wf_units.
    apply repeat_units, hash_unit.
  - simpl. destruct (Z.eqb_spec c hash) as [->|Hne].
    + specialize (IH (S n)). simpl in IH.
      change (hash :: repeat hash n ++ s) with ((hash :: repeat hash n) ++ s) in IH.
      rewrite repeat_cons, <- app_assoc in IH. exact IH.
    + destruct (is_whitespace c).
      * destruct n as [|m]; [simpl; constructor; [exact Hc|exact (IH O)]|].
        replace (repeat hash (S m)) with
          (repeat hash (S m - 6) ++ repeat hash (S m - (S m - 6))).
        2:{ rewrite <- repeat_app. f_equal. lia. }
        rewrite <- app_assoc. apply edit_app.
        -- apply edit_refl, wf_units, repeat_units, hash_unit.
        -- apply edit_drop_all; [apply repeat_units, hash_unit|].
           constructor; [exact Hc|exact (IH O)].
      * apply edit_app.
        -- apply edit_refl, wf_units, repeat_units, hash_unit.
        -- constructor; [exact Hc|exact (IH O)].
  - pose proof (high_is_surrogate _ Hh) as Sh.
    pose proof (low_is_surrogate _ Hl) as Sl.
    simpl.
    rewrite (surrogate_below h hash Sh), (surrogate_below l hash Sl)
      by reflexivity.
    rewrite (surrogate_not_whitespace h Sh), (surrogate_not_whitespace l Sl).
    simpl. apply edit_app.
    + apply edit_refl, wf_units, repeat_units, hash_unit.
    + constructor; [exact Hh|exact Hl|exact (IH O)].
Qed.

Lemma newlines_to_stop_edit s : well_formed s -> edit s (newlines_to_stop s).
Proof.
  induction 1 as [|c s Hc Hs IH|h l s Hh Hl Hs IH].
  - constructor.
  - simpl. destruct (c =? newline).
    + destruct s as [|d s'].
      * apply edit_insert; [now left|]. apply edit_insert; [now right|].
        constructor; [exact Hc|constructor].
      * destruct (d =? newline).
        -- constructor; [exact Hc|exact IH].
        -- apply edit_insert; [now left|]. apply edit_insert; [now right|].
           constructor; [exact Hc|exact IH].
    + constructor; [exact Hc|exact IH].
  - pose proof (high_is_surrogate _ Hh) as Sh.
    pose proof (low_is_surrogate _ Hl) as Sl.
    simpl.
    rewrite (surrogate_below h newline Sh), (surrogate_below l newline Sl)
      by reflexivity.
    now constructor.
Qed.

Lemma collapse_whitespace_edit s : well_formed s -> edit s (collapse_whitespace s).
Proof.
  induction 1 as [|c s Hc Hs IH|h l s Hh Hl Hs IH].
  - constructor.
  - simpl. destruct (is_whitespace c).
    + destruct s as [|d s'].
      * apply edit_insert; [now right|]. constructor; [exact Hc|constructor].
      * destruct (is_whitespace d).
        -- constructor; [exact Hc|exact IH].
        -- apply edit_insert; [now right|]. constructor; [exact Hc|exact IH].
    + constructor; [exact Hc|exact IH].
  - pose proof (high_is_surrogate _ Hh) as Sh.
    pose proof (low_is_surrogate _ Hl) as Sl.
    simpl.
    rewrite (surrogate_not_whitespace h Sh), (surrogate_not_whitespace l Sl).
    now constructor.
Qed.

Lemma trim_start_edit s : well_formed s -> edit s (trim_start s).
Proof.
  induction 1 as [|c s Hc Hs IH|h l s Hh Hl Hs IH].
  - constructor.
  - simpl. destruct (is_whitespace c).
    + now constructor.
    + apply edit_refl. now constructor.
  - simpl. rewrite (surrogate_not_whitespace h (high_is_surrogate _ Hh)).
    apply edit_refl. now constructor.
Qed.

Lemma trim_end_edit s : well_formed s -> edit s (trim_end s).
Proof.
  induction 1 as [|c s Hc Hs IH|h l s Hh Hl Hs IH].
  - constructor.
  - simpl. destruct (trim_end s) as [|k kept].
    + destruct (is_whitespace c); now constructor.
    + now constructor.
  - pose proof (high_is_surrogate _ Hh) as Sh.
    pose proof (low_is_surrogate _ Hl) as Sl.
    simpl. rewrite (surrogate_not_whitespace l Sl).
    destruct (trim_end s) as [|k kept]; now constructor.
Qed.

Lemma trim_edits s : well_formed s -> edits s (trim s).
Proof.
  intros Hs. unfold trim.
  pose proof (trim_start_edit s Hs) as H1.
  econstructor; [exact H1|].
  apply edits_one, trim_end_edit. exact (edit_wf_r _ _ H1).
Qed.

(** ** What the chain leaves behind *)


(** The first unit is white space. *)
Definition head_ws (s : jsstring) : bool :=
  match s with
  | c :: _ => is_whitespace c
  | [] => false
  end.


(** Every white-space unit is a space that no white space follows. *)
Fixpoint ws_single (s : jsstring) : bool :=
  match s with
  | [] => true
  | c :: rest =>
      (if is_whitespace c then (c =? space) && negb (head_ws rest) else true)
      && ws_single rest
  end.






Lemma collapse_head s : head_ws (collapse_whitespace s) = head_ws s.
Proof.
  induction s as [|c s IH]; [reflexivity|]. simpl.
  destruct (is_whitespace c) eqn:W; [|simpl; exact W].
  destruct s as [|d s']; [reflexivity|].
  destruct (is_whitespace d) eqn:Wd; [|reflexivity].
  rewrite IH. simpl. exact Wd.
Qed.


Lemma collapse_ws_single s : ws_single (collapse_whitespace s) = true.
Proof.
  induction s as [|c s IH]; [reflexivity|]. simpl.
  destruct (is_whitespace c) eqn:W.
  - destruct s as [|d s']; [reflexivity|].
    destruct (is_whitespace d) eqn:Wd; [exact IH|].
    change (ws_single (space :: collapse_whitespace (d :: s')))
      with (negb (head_ws (collapse_whitespace (d :: s')))
            && ws_single (collapse_whitespace (d :: s'))).
    rewrite IH, collapse_head. simpl. now rewrite Wd.
  - simpl. now rewrite W, IH.
Qed.


Lemma trim_start_ws_single s :
  ws_single s = true -> ws_single (trim_start s) = true.
Proof.
  induction s as [|c s IH]; [reflexivity|]. intros H. simpl.
  destruct (is_whitespace c) eqn:W; [|exact H].
  simpl in H. rewrite W in H. apply andb_true_iff in H. now apply IH.
Qed.

Lemma trim_start_head s : head_ws (trim_start s) = false.
Proof.
  induction s as [|c s IH]; [reflexivity|]. simpl.
  destruct (is_whitespace c) eqn:W; [exact IH|simpl; exact W].
Qed.

Lemma trim_end_head s : head_ws s = false -> head_ws (trim_end s) = false.
Proof.
  destruct s as [|c rest]; [reflexivity|]. simpl. intros W.
  destruct (trim_end rest); [rewrite W|]; simpl; auto.
Qed.


Lemma trim_end_ws_single s :
  ws_single s = true -> ws_single (trim_end s) = true.
Proof.
  induction s as [|c s IH]; [reflexivity|].
  intros H. simpl in H. apply andb_true_iff in H. destruct H as [Hc Hs].
  simpl. specialize (IH Hs).
  destruct (trim_end s) as [|k kept] eqn:T.
  - destruct (is_whitespace c) eqn:W; [reflexivity|]. simpl. now rewrite W.
  - change (ws_single (c :: k :: kept))
      with ((if is_whitespace c
             then (c =? space) && negb (head_ws (k :: kept)) else true)
            && ws_single (k :: kept)).
    rewrite IH, andb_true_r.
    destruct (is_whitespace c); [|reflexivity].
    apply andb_true_iff in Hc. destruct Hc as [Hsp Hh].
    apply negb_true_iff in Hh.
    rewrite Hsp, <- T, (trim_end_head s Hh). reflexivity.
Qed.

(** ** Texts that a step leaves as they are *)












(** ** Idempotence *)







Lemma server_blocks : Forall block server_ranges.
Proof. repeat constructor. Qed.

Lemma client_blocks : Forall block client_ranges.
Proof. repeat constructor. Qed.



(** A line of markdown with an emoji: bold, code, a heading mark. *)
Definition sample_line : jsstring :=
  str "## **Hi** there " ++ [55357; 56832] ++ str " `code` *x*".


End SanitizerFacts.
(* ===================================================================== *)
(** * Properties of the server-side audio cache *)
(* ===================================================================== *)

Module CacheFacts.
Import Js Store Ledger TtsFunction.

Lemma eqb_eq (a b : jsstring) : Js.eqb a b = true <-> a = b.
Proof.
  revert b; induction a as [|x a IH]; intros [|y b]; simpl;
    try (split; [discriminate | congruence]); [tauto|].
  rewrite andb_true_iff, Z.eqb_eq, IH. split.
  - intros [-> ->]; reflexivity.
  - intros E; injection E; auto.
Qed.

Lemma eqb_refl (a : jsstring) : Js.eqb a a = true.
Proof. apply eqb_eq; reflexivity. Qed.

Lemma eqb_sym (a b : jsstring) : Js.eqb a b = Js.eqb b a.
Proof.
  destruct (Js.eqb a b) eqn:E.
  - apply eqb_eq in E; subst; symmetry; apply eqb_refl.
  - destruct (Js.eqb b a) eqn:E'; [|reflexivity].
    apply eqb_eq in E'; subst. rewrite eqb_refl in E; discriminate.
Qed.

Section Maps.

Context {V : Type}.
Implicit Types (m : JsMap.t V) (k : jsstring) (v : V).

Lemma set_absent k v m :
  JsMap.get k m = None -> JsMap.set k v m = m ++ [(k, v)].
Proof.
  induction m as [|[k' v'] m IH]; simpl; [reflexivity|].
  destruct (Js.eqb k' k); [discriminate|].
  intros H; rewrite IH by exact H; reflexivity.
Qed.

Lemma set_length k v m :
  (List.length (JsMap.set k v m) <= S (List.length m))%nat.
Proof.
  induction m as [|[k' v'] m IH]; simpl; [lia|].
  destruct (Js.eqb k' k); simpl; lia.
Qed.

Lemma set_keys (P : jsstring -> Prop) k v m :
  P k -> Forall (fun e => P (fst e)) m ->
  Forall (fun e => P (fst e)) (JsMap.set k v m).
Proof.
  intros Hk; induction 1 as [|[k' v'] m Hh Ht IH]; simpl.
  - constructor; [exact Hk | constructor].
  - destruct (Js.eqb k' k); constructor; auto.
Qed.

Lemma get_app_absent k (a b : JsMap.t V) :
  JsMap.get k a = None -> JsMap.get k (a ++ b) = JsMap.get k b.
Proof.
  induction a as [|[k' v'] a IH]; simpl; [reflexivity|].
  destruct (Js.eqb k' k); [discriminate | exact IH].
Qed.

Lemma get_filter_absent (keep : jsstring * V -> bool) k m :
  JsMap.get k m = None -> JsMap.get k (filter keep m) = None.
Proof.
  induction m as [|[k' v'] m IH]; simpl; [reflexivity|].
  destruct (Js.eqb k' k) eqn:E; [discriminate|].
  intros H; destruct (keep (k', v')); simpl; [rewrite E|]; auto.
Qed.

Lemma delete_head_length k v m :
  (List.length (JsMap.delete k ((k, v) :: m)) <= List.length m)%nat.
Proof.
  unfold JsMap.delete; simpl. rewrite eqb_refl; simpl. apply filter_length_le.
Qed.

End Maps.

(** The eviction step of the handler: above 100 entries the oldest key
    goes. *)
Definition evict (stored : AudioCache) : AudioCache :=
  if 100 <? JsMap.size stored then
    match JsMap.first_key stored with
    | Some oldestKey =>
        if truthy oldestKey then JsMap.delete oldestKey stored else stored
    | None => stored
    end
  else stored.

(** The cache invariant: at most 100 entries, none under the empty key. *)
Definition bounded (cache : AudioCache) : Prop :=
  JsMap.size cache <= 100 /\ Forall (fun e => fst e <> []) cache.

Lemma cleanCache_bounded now cache : bounded cache -> bounded (cleanCache now cache).
Proof.
  intros [Hs Hk]; split.
  - unfold JsMap.size, cleanCache in *.
    pose proof (filter_length_le
                  (fun e : jsstring * CacheEntry =>
                     negb (CACHE_TTL_MS <? now - timestamp (snd e))) cache).
    lia.
  - unfold cleanCache. rewrite Forall_forall in *.
    intros e He; apply filter_In in He; apply Hk, He.
Qed.

Lemma evict_bounded k e cache :
  k <> [] -> bounded cache -> bounded (evict (JsMap.set k e cache)).
Proof.
  intros Hk [Hs Hkeys].
  assert (Hall : Forall (fun x : jsstring * CacheEntry => fst x <> [])
                   (JsMap.set k e cache))
    by (apply (set_keys (fun key => key <> [])); assumption).
  pose proof (set_length k e cache) as Hlen.
  unfold bounded, evict, JsMap.size in *.
  destruct (100 <? Z.of_nat (List.length (JsMap.set k e cache))) eqn:Hbig.
  - destruct (JsMap.set k e cache) as [|[k0 v0] rest] eqn:Es;
      [simpl in Hbig; discriminate|].
    unfold JsMap.first_key.
    assert (Hk0 : truthy k0 = true).
    { inversion Hall as [|? ? Hhead _]; subst.
      destruct k0; [exfalso; apply Hhead; reflexivity | reflexivity]. }
    rewrite Hk0. split.
    + pose proof (delete_head_length k0 v0 rest). simpl in Hlen. lia.
    + unfold JsMap.delete. rewrite Forall_forall in *.
      intros x Hx; apply filter_In in Hx; apply Hall, Hx.
  - apply Z.ltb_ge in Hbig. split; [lia | exact Hall].
Qed.

Section Runtime.

Variable toLowerCase : jsstring -> jsstring.

Local Abbreviation serve := (TtsFunction.serve toLowerCase).
Local Abbreviation synthesize := (TtsFunction.synthesize toLowerCase).
Local Abbreviation getCacheKey := (TtsFunction.getCacheKey toLowerCase).

Lemma getCacheKey_truthy t v : getCacheKey t v model_name <> [].
Proof. unfold TtsFunction.getCacheKey. discriminate. Qed.

(** What [synthesize] leaves in the cache: the swept cache, or the swept
    cache with the new audio after eviction. *)
Lemma synthesize_cache vendor clock db cache t v l u :
  let out := synthesize vendor clock db cache t v l u in
  let swept := cleanCache (at_sweep clock) cache in
  cache_after out = swept
  \/ exists a,
       JsMap.get (getCacheKey t v model_name) swept = None
       /\ vendor_call out <> None
       /\ body (response out)
          = AudioBody a false (Js.length t) (Some (approx_size a)) u
       /\ cache_after out
          = evict (JsMap.set (getCacheKey t v model_name)
                     {| audio := a; timestamp := at_store clock |} swept).
Proof.
  cbv zeta. unfold TtsFunction.synthesize.
  destruct (JsMap.get _ (cleanCache (at_sweep clock) cache)) eqn:G;
    [left; reflexivity|].
  match goal with |- context [vendor ?q] => destruct (vendor q) as [r|] end;
    [|left; reflexivity].
  destruct (negb (vendor_ok r)).
  - destruct (vstatus r =? 401); [left; reflexivity|].
    destruct (vstatus r =? 429); [left; reflexivity|].
    destruct (carries_body (vstatus r)); left; reflexivity.
  - destruct (audio_data r) as [a|]; [|left; reflexivity].
    right; exists a. repeat split; try reflexivity. discriminate.
Qed.

Lemma synthesize_bounded vendor clock db cache t v l u :
  bounded cache ->
  bounded (cache_after (synthesize vendor clock db cache t v l u)).
Proof.
  intros Hb.
  destruct (synthesize_cache vendor clock db cache t v l u)
    as [E | (a & _ & _ & _ & E)]; rewrite E.
  - apply cleanCache_bounded, Hb.
  - apply evict_bounded; [apply getCacheKey_truthy|].
    apply cleanCache_bounded, Hb.
Qed.

(** A fresh answer means a miss, and the new audio in the cache. *)
Lemma synthesize_fresh vendor clock db cache t v l u a n sz u0 :
  body (response (synthesize vendor clock db cache t v l u))
  = AudioBody a false n sz u0 ->
  JsMap.get (getCacheKey t v model_name) (cleanCache (at_sweep clock) cache)
  = None
  /\ cache_after (synthesize vendor clock db cache t v l u)
     = evict (JsMap.set (getCacheKey t v model_name)
                {| audio := a; timestamp := at_store clock |}
                (cleanCache (at_sweep clock) cache)).
Proof.
  unfold TtsFunction.synthesize.
  destruct (JsMap.get _ (cleanCache (at_sweep clock) cache)) eqn:G;
    [simpl; discriminate|].
  match goal with |- context [vendor ?q] => destruct (vendor q) as [r|] end;
    [|simpl; discriminate].
  destruct (negb (vendor_ok r)).
  - destruct (vstatus r =? 401); [simpl; discriminate|].
    destruct (vstatus r =? 429); [simpl; discriminate|].
    destruct (carries_body (vstatus r)); simpl; discriminate.
  - destruct (audio_data r) as [a'|]; [|simpl; discriminate].
    simpl. intros H; injection H as -> _ _ _. split; reflexivity.
Qed.

Lemma serve_cache env fault updating vendor clock db cache req :
  let out := serve env fault updating vendor clock db cache req in
  cache_after out = cache
  \/ exists db' t v l u,
       out = synthesize vendor clock db' cache t v l u.
Proof.
  cbv zeta. unfold TtsFunction.serve.
  destruct req as [|[b|]]; try (left; reflexivity).
  - destruct (negb (truthy_opt (SPEECHIFY_API_KEY env)));
      [left; reflexivity|].
    destruct (text b) as [[|c raw]|]; try (left; reflexivity).
    destruct (Js.length (Sanitizer.sanitizeText (c :: raw)) =? 0);
      [left; reflexivity|].
    destruct (truthy_opt (studentId b) && truthy_opt (SUPABASE_URL env)
              && truthy_opt (SUPABASE_SERVICE_ROLE_KEY env)).
    + destruct (checkAndTrackUsage _ _ _ _ _ _) as [r db'].
      destruct (negb (canUse r)); [left; reflexivity|].
      right; repeat eexists.
    + right; repeat eexists.
  - destruct (negb (truthy_opt (SPEECHIFY_API_KEY env))); left; reflexivity.
Qed.

End Runtime.

(** X1.  The module-level audio cache never outgrows its bound: when it
    holds at most 100 entries, none of them under the empty key, it again
    does so after any request, whatever the request, the store, the vendor
    and the clock do. *)
Theorem server_cache_stays_bounded :
  forall toLowerCase env fault updating vendor clock db cache req,
    bounded cache ->
    bounded (cache_after
               (serve toLowerCase env fault updating vendor clock db cache req)).
Proof.
  intros toLowerCase env fault updating vendor clock db cache req Hb.
  destruct (serve_cache toLowerCase env fault updating vendor clock db cache req)
    as [E | (db' & t & v & l & u & E)]; rewrite E.
  - exact Hb.
  - apply synthesize_bounded, Hb.
Qed.

Definition speaking_vendor (a : string) : VendorRequest -> VendorReply :=
  fun _ => Responded {| vstatus := 200; vtext := ""; audio_data := Some a |}.

Definition hello_anonymous : TtsBody :=
  {| text := Some (str "Hello"); voiceId := None; language := None;
     studentId := None |}.

Lemma server_cache_stays_bounded_witness :
  bounded []
  /\ bounded
       (cache_after
          (serve TtsFacts.ascii_lower TtsFacts.configured Healthy Healthy
             (speaking_vendor "QUJD")
             {| at_usage_check := 0; at_sweep := 0; at_store := 0 |}
             (LedgerFacts.one_row (LedgerFacts.pro_row 0 150000)) []
             (Post (Some hello_anonymous)))).
Proof.
  assert (H : bounded []) by (split; [vm_compute; discriminate | constructor]).
  split; [exact H|].
  apply server_cache_stays_bounded, H.
Defined.

(** What the cache holds after a fresh synthesis: the new entry at the end,
    under a key that nothing before it carries. *)
Lemma evict_keeps_new k e (swept : AudioCache) :
  JsMap.get k swept = None ->
  exists older,
    evict (JsMap.set k e swept) = older ++ [(k, e)]
    /\ JsMap.get k older = None.
Proof.
  intros G. rewrite (set_absent k e swept G). unfold evict.
  destruct (100 <? JsMap.size (swept ++ [(k, e)])) eqn:Hbig;
    [|exists swept; auto].
  destruct swept as [|[k0 v0] rest].
  - vm_compute in Hbig; discriminate.
  - change (JsMap.first_key (((k0, v0) :: rest) ++ [(k, e)])) with (Some k0).
    cbv iota. destruct (truthy k0); [|eexists; eauto].
    simpl in G. destruct (Js.eqb k0 k) eqn:E0; [discriminate|].
    exists (JsMap.delete k0 ((k0, v0) :: rest)). split.
    + unfold JsMap.delete.
      rewrite filter_app. simpl.
      rewrite eqb_refl, (eqb_sym k k0), E0. reflexivity.
    + unfold JsMap.delete. apply get_filter_absent. simpl. rewrite E0. exact G.
Qed.

(** X2.  Round trip through the server cache.  When a synthesis had to call
    the vendor and got audio [a], the next synthesis of the same text and
    voice finds it: within 30 minutes of the moment it was stored the
    answer is that same audio, marked as cached, and the vendor is not
    called; later than that the entry is swept and the vendor is called
    again. *)
Theorem fresh_audio_is_served_from_cache :
  forall toLowerCase vendor clock db cache t v l u a n sz u0,
    body (response (synthesize toLowerCase vendor clock db cache t v l u))
    = AudioBody a false n sz u0 ->
    forall vendor' clock' db' l' u',
      let first := synthesize toLowerCase vendor clock db cache t v l u in
      let second :=
        synthesize toLowerCase vendor' clock' db' (cache_after first)
          t v l' u' in
      (at_sweep clock' - at_store clock <= CACHE_TTL_MS ->
       response second
       = {| status := 200;
            body := AudioBody a true (Js.length t) None u' |}
       /\ vendor_call second = None)
      /\ (CACHE_TTL_MS < at_sweep clock' - at_store clock ->
          exists q, vendor_call second = Some q /\ input q = t).
Proof.
  intros toLowerCase vendor clock db cache t v l u a n sz u0 Hbody
         vendor' clock' db' l' u'.
  cbv zeta.
  destruct (synthesize_fresh toLowerCase vendor clock db cache t v l u
              a n sz u0 Hbody) as [G E].
  destruct (evict_keeps_new _ {| audio := a; timestamp := at_store clock |}
              _ G) as (older & Eo & Go).
  rewrite E, Eo.
  assert (Hget :
    JsMap.get (getCacheKey toLowerCase t v model_name)
      (cleanCache (at_sweep clock') (older ++
         [(getCacheKey toLowerCase t v model_name,
           {| audio := a; timestamp := at_store clock |})]))
    = if CACHE_TTL_MS <? at_sweep clock' - at_store clock then None
      else Some {| audio := a; timestamp := at_store clock |}).
  { unfold cleanCache. rewrite filter_app.
    rewrite get_app_absent by (apply get_filter_absent, Go).
    simpl. destruct (CACHE_TTL_MS <? at_sweep clock' - at_store clock);
      simpl; [reflexivity|]. rewrite eqb_refl. reflexivity. }
  split; intros Ht.
  - apply Z.ltb_ge in Ht. rewrite Ht in Hget.
    rewrite (TtsFacts.synthesize_hit toLowerCase vendor' clock' db' _ t v l' u'
               _ Hget).
    split; reflexivity.
  - apply Z.ltb_lt in Ht. rewrite Ht in Hget.
    unfold synthesize. rewrite Hget.
    match goal with |- context [vendor' ?q] => destruct (vendor' q) as [r|] end;
      [|eexists; split; reflexivity].
    destruct (negb (vendor_ok r)).
    + destruct (vstatus r =? 401); [eexists; split; reflexivity|].
      destruct (vstatus r =? 429); [eexists; split; reflexivity|].
      destruct (carries_body (vstatus r)); eexists; split; reflexivity.
    + destruct (audio_data r); eexists; split; reflexivity.
Qed.

Lemma fresh_audio_is_served_from_cache_witness :
  let clock := {| at_usage_check := 0; at_sweep := 0; at_store := 5 |} in
  let later := {| at_usage_check := 9; at_sweep := 1800005; at_store := 9 |} in
  let db := LedgerFacts.one_row (LedgerFacts.pro_row 0 150000) in
  let first :=
    synthesize TtsFacts.ascii_lower (speaking_vendor "QUJD") clock db []
      (str "Hello") (str "henry") en_IN None in
  let second :=
    synthesize TtsFacts.ascii_lower (fun _ => Rejected) later db
      (cache_after first) (str "Hello") (str "henry") en_IN None in
  response second
  = {| status := 200;
       body := AudioBody "QUJD" true (Js.length (str "Hello")) None None |}
  /\ vendor_call second = None.
Proof.
  cbv zeta.
  refine (proj1 (fresh_audio_is_served_from_cache TtsFacts.ascii_lower
                   (speaking_vendor "QUJD")
                   {| at_usage_check := 0; at_sweep := 0; at_store := 5 |}
                   (LedgerFacts.one_row (LedgerFacts.pro_row 0 150000)) []
                   (str "Hello") (str "henry") en_IN None
                   "QUJD" _ _ _ _ _ _ _ _ _) _).
  - vm_compute. reflexivity.
  - vm_compute. discriminate.
Defined.

End CacheFacts.
(* ===================================================================== *)
(** * Properties of the [text-to-speech] handler as a whole *)
(* ===================================================================== *)

Module HandlerFacts.
Import Js Store Ledger Sanitizer TtsFunction.

Lemma truncate_length (cleanText : jsstring) :
  cleanText <> [] ->
  1 <= Js.length (truncate cleanText) <= 2003.
Proof.
  intros Hne. unfold truncate, Js.length, substring0, maxLength.
  destruct (Z.of_nat 2000 <? Z.of_nat (List.length cleanText)) eqn:Hlong.
  - apply Z.ltb_lt in Hlong.
    rewrite length_app, length_firstn.
    change (List.length (str "...")) with 3%nat. lia.
  - apply Z.ltb_ge in Hlong.
    destruct cleanText; [congruence | simpl List.length in *; lia].
Qed.

(** The language sent to the vendor: Hindi when the text has a Devanagari
    unit or the caller asked for Hindi, Indian English otherwise. *)
Definition detected (t language : jsstring) : jsstring :=
  if containsHindi t || Js.eqb language hi_IN then hi_IN else en_IN.

Section Runtime.

Variable toLowerCase : jsstring -> jsstring.

Local Abbreviation serve := (TtsFunction.serve toLowerCase).
Local Abbreviation synthesize := (TtsFunction.synthesize toLowerCase).

Lemma synthesize_call vendor clock db cache t v l u q :
  vendor_call (synthesize vendor clock db cache t v l u) = Some q ->
  q = {| input := t; voice_id := v; audio_format := "mp3";
         vmodel := model_name; vlanguage := detected t l |}.
Proof.
  assert (Hlang :
    (if containsHindi t then hi_IN
     else if Js.eqb l hi_IN then hi_IN else en_IN) = detected t l).
  { unfold detected. destruct (containsHindi t), (Js.eqb l hi_IN); reflexivity. }
  unfold TtsFunction.synthesize. rewrite Hlang.
  destruct (JsMap.get _ _); [simpl; discriminate|].
  match goal with |- context [vendor ?r] => destruct (vendor r) as [r'|] end;
    [|simpl; congruence].
  destruct (negb (vendor_ok r')).
  - destruct (vstatus r' =? 401); [simpl; congruence|].
    destruct (vstatus r' =? 429); [simpl; congruence|].
    destruct (carries_body (vstatus r')); simpl; congruence.
  - destruct (audio_data r'); simpl; congruence.
Qed.

(** The handler, request by request: it stops early with an error and no
    effect, or it answers a speakable text after the usage check. *)
Inductive served (env : Env) (fault updating : Fault)
  (vendor : VendorRequest -> VendorReply) (clock : Clock) (db : Db)
  (cache : AudioCache) : Request -> Outcome -> Prop :=
| served_early req r :
    (status r = 200 /\ body r = Preflight /\ req = Options)
    \/ (400 <= status r /\ exists e, body r = ErrorBody e None) ->
    served env fault updating vendor clock db cache req
      {| response := r; db_after := db; cache_after := cache;
         vendor_call := None |}
| served_denied b raw sid :
    text b = Some raw -> sanitizeText raw <> [] ->
    studentId b = Some sid ->
    canUse (fst (checkAndTrackUsage fault updating db sid
                   (Js.length (TtsFacts.spoken raw))
                   (at_usage_check clock))) = false ->
    served env fault updating vendor clock db cache (Post (Some b))
      (let check := checkAndTrackUsage fault updating db sid
                      (Js.length (TtsFacts.spoken raw))
                      (at_usage_check clock) in
       {| response := {| status := 200;
                         body := FallbackBody (reason (fst check))
                                   (usageInfo (fst check)) |};
          db_after := snd check; cache_after := cache;
          vendor_call := None |})
| served_tracked b raw sid :
    text b = Some raw -> sanitizeText raw <> [] ->
    studentId b = Some sid ->
    canUse (fst (checkAndTrackUsage fault updating db sid
                   (Js.length (TtsFacts.spoken raw))
                   (at_usage_check clock))) = true ->
    served env fault updating vendor clock db cache (Post (Some b))
      (let check := checkAndTrackUsage fault updating db sid
                      (Js.length (TtsFacts.spoken raw))
                      (at_usage_check clock) in
       synthesize vendor clock (snd check) cache (TtsFacts.spoken raw)
         (TtsFacts.voice_of b) (TtsFacts.language_of b)
         (usageInfo (fst check)))
| served_untracked b raw :
    text b = Some raw -> sanitizeText raw <> [] ->
    truthy_opt (studentId b) && truthy_opt (SUPABASE_URL env)
    && truthy_opt (SUPABASE_SERVICE_ROLE_KEY env) = false ->
    served env fault updating vendor clock db cache (Post (Some b))
      (synthesize vendor clock db cache (TtsFacts.spoken raw)
         (TtsFacts.voice_of b) (TtsFacts.language_of b) None).

Lemma serve_served env fault updating vendor clock db cache req :
  served env fault updating vendor clock db cache req
    (serve env fault updating vendor clock db cache req).
Proof.
  unfold TtsFunction.serve.
  destruct req as [|[b|]].
  - apply served_early. left. auto.
  - destruct (negb (truthy_opt (SPEECHIFY_API_KEY env))).
    { apply served_early. right. simpl. split; [lia | eauto]. }
    destruct (text b) as [[|c raw]|] eqn:Ht;
      try (apply served_early; right; simpl; split; [lia | eauto]).
    destruct (Js.length (sanitizeText (c :: raw)) =? 0) eqn:Hz.
    { apply served_early; right; simpl; split; [lia | eauto]. }
    apply TtsFacts.length_zero in Hz.
    destruct (truthy_opt (studentId b) && truthy_opt (SUPABASE_URL env)
              && truthy_opt (SUPABASE_SERVICE_ROLE_KEY env)) eqn:Htr.
    + destruct (studentId b) as [sid|] eqn:Hs; [|discriminate].
      fold (TtsFacts.spoken (c :: raw)).
      fold (TtsFacts.voice_of b). fold (TtsFacts.language_of b).
      destruct (checkAndTrackUsage fault updating db sid _ _) as [r db'] eqn:Hc.
      destruct (canUse r) eqn:Hu; simpl negb; cbv iota.
      * pose proof (served_tracked env fault updating vendor clock db cache b (c :: raw)
                      sid Ht Hz Hs) as S.
        rewrite Hc in S. apply S. exact Hu.
      * pose proof (served_denied env fault updating vendor clock db cache b (c :: raw)
                      sid Ht Hz Hs) as S.
        rewrite Hc in S. apply S. exact Hu.
    + fold (TtsFacts.spoken (c :: raw)).
      fold (TtsFacts.voice_of b). fold (TtsFacts.language_of b).
      apply served_untracked; auto.
  - destruct (negb (truthy_opt (SPEECHIFY_API_KEY env)));
      apply served_early; right; simpl; split; try lia; eauto.
Qed.

End Runtime.

(** X3.  Whatever reaches the vendor is the sanitised text of the request,
    cut to at most 2003 units and never empty, under the requested voice
    (henry by default), always with the multilingual model and the mp3
    format, and in Hindi exactly when the text has a Devanagari unit or the
    caller asked for hi-IN. *)
Theorem vendor_request_is_clean_and_bounded :
  forall toLowerCase env fault updating vendor clock db cache req q,
    vendor_call (serve toLowerCase env fault updating vendor clock db cache req)
    = Some q ->
    exists b raw,
      req = Post (Some b)
      /\ text b = Some raw
      /\ input q = truncate (sanitizeText raw)
      /\ 1 <= Js.length (input q) <= 2003
      /\ voice_id q = match voiceId b with Some v => v | None => str "henry" end
      /\ vmodel q = str "simba-multilingual"
      /\ audio_format q = "mp3"%string
      /\ vlanguage q
         = if containsHindi (input q)
              || match language b with
                 | Some l => Js.eqb l (str "hi-IN")
                 | None => false
                 end
           then str "hi-IN" else str "en-IN".
Proof.
  intros toLowerCase env fault updating vendor clock db cache req q Hq.
  assert (Hshape : forall b raw db' u,
    text b = Some raw -> sanitizeText raw <> [] ->
    vendor_call (synthesize toLowerCase vendor clock db' cache
                   (TtsFacts.spoken raw) (TtsFacts.voice_of b)
                   (TtsFacts.language_of b) u) = Some q ->
    exists b0 raw0,
      Post (Some b) = Post (Some b0)
      /\ text b0 = Some raw0
      /\ input q = truncate (sanitizeText raw0)
      /\ 1 <= Js.length (input q) <= 2003
      /\ voice_id q = match voiceId b0 with Some v => v | None => str "henry" end
      /\ vmodel q = str "simba-multilingual"
      /\ audio_format q = "mp3"%string
      /\ vlanguage q
         = if containsHindi (input q)
              || match language b0 with
                 | Some l => Js.eqb l (str "hi-IN")
                 | None => false
                 end
           then str "hi-IN" else str "en-IN").
  { intros b raw db' u Ht Hne Hcall.
    apply synthesize_call in Hcall. subst q. simpl.
    exists b, raw. repeat split; try assumption; try reflexivity;
      try (apply truncate_length; assumption).
    unfold detected, TtsFacts.language_of.
    destruct (language b); reflexivity. }
  destruct (serve_served toLowerCase env fault updating vendor clock db cache req)
    as [req r _ | b raw sid Ht Hne Hs Hu | b raw sid Ht Hne Hs Hu
        | b raw Ht Hne Hu];
    try (simpl in Hq; discriminate).
  - exact (Hshape b raw _ _ Ht Hne Hq).
  - exact (Hshape b raw _ _ Ht Hne Hq).
Qed.

Lemma vendor_request_is_clean_and_bounded_witness :
  exists b raw,
    Post (Some CacheFacts.hello_anonymous) = Post (Some b)
    /\ text b = Some raw
    /\ input {| input := str "Hello"; voice_id := str "henry";
                audio_format := "mp3"; vmodel := model_name;
                vlanguage := en_IN |}
       = truncate (sanitizeText raw).
Proof.
  destruct (vendor_request_is_clean_and_bounded TtsFacts.ascii_lower
              TtsFacts.configured Healthy Healthy (fun _ => Rejected)
              {| at_usage_check := 0; at_sweep := 0; at_store := 0 |}
              (LedgerFacts.one_row (LedgerFacts.pro_row 0 150000)) []
              (Post (Some CacheFacts.hello_anonymous))
              {| input := str "Hello"; voice_id := str "henry";
                 audio_format := "mp3"; vmodel := model_name;
                 vlanguage := en_IN |} eq_refl)
    as (b & raw & H1 & H2 & H3 & _).
  exists b, raw. auto.
Defined.

(** A subscription row with its usage counter blanked: what the handler
    must leave alone. *)
Definition apart_from_usage (s : Subscription) : Subscription :=
  set_tts_used s 0.

Lemma update_tts_used_frame db rid v :
  map apart_from_usage (subscriptions (update_tts_used db rid v))
  = map apart_from_usage (subscriptions db)
  /\ upgrade_requests (update_tts_used db rid v) = upgrade_requests db
  /\ students (update_tts_used db rid v) = students db
  /\ session_tokens (update_tts_used db rid v) = session_tokens db.
Proof.
  repeat split. unfold update_tts_used; simpl. rewrite map_map.
  apply map_ext. intros s. destruct (String.eqb (id s) rid); reflexivity.
Qed.

Lemma checkAndTrackUsage_frame fault updating db sid n now :
  let db' := snd (checkAndTrackUsage fault updating db sid n now) in
  map apart_from_usage (subscriptions db')
  = map apart_from_usage (subscriptions db)
  /\ upgrade_requests db' = upgrade_requests db
  /\ students db' = students db
  /\ session_tokens db' = session_tokens db.
Proof.
  cbv zeta. rewrite LedgerFacts.check_unfold.
  destruct (decide _ n now) as [r | rid v r]; simpl.
  - auto.
  - destruct updating; simpl; auto. apply update_tts_used_frame.
Qed.

(** X4.  The handler's only write is a usage counter.  After any request
    the store has the same upgrade requests, students and session tokens,
    and the same subscription rows in the same order with every column but
    [tts_used] as before: no request adds or removes a row, changes a plan,
    an end date or a limit. *)
Theorem serve_only_touches_usage_counters :
  forall toLowerCase env fault updating vendor clock db cache req,
    let db' := db_after (serve toLowerCase env fault updating vendor clock db cache req) in
    map apart_from_usage (subscriptions db')
    = map apart_from_usage (subscriptions db)
    /\ map tts_limit (subscriptions db') = map tts_limit (subscriptions db)
    /\ map plan (subscriptions db') = map plan (subscriptions db)
    /\ upgrade_requests db' = upgrade_requests db
    /\ students db' = students db
    /\ session_tokens db' = session_tokens db.
Proof.
  intros toLowerCase env fault updating vendor clock db cache req. cbv zeta.
  assert (Hcols : forall a b : list Subscription,
             map apart_from_usage a = map apart_from_usage b ->
             map tts_limit a = map tts_limit b /\ map plan a = map plan b).
  { intros a b E. split.
    - change tts_limit with (fun s => tts_limit (apart_from_usage s)).
      rewrite <- (map_map apart_from_usage tts_limit a),
              <- (map_map apart_from_usage tts_limit b), E. reflexivity.
    - change plan with (fun s => plan (apart_from_usage s)).
      rewrite <- (map_map apart_from_usage plan a),
              <- (map_map apart_from_usage plan b), E. reflexivity. }
  assert (Hfr :
    map apart_from_usage
      (subscriptions
         (db_after (serve toLowerCase env fault updating vendor clock db cache req)))
    = map apart_from_usage (subscriptions db)
    /\ upgrade_requests
         (db_after (serve toLowerCase env fault updating vendor clock db cache req))
       = upgrade_requests db
    /\ students
         (db_after (serve toLowerCase env fault updating vendor clock db cache req))
       = students db
    /\ session_tokens
         (db_after (serve toLowerCase env fault updating vendor clock db cache req))
       = session_tokens db).
  { destruct (serve_served toLowerCase env fault updating vendor clock db cache req)
      as [req r _ | b raw sid Ht Hne Hs Hu | b raw sid Ht Hne Hs Hu
          | b raw Ht Hne Hu]; cbv zeta;
      rewrite ?TtsFacts.synthesize_db; simpl db_after;
      auto using checkAndTrackUsage_frame. }
  destruct Hfr as (H1 & H2 & H3 & H4).
  destruct (Hcols _ _ H1) as [H5 H6]. auto 10.
Qed.

Ltac settle :=
  cbn [response db_after cache_after vendor_call body status error_response];
  repeat split; discriminate.

(** X5.  A request that names no student, or a deployment without store
    credentials, bypasses the ledger altogether: the store is neither read
    nor written, the answer is never the fall-back signal, and the
    response, the cache and the vendor call are the same whatever the
    store holds and however it behaves. *)
Theorem anonymous_requests_bypass_the_ledger :
  forall toLowerCase env fault fault' updating updating' vendor clock db db'
         cache b,
    truthy_opt (studentId b) = false
    \/ truthy_opt (SUPABASE_URL env) = false
    \/ truthy_opt (SUPABASE_SERVICE_ROLE_KEY env) = false ->
    let out := serve toLowerCase env fault updating vendor clock db cache
                 (Post (Some b)) in
    let other := serve toLowerCase env fault' updating' vendor clock db' cache
                   (Post (Some b)) in
    db_after out = db
    /\ response out = response other
    /\ cache_after out = cache_after other
    /\ vendor_call out = vendor_call other
    /\ forall why u, body (response out) = FallbackBody why u -> False.
Proof.
  intros toLowerCase env fault fault' updating updating' vendor clock db db'
    cache b Hanon.
  assert (Hoff : truthy_opt (studentId b) && truthy_opt (SUPABASE_URL env)
                 && truthy_opt (SUPABASE_SERVICE_ROLE_KEY env) = false).
  { destruct Hanon as [H | [H | H]]; rewrite H;
      rewrite ?andb_false_r; reflexivity. }
  cbv zeta. unfold serve. rewrite Hoff.
  destruct (negb (truthy_opt (SPEECHIFY_API_KEY env))); [settle|].
  destruct (text b) as [[|c raw]|]; try settle.
  destruct (Js.length (sanitizeText (c :: raw)) =? 0); [settle|].
  rewrite TtsFacts.synthesize_db.
  unfold synthesize.
  destruct (JsMap.get _ _); [settle|].
  match goal with |- context [vendor ?r] => destruct (vendor r) as [r'|] end;
    [|settle].
  destruct (negb (vendor_ok r')).
  - destruct (vstatus r' =? 401); [settle|].
    destruct (vstatus r' =? 429); [settle|].
    destruct (carries_body (vstatus r')); settle.
  - destruct (audio_data r'); settle.
Qed.

Lemma anonymous_requests_bypass_the_ledger_witness :
  let out :=
    serve TtsFacts.ascii_lower TtsFacts.configured Throwing Throwing
      (CacheFacts.speaking_vendor "QUJD")
      {| at_usage_check := 0; at_sweep := 0; at_store := 0 |}
      (LedgerFacts.one_row (LedgerFacts.pro_row 150000 150000)) []
      (Post (Some CacheFacts.hello_anonymous)) in
  db_after out = LedgerFacts.one_row (LedgerFacts.pro_row 150000 150000)
  /\ response out
     = {| status := 200;
          body := AudioBody "QUJD" false 5 (Some 3) None |}.
Proof.
  cbv zeta.
  destruct (anonymous_requests_bypass_the_ledger TtsFacts.ascii_lower
              TtsFacts.configured Throwing Healthy Throwing Healthy
              (CacheFacts.speaking_vendor "QUJD")
              {| at_usage_check := 0; at_sweep := 0; at_store := 0 |}
              (LedgerFacts.one_row (LedgerFacts.pro_row 150000 150000))
              (LedgerFacts.one_row (LedgerFacts.pro_row 150000 150000)) []
              CacheFacts.hello_anonymous (or_introl eq_refl))
    as (H1 & _).
  split; [exact H1 | vm_compute; reflexivity].
Defined.

(** A synthesis never answers with the fall-back signal. *)
Lemma synthesize_no_fallback toLowerCase vendor clock db cache t v l u why u0 :
  body (response (synthesize toLowerCase vendor clock db cache t v l u))
  = FallbackBody why u0 -> False.
Proof.
  unfold synthesize.
  destruct (JsMap.get _ _); [simpl; discriminate|].
  match goal with |- context [vendor ?q] => destruct (vendor q) as [r'|] end;
    [|simpl; discriminate].
  destruct (negb (vendor_ok r')).
  - destruct (vstatus r' =? 401); [simpl; discriminate|].
    destruct (vstatus r' =? 429); [simpl; discriminate|].
    destruct (carries_body (vstatus r')); simpl; discriminate.
  - destruct (audio_data r'); simpl; discriminate.
Qed.

(** X6.  Billing is bounded, and all or nothing as far as the store obeys.
    For a request that names a student with one subscription row, either
    the answer is the fall-back signal and nothing happened (no vendor
    call, store and cache as they were), or the student was entitled and
    the request went on as a granted one.  Then the stored counter grew by
    exactly the length of the spoken text, which lies between 1 and 2003,
    if the store applied the ledger's update, and the store is as it was if
    the store answered the update with an error, which the handler does not
    look at.  Any answer that carries audio is of the second kind. *)
Theorem tracked_request_is_denied_or_billed :
  forall toLowerCase env fault updating vendor clock db cache b raw sid sub,
    TtsFacts.tracked env b raw sid ->
    subscriptions_of db sid = [sub] ->
    let out := serve toLowerCase env fault updating vendor clock db cache
                 (Post (Some b)) in
    let n := Js.length (truncate (sanitizeText raw)) in
    1 <= n <= 2003
    /\ ((exists why u,
            body (response out) = FallbackBody (Some why) u
            /\ db_after out = db /\ cache_after out = cache
            /\ vendor_call out = None)
        \/ (entitled sub n (at_usage_check clock)
            /\ (updating = Healthy ->
                stored_usage (db_after out) sid = [tts_used sub + n])
            /\ (updating = Failing ->
                db_after out = db
                /\ stored_usage (db_after out) sid = [tts_used sub])
            /\ updating <> Throwing
            /\ forall why u, body (response out) = FallbackBody why u -> False)).
Proof.
  intros toLowerCase env fault updating vendor clock db cache b raw sid sub
    Htr Hrows.
  cbv zeta. split; [apply truncate_length, (TtsFacts.tracked_speakable _ _ _ _ Htr)|].
  rewrite (TtsFacts.serve_tracked toLowerCase env fault updating vendor clock
             db cache b raw sid Htr).
  cbv zeta. fold (TtsFacts.spoken raw).
  destruct (canUse (fst (checkAndTrackUsage fault updating db sid
                           (Js.length (TtsFacts.spoken raw))
                           (at_usage_check clock)))) eqn:Hu;
    simpl negb; cbv iota.
  - right.
    apply LedgerFacts.granted_iff in Hu.
    destruct Hu as (sub' & Hf & Hent & Hup).
    destruct (LedgerFacts.check_on_row fault updating db sid
                (Js.length (TtsFacts.spoken raw)) (at_usage_check clock)
                sub' Hf) as [Hyes _].
    destruct (Hyes Hent) as (_ & _ & Hs).
    apply LedgerFacts.fetch_some in Hf. destruct Hf as [_ Hf].
    rewrite Hrows in Hf. injection Hf as <-.
    rewrite TtsFacts.synthesize_db, Hs.
    split; [exact Hent|]. split; [|split; [|split]].
    + intros ->. cbn [LedgerFacts.applies]. unfold stored_usage.
      now rewrite (LedgerFacts.granted_row_updated db sid sub _ Hrows).
    + intros ->. cbn [LedgerFacts.applies]. split; [reflexivity|].
      unfold stored_usage. now rewrite Hrows.
    + exact Hup.
    + intros why u. apply synthesize_no_fallback.
  - left.
    pose proof (LedgerFacts.denied_store_unchanged fault updating db sid _ _ Hu)
      as Hdb.
    destruct (LedgerFacts.denied_reason fault updating db sid _ _ Hu)
      as [why Hwhy].
    rewrite Hdb, Hwhy. simpl. eauto 6.
Qed.

Lemma tracked_request_is_denied_or_billed_witness :
  1 <= Js.length (truncate (sanitizeText (str "Hello"))) <= 2003.
Proof.
  exact (proj1 (tracked_request_is_denied_or_billed TtsFacts.ascii_lower
                  TtsFacts.configured Healthy Failing (fun _ => Rejected)
                  {| at_usage_check := 0; at_sweep := 0; at_store := 0 |}
                  (LedgerFacts.one_row (LedgerFacts.pro_row 0 150000)) []
                  TtsFacts.hello_from_student (str "Hello") "student-1"
                  (LedgerFacts.pro_row 0 150000)
                  TtsFacts.hello_tracked eq_refl)).
Defined.

(** X7.  An unreadable subscription fails closed.  When a request names a
    student and the store answers the lookup with an error, rejects it, or
    holds no row or more than one row for the student, the handler answers
    200 with the fall-back signal and a reason, carries no usage figures,
    does not call the vendor, and leaves the store and the cache as they
    were. *)
Theorem unreadable_subscription_fails_closed :
  forall toLowerCase env fault updating vendor clock db cache b raw sid,
    TtsFacts.tracked env b raw sid ->
    fault = Failing \/ fault = Throwing
    \/ subscriptions_of db sid = []
    \/ (2 <= List.length (subscriptions_of db sid))%nat ->
    let out := serve toLowerCase env fault updating vendor clock db cache
                 (Post (Some b)) in
    status (response out) = 200
    /\ (exists why, body (response out) = FallbackBody (Some why) None)
    /\ vendor_call out = None
    /\ db_after out = db
    /\ cache_after out = cache.
Proof.
  intros toLowerCase env fault updating vendor clock db cache b raw sid Htr Hbad.
  cbv zeta.
  rewrite (TtsFacts.serve_tracked toLowerCase env fault updating vendor clock db cache
             b raw sid Htr).
  cbv zeta. rewrite LedgerFacts.check_unfold.
  assert (Hfetch :
    fetch_subscription fault db sid = Threw
    \/ fetch_subscription fault db sid = Answered QError
    \/ fetch_subscription fault db sid = Answered (QData None)).
  { unfold fetch_subscription.
    destruct Hbad as [-> | [-> | [Hnone | Hmany]]]; auto.
    - destruct fault; auto. rewrite Hnone. auto.
    - destruct fault; auto.
      destruct (subscriptions_of db sid) as [|s [|s' rows]];
        simpl in Hmany; try lia. auto. }
  destruct Hfetch as [-> | [-> | ->]]; simpl; eauto 6.
Qed.

Definition no_rows : Db :=
  {| subscriptions := []; upgrade_requests := []; students := [];
     session_tokens := [] |}.

Lemma unreadable_subscription_fails_closed_witness :
  let out :=
    serve TtsFacts.ascii_lower TtsFacts.configured Healthy Healthy
      (CacheFacts.speaking_vendor "QUJD")
      {| at_usage_check := 0; at_sweep := 0; at_store := 0 |}
      no_rows [] (Post (Some TtsFacts.hello_from_student)) in
  status (response out) = 200 /\ vendor_call out = None.
Proof.
  cbv zeta.
  destruct (unreadable_subscription_fails_closed TtsFacts.ascii_lower
              TtsFacts.configured Healthy Healthy
              (CacheFacts.speaking_vendor "QUJD")
              {| at_usage_check := 0; at_sweep := 0; at_store := 0 |}
              no_rows [] TtsFacts.hello_from_student (str "Hello") "student-1"
              TtsFacts.hello_tracked (or_intror (or_intror (or_introl eq_refl))))
    as (H1 & _ & H2 & _).
  split; assumption.
Defined.

(** ** The handler without usage tracking *)

Lemma synthesize_ignores_store toLowerCase vendor clock db db' cache t v l u :
  let a := synthesize toLowerCase vendor clock db cache t v l u in
  let b := synthesize toLowerCase vendor clock db' cache t v l u in
  response a = response b
  /\ cache_after a = cache_after b
  /\ vendor_call a = vendor_call b.
Proof.
  cbv zeta. unfold synthesize.
  destruct (JsMap.get _ _); [repeat split|].
  match goal with |- context [vendor ?q] => destruct (vendor q) as [r|] end;
    [|repeat split].
  destruct (negb (vendor_ok r)).
  - destruct (vstatus r =? 401); [repeat split|].
    destruct (vstatus r =? 429); [repeat split|].
    destruct (carries_body (vstatus r)); repeat split.
  - destruct (audio_data r); repeat split.
Qed.

(** X8.  The two revisions of the handler agree where they should.  On a
    request that names no student and whose sanitised text is at most 2000
    units long, the handler without usage tracking and the tracking handler
    give the same response, leave the same cache and make the same vendor
    call; they differ only in where they cut longer texts (5000 units
    against 2000), and the older one never touches a store. *)
Theorem untracked_handler_agrees_on_short_anonymous_requests :
  forall toLowerCase env fault updating vendor clock db cache req,
    (forall b, req = Post (Some b) ->
               truthy_opt (studentId b) = false
               /\ forall raw, text b = Some raw ->
                              Js.length (sanitizeText raw) <= 2000) ->
    let old := UntrackedTts.serve toLowerCase env vendor clock cache req in
    let new := serve toLowerCase env fault updating vendor clock db cache req in
    UntrackedTts.response old = response new
    /\ UntrackedTts.cache_after old = cache_after new
    /\ UntrackedTts.vendor_call old = vendor_call new
    /\ db_after new = db.
Proof.
  intros toLowerCase env fault updating vendor clock db cache req Hreq. cbv zeta.
  unfold UntrackedTts.serve, serve.
  destruct req as [|[b|]]; try (repeat split; reflexivity).
  - destruct (negb (truthy_opt (SPEECHIFY_API_KEY env)));
      [repeat split; reflexivity|].
    destruct (Hreq b eq_refl) as [Hanon Hshort].
    rewrite Hanon. cbn [andb].
    destruct (text b) as [[|c raw]|]; try (repeat split; reflexivity).
    destruct (Js.length (sanitizeText (c :: raw)) =? 0);
      [repeat split; reflexivity|].
    assert (Hcut : UntrackedTts.truncate (sanitizeText (c :: raw))
                   = truncate (sanitizeText (c :: raw))).
    { specialize (Hshort (c :: raw) eq_refl).
      unfold UntrackedTts.truncate, truncate, UntrackedTts.maxLength, maxLength.
      destruct (Z.of_nat 5000 <? Js.length (sanitizeText (c :: raw))) eqn:H5;
        [apply Z.ltb_lt in H5; lia|].
      destruct (Z.of_nat 2000 <? Js.length (sanitizeText (c :: raw))) eqn:H2;
        [apply Z.ltb_lt in H2; lia|].
      reflexivity. }
    rewrite Hcut. unfold UntrackedTts.synthesize.
    cbn [UntrackedTts.response UntrackedTts.cache_after
         UntrackedTts.vendor_call].
    rewrite TtsFacts.synthesize_db.
    match goal with
    | |- context [synthesize toLowerCase vendor clock ?e cache ?t ?v ?l None] =>
        destruct (synthesize_ignores_store toLowerCase vendor clock e db
                    cache t v l None) as (H1 & H2 & H3)
    end.
    repeat split; assumption.
  - destruct (negb (truthy_opt (SPEECHIFY_API_KEY env)));
      repeat split; reflexivity.
Qed.

Lemma untracked_handler_agrees_on_short_anonymous_requests_witness :
  UntrackedTts.response
    (UntrackedTts.serve TtsFacts.ascii_lower TtsFacts.configured
       (CacheFacts.speaking_vendor "QUJD")
       {| at_usage_check := 0; at_sweep := 0; at_store := 0 |} []
       (Post (Some CacheFacts.hello_anonymous)))
  = {| status := 200; body := AudioBody "QUJD" false 5 (Some 3) None |}.
Proof.
  assert (Hshort : forall b,
             Post (Some CacheFacts.hello_anonymous) = Post (Some b) ->
             truthy_opt (studentId b) = false
             /\ forall raw, text b = Some raw ->
                            Js.length (sanitizeText raw) <= 2000).
  { intros b Hb. injection Hb as <-. split; [reflexivity|].
    intros raw Hraw. injection Hraw as <-. vm_compute. discriminate. }
  rewrite (proj1 (untracked_handler_agrees_on_short_anonymous_requests
                    TtsFacts.ascii_lower TtsFacts.configured Healthy Healthy
                    (CacheFacts.speaking_vendor "QUJD")
                    {| at_usage_check := 0; at_sweep := 0; at_store := 0 |}
                    no_rows [] (Post (Some CacheFacts.hello_anonymous))
                    Hshort)).
  reflexivity.
Defined.

End HandlerFacts.
(* ===================================================================== *)
(** * Properties of the subscription actions *)
(* ===================================================================== *)

Module ActionFacts.
Import Store Ledger SubscriptionActions.

Lemma present_some field s : present field = Some s -> field = Some s /\ s <> ""%string.
Proof.
  unfold present. destruct field as [x|]; [|discriminate].
  destruct (String.eqb x "") eqn:E; [discriminate|].
  intros H; injection H as ->. apply String.eqb_neq in E. auto.
Qed.

Lemma single_row {A} (rows : list A) (r : A) :
  data_of (maybeSingle rows) = Some r -> rows = [r].
Proof.
  destruct rows as [|a [|b rows]]; simpl; try discriminate.
  intros H; injection H as ->; reflexivity.
Qed.

(** ** Who may act for a school *)

(** The token is that of a live session of [school]. *)
Definition live_school_session (db : Db) (tok school : string) (now : Z)
  : Prop :=
  exists row,
    filter (fun s => String.eqb (token s) tok) (session_tokens db) = [row]
    /\ is_revoked row = false
    /\ now <= expires_at row
    /\ user_type row = "school"%string
    /\ user_id row = school.

(** The student is a student of [school]. *)
Definition enrolled (db : Db) (sid school : string) : Prop :=
  exists s,
    filter (fun s => String.eqb (stu_id s) sid) (students db) = [s]
    /\ school_id s = school.

Lemma valid_session db tok school now :
  school <> ""%string ->
  ManageSubscription.valid
    (ManageSubscription.validateSchoolSession db tok (Some school) now) = true ->
  live_school_session db tok school now.
Proof.
  intros Hschool. unfold ManageSubscription.validateSchoolSession.
  destruct (maybeSingle (filter _ (session_tokens db))) as [[row|]|] eqn:Q;
    try (simpl; discriminate).
  apply LedgerFacts.maybeSingle_some in Q.
  destruct (is_revoked row || (expires_at row <? now)) eqn:Hlive;
    [simpl; discriminate|].
  destruct (negb (String.eqb (user_type row) "school")) eqn:Htype;
    [simpl; discriminate|].
  apply String.eqb_neq in Hschool. rewrite Hschool. simpl negb at 1.
  destruct (String.eqb (user_id row) school) eqn:Hid; simpl;
    [|discriminate].
  intros _. apply orb_false_iff in Hlive. destruct Hlive as [Hrev Hexp].
  apply Z.ltb_ge in Hexp. apply negb_false_iff, String.eqb_eq in Htype.
  apply String.eqb_eq in Hid.
  exists row. auto.
Qed.

Lemma in_school_enrolled db sid school :
  in_school (student_by_id db sid) school = true -> enrolled db sid school.
Proof.
  unfold in_school, student_by_id.
  destruct (data_of (maybeSingle (filter _ (students db)))) as [s|] eqn:Q;
    [|discriminate].
  apply single_row in Q. intros H; apply String.eqb_eq in H.
  exists s; auto.
Qed.

(** ** The actions, case by case *)

Lemma reject_request_cases clock updating db body :
  (success (fst (reject_request clock updating db body)) = false
   /\ snd (reject_request clock updating db body) = db)
  \/ exists tok school rid request,
       present (sessionToken body) = Some tok
       /\ present (schoolUuid body) = Some school
       /\ present (requestId body) = Some rid
       /\ ManageSubscription.valid
            (ManageSubscription.validateSchoolSession db tok (Some school)
               (at_validation clock)) = true
       /\ filter (fun r => String.eqb (req_id r) rid) (upgrade_requests db)
          = [request]
       /\ status request = pending
       /\ in_school (student_by_id db (req_student_id request)) school = true
       /\ reject_request clock updating db body
          = ({| code := 200; payload := Message "Request rejected" |},
             match updating with
             | Applied =>
                 with_upgrade_requests db
                   (map (fun r =>
                           if String.eqb (req_id r) rid
                           then reject r (at_processed clock) school
                                  match present (rejectionReason body) with
                                  | Some given => given
                                  | None => "Request rejected by school"%string
                                  end
                           else r)
                        (upgrade_requests db))
             | Refused => db
             end).
Proof.
  unfold reject_request.
  destruct (present (sessionToken body)) as [tok|]; [|left; auto].
  destruct (present (schoolUuid body)) as [school|]; [|left; auto].
  destruct (present (requestId body)) as [rid|]; [|left; auto].
  destruct (ManageSubscription.valid _) eqn:Hv; [|left; auto].
  unfold request_by_id.
  destruct (data_of (maybeSingle (filter _ (upgrade_requests db))))
    as [request|] eqn:Q; [|left; auto].
  apply single_row in Q.
  destruct (status_eqb (status request) pending) eqn:Hp; [|left; auto].
  destruct (in_school _ school) eqn:Hs; [|left; auto].
  right. exists tok, school, rid, request.
  repeat split; auto.
  destruct (status request); simpl in Hp; congruence.
Qed.

(** The store after the first update of [block_student]. *)
Definition pending_blocked (clock : Clock) (onRequests : Write) (db : Db)
  (school sid : string) : Db :=
  match onRequests with
  | Applied =>
      with_upgrade_requests db
        (map (fun r => if String.eqb (req_student_id r) sid
                          && status_eqb (status r) pending
                       then block r (at_processed clock) school
                       else r)
             (upgrade_requests db))
  | Refused => db
  end.

Lemma pending_blocked_subscriptions clock onRequests db school sid :
  subscriptions (pending_blocked clock onRequests db school sid)
  = subscriptions db.
Proof. destruct onRequests; reflexivity. Qed.

Lemma block_student_cases clock onRequests onSubscription db body :
  (success (fst (block_student clock onRequests onSubscription db body))
   = false
   /\ snd (block_student clock onRequests onSubscription db body) = db)
  \/ exists tok school sid,
       present (sessionToken body) = Some tok
       /\ present (schoolUuid body) = Some school
       /\ present (studentId body) = Some sid
       /\ ManageSubscription.valid
            (ManageSubscription.validateSchoolSession db tok (Some school)
               (at_validation clock)) = true
       /\ in_school (student_by_id db sid) school = true
       /\ block_student clock onRequests onSubscription db body
          = ({| code := 200;
                payload := Message "Student blocked from Pro access" |},
             match onSubscription with
             | Applied =>
                 downgrade_student
                   (pending_blocked clock onRequests db school sid) sid
             | Refused => pending_blocked clock onRequests db school sid
             end).
Proof.
  unfold block_student.
  destruct (present (sessionToken body)) as [tok|]; [|left; auto].
  destruct (present (schoolUuid body)) as [school|]; [|left; auto].
  destruct (present (studentId body)) as [sid|]; [|left; auto].
  destruct (ManageSubscription.valid _) eqn:Hv; [|left; auto].
  destruct (in_school _ school) eqn:Hs; [|left; auto].
  right. exists tok, school, sid. repeat split; auto.
Qed.

Lemma cancel_pro_cases now updating db body :
  (success (fst (cancel_pro now updating db body)) = false
   /\ snd (cancel_pro now updating db body) = db)
  \/ exists tok school sid,
       present (sessionToken body) = Some tok
       /\ present (schoolUuid body) = Some school
       /\ present (studentId body) = Some sid
       /\ ManageSubscription.valid
            (ManageSubscription.validateSchoolSession db tok (Some school) now)
          = true
       /\ in_school (student_by_id db sid) school = true
       /\ cancel_pro now updating db body
          = ({| code := 200; payload := Message "Pro subscription cancelled" |},
             match updating with
             | Applied => downgrade_student db sid
             | Refused => db
             end).
Proof.
  unfold cancel_pro.
  destruct (present (sessionToken body)) as [tok|]; [|left; auto].
  destruct (present (schoolUuid body)) as [school|]; [|left; auto].
  destruct (present (studentId body)) as [sid|]; [|left; auto].
  destruct (ManageSubscription.valid _) eqn:Hv; [|left; auto].
  destruct (in_school _ school) eqn:Hs; [|left; auto].
  right. exists tok, school, sid. repeat split; auto.
Qed.

(** The store after the first update of [approve_request]. *)
Definition request_approved (clock : ManageSubscription.Clock)
  (onRequest : Write) (db : Db) (school rid : string) : Db :=
  match onRequest with
  | Applied =>
      with_upgrade_requests db
        (map (fun r =>
                if String.eqb (req_id r) rid
                then ManageSubscription.approve r
                       (ManageSubscription.at_processed clock) school
                else r)
             (upgrade_requests db))
  | Refused => db
  end.

Lemma request_approved_subscriptions clock onRequest db school rid :
  subscriptions (request_approved clock onRequest db school rid)
  = subscriptions db.
Proof. destruct onRequest; reflexivity. Qed.

Lemma approve_request_cases clock onRequest onSubscription db body :
  (ManageSubscription.success
     (fst (ManageSubscription.approve_request clock onRequest onSubscription
             db body)) = false
   /\ snd (ManageSubscription.approve_request clock onRequest onSubscription
             db body) = db)
  \/ exists tok school rid request,
       ManageSubscription.sessionToken body = Some tok
       /\ ManageSubscription.schoolUuid body = Some school
       /\ ManageSubscription.requestId body = Some rid
       /\ school <> ""%string
       /\ ManageSubscription.valid
            (ManageSubscription.validateSchoolSession db tok (Some school)
               (ManageSubscription.at_validation clock)) = true
       /\ filter (fun r => String.eqb (req_id r) rid) (upgrade_requests db)
          = [request]
       /\ status request = pending
       /\ in_school (student_by_id db (req_student_id request)) school = true
       /\ ManageSubscription.success
            (fst (ManageSubscription.approve_request clock onRequest
                    onSubscription db body)) = true
       /\ snd (ManageSubscription.approve_request clock onRequest
                 onSubscription db body)
          = match onSubscription with
            | Applied =>
                with_subscriptions
                  (request_approved clock onRequest db school rid)
                  (map (fun s =>
                          if String.eqb (student_id s)
                               (req_student_id request)
                          then ManageSubscription.activate_pro s
                                 (ManageSubscription.at_start_date clock)
                                 (ManageSubscription.at_end_date clock
                                  + 30 * JsDate.msPerDay)
                          else s)
                       (subscriptions db))
            | Refused => request_approved clock onRequest db school rid
            end.
Proof.
  unfold ManageSubscription.approve_request.
  destruct (ManageSubscription.sessionToken body) as [tok|]; [|left; auto].
  destruct (ManageSubscription.schoolUuid body) as [school|]; [|left; auto].
  destruct (ManageSubscription.requestId body) as [rid|]; [|left; auto].
  destruct (negb (ManageSubscription.truthy_opt (Some tok))
            || negb (ManageSubscription.truthy_opt (Some school))
            || negb (ManageSubscription.truthy_opt (Some rid))) eqn:Hfields;
    [left; auto|].
  destruct (ManageSubscription.valid _) eqn:Hv; [|left; auto].
  simpl negb at 1. cbv iota.
  destruct (data_of (maybeSingle (filter _ (upgrade_requests db))))
    as [request|] eqn:Q; [|left; auto].
  apply single_row in Q.
  destruct (status_eqb (status request) pending) eqn:Hp; [|left; auto].
  simpl negb at 1. cbv iota.
  fold (student_by_id db (req_student_id request)).
  fold (in_school (student_by_id db (req_student_id request)) school).
  destruct (in_school _ school) eqn:Hs; [|left; auto].
  right. exists tok, school, rid, request.
  simpl negb. cbv iota. cbn [fst snd ManageSubscription.success].
  rewrite ApprovalFacts.setDate_getDate_plus.
  fold (request_approved clock onRequest db school rid).
  rewrite request_approved_subscriptions.
  repeat split; auto.
  - apply orb_false_iff in Hfields. destruct Hfields as [Hfields _].
    apply orb_false_iff in Hfields. destruct Hfields as [_ Hschool].
    apply negb_false_iff in Hschool. simpl in Hschool.
    intros ->. discriminate.
  - destruct (status request); simpl in Hp; congruence.
Qed.

(** X9.  School actions need authority.  A rejection, a block, a
    cancellation or an approval that reports success was asked for with the
    token of a live session (one row, not revoked, not expired, of type
    school) of the very school named in the request, and the student it
    concerns is enrolled in that school; one that does not report success
    leaves the store exactly as it was.  This holds whatever the store does
    with the updates. *)
Theorem school_actions_need_authority :
  (forall clock updating db body,
      let out := reject_request clock updating db body in
      (success (fst out) = false -> snd out = db)
      /\ (success (fst out) = true ->
          exists tok school request,
            sessionToken body = Some tok /\ schoolUuid body = Some school
            /\ live_school_session db tok school (at_validation clock)
            /\ In request (upgrade_requests db)
            /\ requestId body = Some (req_id request)
            /\ enrolled db (req_student_id request) school))
  /\ (forall clock onRequests onSubscription db body,
         let out := block_student clock onRequests onSubscription db body in
         (success (fst out) = false -> snd out = db)
         /\ (success (fst out) = true ->
             exists tok school sid,
               sessionToken body = Some tok /\ schoolUuid body = Some school
               /\ studentId body = Some sid
               /\ live_school_session db tok school (at_validation clock)
               /\ enrolled db sid school))
  /\ (forall now updating db body,
         let out := cancel_pro now updating db body in
         (success (fst out) = false -> snd out = db)
         /\ (success (fst out) = true ->
             exists tok school sid,
               sessionToken body = Some tok /\ schoolUuid body = Some school
               /\ studentId body = Some sid
               /\ live_school_session db tok school now
               /\ enrolled db sid school))
  /\ (forall clock onRequest onSubscription db body,
         let out :=
           ManageSubscription.approve_request clock onRequest onSubscription
             db body in
         (ManageSubscription.success (fst out) = false -> snd out = db)
         /\ (ManageSubscription.success (fst out) = true ->
             exists tok school request,
               ManageSubscription.sessionToken body = Some tok
               /\ ManageSubscription.schoolUuid body = Some school
               /\ live_school_session db tok school
                    (ManageSubscription.at_validation clock)
               /\ In request (upgrade_requests db)
               /\ ManageSubscription.requestId body = Some (req_id request)
               /\ enrolled db (req_student_id request) school)).
Proof.
  assert (Hrow : forall db rid request,
             filter (fun r => String.eqb (req_id r) rid) (upgrade_requests db)
             = [request] ->
             In request (upgrade_requests db) /\ rid = req_id request).
  { intros db rid request Hf.
    assert (Hin : In request (filter (fun r => String.eqb (req_id r) rid)
                                (upgrade_requests db)))
      by (rewrite Hf; now left).
    apply filter_In in Hin. destruct Hin as [Hin Hid].
    apply String.eqb_eq in Hid. auto. }
  split; [|split; [|split]].
  - intros clock updating db body. cbv zeta.
    destruct (reject_request_cases clock updating db body)
      as [[Hf Hdb] | (tok & school & rid & request & Ht & Hs & Hr & Hv & Hq
                      & _ & Hin & E)].
    + split; [auto | congruence].
    + rewrite E. cbn [fst snd]. split; [discriminate|]. intros _.
      apply present_some in Ht, Hs, Hr.
      destruct Ht as [Ht _], Hs as [Hs Hne], Hr as [Hr _].
      destruct (Hrow _ _ _ Hq) as [Hmem ->].
      exists tok, school, request.
      repeat split; auto using valid_session, in_school_enrolled.
  - intros clock onRequests onSubscription db body. cbv zeta.
    destruct (block_student_cases clock onRequests onSubscription db body)
      as [[Hf Hdb] | (tok & school & sid & Ht & Hs & Hr & Hv & Hin & E)].
    + split; [auto | congruence].
    + rewrite E. cbn [fst snd]. split; [discriminate|]. intros _.
      apply present_some in Ht, Hs, Hr.
      destruct Ht as [Ht _], Hs as [Hs Hne], Hr as [Hr _].
      exists tok, school, sid.
      repeat split; auto using valid_session, in_school_enrolled.
  - intros now updating db body. cbv zeta.
    destruct (cancel_pro_cases now updating db body)
      as [[Hf Hdb] | (tok & school & sid & Ht & Hs & Hr & Hv & Hin & E)].
    + split; [auto | congruence].
    + rewrite E. cbn [fst snd]. split; [discriminate|]. intros _.
      apply present_some in Ht, Hs, Hr.
      destruct Ht as [Ht _], Hs as [Hs Hne], Hr as [Hr _].
      exists tok, school, sid.
      repeat split; auto using valid_session, in_school_enrolled.
  - intros clock onRequest onSubscription db body. cbv zeta.
    destruct (approve_request_cases clock onRequest onSubscription db body)
      as [[Hf Hdb] | (tok & school & rid & request & Ht & Hs & Hr & Hne & Hv
                      & Hq & _ & Hin & Hok & _)].
    + split; [auto | congruence].
    + split; [congruence|]. intros _.
      destruct (Hrow _ _ _ Hq) as [Hmem ->].
      exists tok, school, request.
      repeat split; auto using valid_session, in_school_enrolled.
Qed.

(** A school, its student with a pending request, and a live session. *)
Definition reject_body : SubscriptionRequest :=
  {| sessionToken := Some "tok"%string; schoolUuid := Some "school-1"%string;
     studentId := Some "student-1"%string; requestId := Some "req-1"%string;
     rejectionReason := None; ttsCharacters := None |}.

Definition action_clock : Clock :=
  {| at_validation := 1793682000000; at_processed := 1793682000005 |}.

Lemma school_actions_need_authority_witness :
  exists tok school request,
    sessionToken reject_body = Some tok
    /\ schoolUuid reject_body = Some school
    /\ live_school_session ApprovalFacts.school_db tok school
         (at_validation action_clock)
    /\ In request (upgrade_requests ApprovalFacts.school_db)
    /\ requestId reject_body = Some (req_id request)
    /\ enrolled ApprovalFacts.school_db (req_student_id request) school.
Proof.
  exact (proj2 (proj1 school_actions_need_authority action_clock Applied
                  ApprovalFacts.school_db reject_body) eq_refl).
Defined.

(** ** Blocking and cancelling *)

Lemma subscriptions_of_downgrade db sid :
  subscriptions_of (downgrade_student db sid) sid
  = map downgrade (subscriptions_of db sid).
Proof.
  unfold subscriptions_of, downgrade_student; simpl.
  induction (subscriptions db) as [|s rows IH]; [reflexivity|].
  simpl. destruct (String.eqb (student_id s) sid) eqn:E; simpl.
  - rewrite E. simpl. rewrite IH. reflexivity.
  - rewrite E. exact IH.
Qed.

(** A student whose rows are all on the basic plan is refused by the
    ledger. *)
Lemma basic_rows_denied fault updating db sid n now :
  Forall (fun s => plan s = basic) (subscriptions_of db sid) ->
  canUse (fst (checkAndTrackUsage fault updating db sid n now)) = false.
Proof.
  intros Hbasic.
  destruct (canUse (fst (checkAndTrackUsage fault updating db sid n now)))
    eqn:Hc; [|reflexivity].
  apply LedgerFacts.granted_iff in Hc.
  destruct Hc as (sub & Hf & Hent & _).
  apply LedgerFacts.fetch_some in Hf. destruct Hf as [_ Hrows].
  rewrite Hrows in Hbasic. inversion Hbasic as [|? ? Hplan _]; subst.
  destruct Hent as [Hpro _]. congruence.
Qed.

Lemma downgraded_denied fault updating db sid n now :
  canUse (fst (checkAndTrackUsage fault updating (downgrade_student db sid)
                 sid n now))
  = false.
Proof.
  apply basic_rows_denied. rewrite subscriptions_of_downgrade.
  apply Forall_forall. intros s Hs. apply in_map_iff in Hs.
  destruct Hs as (s0 & <- & _). reflexivity.
Qed.

Lemma downgraded_usage db sid :
  stored_usage (downgrade_student db sid) sid = stored_usage db sid.
Proof.
  unfold stored_usage. rewrite subscriptions_of_downgrade, map_map.
  reflexivity.
Qed.

Lemma blocked_none_pending (rows : list UpgradeRequest) sid now school :
  filter (fun r => String.eqb (req_student_id r) sid
                   && status_eqb (status r) pending)
    (map (fun r => if String.eqb (req_student_id r) sid
                      && status_eqb (status r) pending
                   then block r now school else r) rows)
  = [].
Proof.
  induction rows as [|r rows IH]; [reflexivity|].
  simpl. destruct (String.eqb (req_student_id r) sid
                   && status_eqb (status r) pending) eqn:E.
  - simpl. rewrite andb_false_r. exact IH.
  - rewrite E. exact IH.
Qed.

(** The store that a successful [block_student] leaves, taken apart. *)
Lemma blocked_store clock onRequests onSubscription db school sid :
  let db' :=
    match onSubscription with
    | Applied =>
        downgrade_student (pending_blocked clock onRequests db school sid) sid
    | Refused => pending_blocked clock onRequests db school sid
    end in
  subscriptions db'
  = match onSubscription with
    | Applied => subscriptions (downgrade_student db sid)
    | Refused => subscriptions db
    end
  /\ upgrade_requests db'
     = upgrade_requests (pending_blocked clock onRequests db school sid).
Proof. destruct onRequests, onSubscription; split; reflexivity. Qed.

Lemma same_subscriptions_of db db' sid :
  subscriptions db' = subscriptions db ->
  subscriptions_of db' sid = subscriptions_of db sid.
Proof. unfold subscriptions_of. now intros ->. Qed.

Lemma same_pending_requests db db' sid :
  upgrade_requests db' = upgrade_requests db ->
  pending_requests_of db' sid = pending_requests_of db sid.
Proof. unfold pending_requests_of. now intros ->. Qed.

(** X10.  Blocking or cancelling takes effect at once when the store
    applies the update, and a block is not permanent.  After a successful
    [block_student] or [cancel_pro] whose update of the subscriptions the
    store applied, the ledger refuses the student every request, at any
    time and of any length; when the store refused that update, which the
    code does not look at, success is answered all the same and the
    subscriptions are as they were.  The usage counter keeps its value
    either way.  After a block whose update of the requests was applied the
    student has no pending request left, and with both updates applied a
    new [request_upgrade] of theirs is accepted as soon as the store takes
    the row. *)
Theorem blocked_or_cancelled_student_is_denied :
  (forall clock onRequests onSubscription db body,
      let out := block_student clock onRequests onSubscription db body in
      success (fst out) = true ->
      exists sid,
        studentId body = Some sid
        /\ (onSubscription = Applied ->
            forall fault updating n now,
              canUse (fst (checkAndTrackUsage fault updating (snd out) sid n
                             now))
              = false)
        /\ (onSubscription = Refused ->
            subscriptions (snd out) = subscriptions db)
        /\ stored_usage (snd out) sid = stored_usage db sid
        /\ (onRequests = Applied -> pending_requests_of (snd out) sid = [])
        /\ (onRequests = Refused ->
            upgrade_requests (snd out) = upgrade_requests db)
        /\ (onRequests = Applied -> onSubscription = Applied ->
            forall existingError subError rid,
              success (fst (request_upgrade existingError subError (Some rid)
                              (snd out) body))
              = true))
  /\ (forall now updating db body,
         let out := cancel_pro now updating db body in
         success (fst out) = true ->
         exists sid,
           studentId body = Some sid
           /\ (updating = Applied ->
               forall fault updating' n now',
                 canUse (fst (checkAndTrackUsage fault updating' (snd out) sid
                                n now'))
                 = false)
           /\ (updating = Refused -> snd out = db)
           /\ stored_usage (snd out) sid = stored_usage db sid).
Proof.
  split.
  - intros clock onRequests onSubscription db body out Hok. subst out.
    destruct (block_student_cases clock onRequests onSubscription db body)
      as [[Hf _] | (tok & school & sid & _ & _ & Hsid & _ & _ & E)];
      [congruence|].
    rewrite E. cbn [fst snd].
    destruct (blocked_store clock onRequests onSubscription db school sid)
      as [Hsubs Hreqs]. cbv zeta in Hsubs, Hreqs.
    exists sid. split; [apply (present_some _ _ Hsid)|].
    split; [|split; [|split; [|split; [|split]]]].
    + intros ->. intros. apply downgraded_denied.
    + intros ->. exact Hsubs.
    + destruct onSubscription.
      * rewrite downgraded_usage. unfold stored_usage.
        rewrite (same_subscriptions_of db); [reflexivity|].
        apply pending_blocked_subscriptions.
      * unfold stored_usage.
        rewrite (same_subscriptions_of db); [reflexivity|].
        apply pending_blocked_subscriptions.
    + intros ->.
      rewrite (same_pending_requests _ _ sid Hreqs).
      unfold pending_requests_of, pending_blocked. simpl.
      apply blocked_none_pending.
    + intros ->. rewrite Hreqs. reflexivity.
    + intros -> -> existingError subError rid.
      assert (Hpending :
        pending_requests_of
          (downgrade_student (pending_blocked clock Applied db school sid) sid)
          sid = []).
      { unfold pending_requests_of. simpl. apply blocked_none_pending. }
      unfold request_upgrade. rewrite Hsid, Hpending.
      assert (Hnone : looked_up existingError
                        (maybeSingle (@nil UpgradeRequest)) = None)
        by (destruct existingError; reflexivity).
      rewrite Hnone.
      rewrite subscriptions_of_downgrade.
      destruct subError; [reflexivity|]. cbn [looked_up].
      destruct (subscriptions_of _ sid) as [|s [|s' rows]]; reflexivity.
  - intros now updating db body out Hok. subst out.
    destruct (cancel_pro_cases now updating db body)
      as [[Hf _] | (tok & school & sid & _ & _ & Hsid & _ & _ & E)];
      [congruence|].
    rewrite E. cbn [fst snd].
    exists sid. split; [apply (present_some _ _ Hsid)|].
    split; [|split].
    + intros ->. intros. apply downgraded_denied.
    + intros ->. reflexivity.
    + destruct updating; [apply downgraded_usage | reflexivity].
Qed.

(** The approval scenario with both updates applied: the student is on the
    pro plan. *)
Definition pro_school_db : Db :=
  snd (ManageSubscription.approve_request ApprovalFacts.approval_clock
         Applied Applied ApprovalFacts.school_db ApprovalFacts.approve_body).

Lemma blocked_or_cancelled_student_is_denied_witness :
  canUse (fst (checkAndTrackUsage Healthy Healthy pro_school_db "student-1" 5
                 1793682000100)) = true
  /\ canUse (fst (checkAndTrackUsage Healthy Healthy
                    (snd (block_student action_clock Applied Applied
                            pro_school_db reject_body))
                    "student-1" 5 1793682000100)) = false.
Proof.
  split; [reflexivity|].
  destruct (proj1 blocked_or_cancelled_student_is_denied action_clock
              Applied Applied pro_school_db reject_body eq_refl)
    as (sid & Hsid & Hdeny & _).
  injection Hsid as <-. apply (Hdeny eq_refl).
Defined.

(** X11.  A rejection changes one request and nothing else.  When
    [reject_request] answers success, the request it names was pending,
    and subscriptions, students and session tokens are untouched, so the
    student's plan and usage stay as they were.  If the store applied the
    update, that request is the only row rewritten: it is now rejected,
    stamped with the school and the time, and carries the reason given, or
    "Request rejected by school" when none (or an empty one) was given.  If
    the store refused the update, which the code does not look at, success
    is answered all the same and the request is still pending. *)
Theorem rejection_changes_one_request :
  forall clock updating db body,
    let out := reject_request clock updating db body in
    success (fst out) = true ->
    exists school request,
      schoolUuid body = Some school
      /\ In request (upgrade_requests db)
      /\ status request = pending
      /\ requestId body = Some (req_id request)
      /\ (updating = Applied ->
          upgrade_requests (snd out)
          = map (fun r =>
                   if String.eqb (req_id r) (req_id request)
                   then {| req_id := req_id r;
                           req_student_id := req_student_id r;
                           status := rejected;
                           processed_at := Some (at_processed clock);
                           processed_by := Some school;
                           rejection_reason :=
                             Some match rejectionReason body with
                                  | Some ""%string | None =>
                                      "Request rejected by school"%string
                                  | Some given => given
                                  end |}
                   else r)
                (upgrade_requests db))
      /\ (updating = Refused -> snd out = db)
      /\ subscriptions (snd out) = subscriptions db
      /\ students (snd out) = students db
      /\ session_tokens (snd out) = session_tokens db.
Proof.
  intros clock updating db body out Hok. subst out.
  destruct (reject_request_cases clock updating db body)
    as [[Hf _] | (tok & school & rid & request & _ & Hs & Hr & _ & Hq
                  & Hp & _ & E)]; [congruence|].
  rewrite E. cbn [fst snd].
  assert (Hin : In request (filter (fun r => String.eqb (req_id r) rid)
                              (upgrade_requests db)))
    by (rewrite Hq; now left).
  apply filter_In in Hin. destruct Hin as [Hin Hid].
  apply String.eqb_eq in Hid. subst rid.
  exists school, request.
  split; [apply (present_some _ _ Hs)|].
  split; [exact Hin|]. split; [exact Hp|].
  split; [apply (present_some _ _ Hr)|].
  split; [|split; [|destruct updating; auto]].
  - intros ->. simpl. apply map_ext. intros r.
    destruct (String.eqb (req_id r) (req_id request)); [|reflexivity].
    unfold reject, present.
    destruct (rejectionReason body) as [[|c given]|]; reflexivity.
  - intros ->. reflexivity.
Qed.

Lemma rejection_changes_one_request_witness :
  upgrade_requests
    (snd (reject_request action_clock Applied ApprovalFacts.school_db
            reject_body))
  = [ {| req_id := "req-1"; req_student_id := "student-1";
         status := rejected;
         processed_at := Some 1793682000005;
         processed_by := Some "school-1"%string;
         rejection_reason := Some "Request rejected by school"%string |} ].
Proof.
  destruct (rejection_changes_one_request action_clock Applied
              ApprovalFacts.school_db reject_body eq_refl)
    as (school & request & Hs & Hin & _ & _ & Hrows & _).
  rewrite (Hrows eq_refl). injection Hs as <-.
  destruct Hin as [<- | []]. reflexivity.
Defined.

(** ** Asking for an upgrade *)

Lemma pending_after_insert db r sid :
  pending_requests_of
    (with_upgrade_requests db (upgrade_requests db ++ [r])) sid
  = pending_requests_of db sid
    ++ (if String.eqb (req_student_id r) sid && status_eqb (status r) pending
        then [r] else []).
Proof.
  unfold pending_requests_of. simpl. rewrite filter_app. reflexivity.
Qed.

(** The three steps of a call, taken back to back, are [request_upgrade]. *)
Lemma three_steps_are_one_request store db body :
  let one := step_upgrade store db (Asking body) in
  let two := step_upgrade store (snd one) (fst one) in
  let three := step_upgrade store (snd two) (fst two) in
  three
  = (Replied (fst (request_upgrade (existingError store) (subError store)
                     (inserted store) db body)),
     snd (request_upgrade (existingError store) (subError store)
            (inserted store) db body)).
Proof.
  cbv zeta. unfold request_upgrade. cbn [step_upgrade].
  destruct (present (studentId body)) as [sid|]; [|reflexivity].
  destruct (looked_up (existingError store) _); [reflexivity|].
  cbn [fst snd step_upgrade].
  destruct (match looked_up (subError store) _ with
            | Some s => plan_eqb (plan s) pro
            | None => false
            end); [reflexivity|].
  cbn [fst snd step_upgrade].
  destruct (inserted store); reflexivity.
Qed.

Definition upgrade_body : SubscriptionRequest :=
  {| sessionToken := None; schoolUuid := None;
     studentId := Some "student-2"%string; requestId := None;
     rejectionReason := None; ttsCharacters := None |}.

(** A store that answers every round trip of a call and gives the new row
    the id [rid]. *)
Definition answering (rid : string) : UpgradeStore :=
  {| existingError := false; subError := false; inserted := Some rid |}.

(** X12.  At most one pending request per student, as far as the code sees
    to it.  A call of [request_upgrade] that runs with no other request
    between its round trips, and whose lookup of pending requests the store
    answers, keeps a store in which no student has two pending requests so:
    it succeeds only for a student who has no pending request (and whose
    subscription, when that lookup is answered, is not pro), and then that
    student has exactly one pending request, the new one.  Whenever it
    fails the store is as it was, and it never changes a subscription.
    Nothing else guards the rule.  The code reads only the data of the
    lookup, so a lookup answered with an error reads as no pending request,
    and a student who has one gets a second; and the three round trips of
    two calls can interleave, so that both see no pending request and both
    insert one. *)
Theorem request_upgrade_keeps_one_pending_request :
  (forall subError inserted db body,
      (forall sid, (List.length (pending_requests_of db sid) <= 1)%nat) ->
      let out := request_upgrade false subError inserted db body in
      (forall sid, (List.length (pending_requests_of (snd out) sid) <= 1)%nat)
      /\ (success (fst out) = true ->
          exists sid rid,
            studentId body = Some sid
            /\ inserted = Some rid
            /\ pending_requests_of db sid = []
            /\ (subError = false ->
                forall sub, subscriptions_of db sid = [sub] ->
                            plan sub = basic)
            /\ pending_requests_of (snd out) sid = [new_request rid sid]))
  /\ (forall existingError subError inserted db body,
         let out := request_upgrade existingError subError inserted db body in
         (success (fst out) = false -> snd out = db)
         /\ subscriptions (snd out) = subscriptions db)
  /\ (let first :=
        request_upgrade false false (Some "req-2"%string)
          ApprovalFacts.school_db upgrade_body in
      let second :=
        request_upgrade true false (Some "req-3"%string) (snd first)
          upgrade_body in
      success (fst first) = true
      /\ success (fst second) = true
      /\ pending_requests_of (snd second) "student-2"
         = [new_request "req-2" "student-2";
            new_request "req-3" "student-2"])
  /\ (let out :=
        run_upgrades (answering "req-2") (answering "req-3")
          [First; Second; First; Second; First; Second]
          ApprovalFacts.school_db (Asking upgrade_body) (Asking upgrade_body) in
      accepted (fst (fst out)) = true
      /\ accepted (snd (fst out)) = true
      /\ pending_requests_of (snd out) "student-2"
         = [new_request "req-2" "student-2";
            new_request "req-3" "student-2"]).
Proof.
  split; [|split; [|split; vm_compute; auto]].
  - intros subError inserted db body Hinv. cbv zeta. unfold request_upgrade.
    destruct (present (studentId body)) as [sid|] eqn:Hsid;
      [|cbn [fst snd]; split; [auto | discriminate]].
    cbn [looked_up].
    destruct (data_of (maybeSingle (pending_requests_of db sid)))
      as [existing|] eqn:Hex; [cbn [fst snd]; split; [auto | discriminate]|].
    assert (Hnone : pending_requests_of db sid = []).
    { specialize (Hinv sid).
      destruct (pending_requests_of db sid) as [|r [|r' rows]];
        [reflexivity | discriminate | simpl in Hinv; lia]. }
    destruct (match looked_up subError
                      (maybeSingle (subscriptions_of db sid)) with
              | Some s => plan_eqb (plan s) pro
              | None => false
              end) eqn:Hpro; [cbn [fst snd]; split; [auto | discriminate]|].
    destruct inserted as [rid|];
      [|cbn [fst snd]; split; [auto | discriminate]].
    cbn [fst snd]. split.
    + intros sid'. rewrite pending_after_insert. simpl.
      destruct (String.eqb sid sid') eqn:E.
      * apply String.eqb_eq in E. subst sid'. rewrite Hnone. simpl. lia.
      * rewrite app_nil_r. apply Hinv.
    + intros _. exists sid, rid.
      split; [apply (present_some _ _ Hsid)|].
      split; [reflexivity|]. split; [exact Hnone|]. split.
      * intros -> sub Hrows. rewrite Hrows in Hpro. simpl in Hpro.
        destruct (plan sub); [reflexivity | discriminate].
      * rewrite pending_after_insert, Hnone. simpl.
        rewrite String.eqb_refl. reflexivity.
  - intros existingError subError inserted db body. cbv zeta.
    unfold request_upgrade.
    destruct (present (studentId body)) as [sid|]; [|split; auto].
    destruct (looked_up existingError _); [split; auto|].
    destruct (match looked_up subError _ with
              | Some s => plan_eqb (plan s) pro
              | None => false
              end); [split; auto|].
    destruct inserted; split; auto; discriminate.
Qed.

Lemma request_upgrade_keeps_one_pending_request_witness :
  pending_requests_of
    (snd (request_upgrade false false (Some "req-2"%string)
            ApprovalFacts.school_db upgrade_body)) "student-2"
  = [new_request "req-2" "student-2"]
  /\ success (fst (request_upgrade false false (Some "req-3"%string)
                     (snd (request_upgrade false false (Some "req-2"%string)
                             ApprovalFacts.school_db upgrade_body))
                     upgrade_body)) = false.
Proof.
  assert (Hinv : forall sid,
             (List.length (pending_requests_of ApprovalFacts.school_db sid)
              <= 1)%nat).
  { intros sid. unfold pending_requests_of.
    etransitivity; [apply filter_length_le | simpl; lia]. }
  destruct (proj1 request_upgrade_keeps_one_pending_request false
              (Some "req-2"%string) ApprovalFacts.school_db upgrade_body Hinv)
    as (_ & Hok).
  destruct (Hok eq_refl) as (sid & rid & Hsid & Hrid & _ & _ & Hnew).
  injection Hsid as <-. injection Hrid as <-.
  split; [exact Hnew | reflexivity].
Defined.

(** ** [increment_tts] and the ledger *)

(** The [usePremiumTTS] field of an answer. *)
Definition usePremiumTTS (r : Response) : bool :=
  match payload r with
  | GrantedPayload _ _ _ => true
  | _ => false
  end.

(** How the ledger's store behaves when the action's store does this with
    the update. *)
Definition fault_of (w : Write) : Fault :=
  match w with
  | Applied => Healthy
  | Refused => Failing
  end.

(** X13.  Two implementations of the quota rule agree.  For a named student
    and a non-zero character count, the [increment_tts] action grants
    exactly when [checkAndTrackUsage] would at the same instant, leaves the
    same store, and reports the same counters; and so whether the store
    applies the update or answers it with an error, which neither of them
    looks at. *)
Theorem increment_tts_agrees_with_the_ledger :
  forall updating db body sid characters now,
    present (studentId body) = Some sid ->
    ttsCharacters body = Some characters ->
    characters <> 0 ->
    let out := increment_tts updating db body now in
    let check :=
      checkAndTrackUsage Healthy (fault_of updating) db sid characters now in
    code (fst out) = 200
    /\ usePremiumTTS (fst out) = canUse (fst check)
    /\ snd out = snd check
    /\ forall used limit remaining,
         payload (fst out) = GrantedPayload used limit remaining ->
         exists u,
           usageInfo (fst check) = Some u
           /\ ttsUsed u = used /\ ttsLimit u = limit
           /\ ttsRemaining u = remaining.
Proof.
  intros updating db body sid n now Hsid Hn Hnz. cbv zeta.
  unfold increment_tts. rewrite Hsid, Hn.
  apply Z.eqb_neq in Hnz. rewrite Hnz.
  rewrite LedgerFacts.check_unfold.
  unfold fetch_subscription.
  destruct (maybeSingle (subscriptions_of db sid)) as [[sub|]|];
    cbn [data_of]; try (simpl; repeat split; discriminate).
  unfold decide.
  destruct (plan_eqb (plan sub) pro && is_active sub); simpl negb; cbv iota;
    [|simpl; repeat split; discriminate].
  destruct (isExpired sub now); simpl negb; cbv iota.
  { rewrite andb_false_r. simpl; repeat split; discriminate. }
  destruct (tts_used sub + n <=? tts_limit sub); simpl;
    [|repeat split; discriminate].
  destruct updating; simpl; repeat split;
    intros used limit remaining H; injection H as <- <- <-;
    eexists; repeat split.
Qed.

Definition increment_body : SubscriptionRequest :=
  {| sessionToken := None; schoolUuid := None;
     studentId := Some "student-1"%string; requestId := None;
     rejectionReason := None; ttsCharacters := Some 5 |}.

Lemma increment_tts_agrees_with_the_ledger_witness :
  usePremiumTTS
    (fst (increment_tts Applied
            (LedgerFacts.one_row (LedgerFacts.pro_row 0 150000))
            increment_body 0)) = true
  /\ snd (increment_tts Applied
            (LedgerFacts.one_row (LedgerFacts.pro_row 0 150000))
            increment_body 0)
     = LedgerFacts.one_row (LedgerFacts.pro_row 5 150000).
Proof.
  destruct (increment_tts_agrees_with_the_ledger Applied
              (LedgerFacts.one_row (LedgerFacts.pro_row 0 150000))
              increment_body "student-1" 5 0 eq_refl eq_refl)
    as (_ & Hgrant & Hdb & _); [discriminate|].
  rewrite Hgrant, Hdb. split; reflexivity.
Defined.

(** ** The expiry job *)

Lemma unique_by_id (rows : list Subscription) a b :
  NoDup (map id rows) -> In a rows -> In b rows -> id a = id b -> a = b.
Proof.
  induction rows as [|r rows IH]; simpl; [tauto|].
  intros Hnd Ha Hb Hid. inversion Hnd as [|? ? Hnot Hrest]; subst.
  destruct Ha as [-> | Ha], Hb as [-> | Hb]; auto.
  - exfalso. apply Hnot. rewrite Hid. apply in_map, Hb.
  - exfalso. apply Hnot. rewrite <- Hid. apply in_map, Ha.
Qed.

Lemma selected_by_id (keep : Subscription -> bool) rows s :
  NoDup (map id rows) -> In s rows ->
  existsb (String.eqb (id s)) (map id (filter keep rows)) = keep s.
Proof.
  intros Hnd Hin. destruct (keep s) eqn:Hk.
  - apply existsb_exists. exists (id s). split; [|apply String.eqb_refl].
    apply in_map, filter_In. auto.
  - destruct (existsb _ _) eqn:Hex; [|reflexivity].
    apply existsb_exists in Hex. destruct Hex as (i & Hi & Heq).
    apply String.eqb_eq in Heq. apply in_map_iff in Hi.
    destruct Hi as (s' & Hid & Hs'). apply filter_In in Hs'.
    destruct Hs' as [Hin' Hk'].
    assert (s = s') by (apply (unique_by_id rows); congruence).
    congruence.
Qed.

Lemma filter_none {A} (keep : A -> bool) (rows : list A) :
  Forall (fun s => keep s = false) rows -> filter keep rows = [].
Proof.
  induction 1 as [|s rows Hs _ IH]; [reflexivity|].
  simpl. rewrite Hs. exact IH.
Qed.

(** What the job does to a row. *)
Definition expire (now : Z) (s : Subscription) : Subscription :=
  if expired_pro now s then downgrade s else s.

Lemma check_expiry_rows now db :
  NoDup (map id (subscriptions db)) ->
  subscriptions (snd (check_expiry false false now db))
  = map (expire now) (subscriptions db).
Proof.
  intros Hnd. unfold check_expiry. cbn [snd negb andb].
  rewrite andb_true_r.
  destruct (0 <? Z.of_nat (List.length (filter (expired_pro now)
                                          (subscriptions db)))) eqn:Hany.
  - simpl. apply map_ext_in. intros s Hs. unfold expire.
    rewrite (selected_by_id (expired_pro now) _ s Hnd Hs). reflexivity.
  - apply Z.ltb_ge in Hany.
    assert (Hnone : filter (expired_pro now) (subscriptions db) = []).
    { destruct (filter _ _); [reflexivity | simpl in Hany; lia]. }
    rewrite <- (map_id (subscriptions db)) at 1.
    apply map_ext_in. intros s Hs. unfold expire.
    destruct (expired_pro now s) eqn:E; [|reflexivity].
    assert (Hin : In s (filter (expired_pro now) (subscriptions db)))
      by (apply filter_In; auto).
    rewrite Hnone in Hin. destruct Hin.
Qed.

(** X14.  The expiry job downgrades exactly the expired.  With row ids
    unique and the store answering, after [check_expiry] at a given instant
    every pro row whose end date lay before that instant is on the basic
    plan with no end date, every other row is as it was, the usage counters
    are kept, the reported count is the number of rows that were expired,
    and no expired pro row is left; running the job again at that instant
    changes nothing. *)
Theorem check_expiry_downgrades_exactly_the_expired :
  forall now db,
    NoDup (map id (subscriptions db)) ->
    let out := check_expiry false false now db in
    subscriptions (snd out) = map (expire now) (subscriptions db)
    /\ payload (fst out)
       = ExpiryPayload
           (Z.of_nat (List.length (filter (expired_pro now) (subscriptions db))))
    /\ map tts_used (subscriptions (snd out)) = map tts_used (subscriptions db)
    /\ Forall (fun s => expired_pro now s = false) (subscriptions (snd out))
    /\ snd (check_expiry false false now (snd out)) = snd out.
Proof.
  intros now db Hnd. cbv zeta.
  pose proof (check_expiry_rows now db Hnd) as Hrows.
  assert (Hclean : Forall (fun s => expired_pro now s = false)
                     (map (expire now) (subscriptions db))).
  { apply Forall_forall. intros s Hs. apply in_map_iff in Hs.
    destruct Hs as (s0 & <- & _). unfold expire.
    destruct (expired_pro now s0) eqn:E; [reflexivity | exact E]. }
  split; [exact Hrows|]. split; [reflexivity|]. split; [|split].
  - rewrite Hrows, map_map. apply map_ext. intros s. unfold expire.
    destruct (expired_pro now s); reflexivity.
  - rewrite Hrows. exact Hclean.
  - unfold check_expiry at 1. cbn [snd negb].
    rewrite Hrows, (filter_none _ _ Hclean). reflexivity.
Qed.

(** Two pro subscriptions, one past its end date. *)
Definition two_pro_rows : Db :=
  {| subscriptions :=
       [ {| id := "sub-1"; student_id := "student-1"; plan := pro;
            start_date := 0; end_date := Some 1000; tts_used := 70;
            tts_limit := 150000; is_active := true |};
         {| id := "sub-2"; student_id := "student-2"; plan := pro;
            start_date := 0; end_date := Some 3000; tts_used := 80;
            tts_limit := 150000; is_active := true |} ];
     upgrade_requests := []; students := []; session_tokens := [] |}.

Lemma check_expiry_downgrades_exactly_the_expired_witness :
  subscriptions (snd (check_expiry false false 2000 two_pro_rows))
  = [ {| id := "sub-1"; student_id := "student-1"; plan := basic;
         start_date := 0; end_date := None; tts_used := 70;
         tts_limit := 150000; is_active := true |};
      {| id := "sub-2"; student_id := "student-2"; plan := pro;
         start_date := 0; end_date := Some 3000; tts_used := 80;
         tts_limit := 150000; is_active := true |} ].
Proof.
  assert (Hnd : NoDup (map id (subscriptions two_pro_rows))).
  { simpl. repeat constructor; simpl; intuition discriminate. }
  rewrite (proj1 (check_expiry_downgrades_exactly_the_expired 2000
                    two_pro_rows Hnd)).
  reflexivity.
Defined.

Lemma expire_student now s : student_id (expire now s) = student_id s.
Proof. unfold expire. destruct (expired_pro now s); reflexivity. Qed.

Lemma subscriptions_of_map (f : Subscription -> Subscription) db db' sid :
  (forall s, student_id (f s) = student_id s) ->
  subscriptions db' = map f (subscriptions db) ->
  subscriptions_of db' sid = map f (subscriptions_of db sid).
Proof.
  intros Hf Hrows. unfold subscriptions_of. rewrite Hrows. clear Hrows.
  induction (subscriptions db) as [|s rows IH]; [reflexivity|].
  simpl. rewrite Hf. destruct (String.eqb (student_id s) sid); simpl;
    rewrite IH; reflexivity.
Qed.

Lemma decide_canUse f n now :
  canUse match decide f n now with
         | Deny r => r
         | Grant _ _ r => r
         end
  = match f with
    | Answered (QData (Some sub)) =>
        plan_eqb (plan sub) pro && is_active sub
        && negb (isExpired sub now)
        && (tts_used sub + n <=? tts_limit sub)
    | _ => false
    end.
Proof.
  destruct f as [|[[sub|]|]]; try reflexivity. unfold decide.
  destruct (plan_eqb (plan sub) pro && is_active sub); [|reflexivity].
  destruct (isExpired sub now); [reflexivity|].
  destruct (tts_used sub + n <=? tts_limit sub); reflexivity.
Qed.

(** Whether the awaited update resolves. *)
Definition resolves (updating : Fault) : bool :=
  match updating with
  | Throwing => false
  | _ => true
  end.

Lemma check_canUse fault updating db sid n now :
  canUse (fst (checkAndTrackUsage fault updating db sid n now))
  = canUse match decide (fetch_subscription fault db sid) n now with
           | Deny r => r
           | Grant _ _ r => r
           end
    && resolves updating.
Proof.
  rewrite LedgerFacts.check_unfold.
  destruct (decide _ n now) as [r | rid v r] eqn:D.
  - apply LedgerFacts.decide_deny_reason in D. destruct D as [D _].
    cbn [fst]. rewrite D. reflexivity.
  - destruct updating; simpl; rewrite ?andb_true_r, ?andb_false_r;
      reflexivity.
Qed.

(** X15.  The expiry job is bookkeeping only.  With row ids unique, running
    [check_expiry] never changes what the ledger decides from that instant
    on: any request, for any student, at the time of the job or later, is
    granted after the job exactly if it would have been granted without
    it. *)
Theorem check_expiry_changes_no_decision :
  forall now db fault updating sid n later,
    NoDup (map id (subscriptions db)) ->
    now <= later ->
    canUse (fst (checkAndTrackUsage fault updating
                   (snd (check_expiry false false now db)) sid n later))
    = canUse (fst (checkAndTrackUsage fault updating db sid n later)).
Proof.
  intros now db fault updating sid n later Hnd Hlater.
  rewrite !check_canUse, !decide_canUse. f_equal.
  unfold fetch_subscription. destruct fault; try reflexivity.
  rewrite (subscriptions_of_map (expire now) db _ sid (expire_student now)
             (check_expiry_rows now db Hnd)).
  destruct (subscriptions_of db sid) as [|sub [|sub' rows]]; try reflexivity.
  simpl map. cbn [maybeSingle]. unfold expire.
  destruct (expired_pro now sub) eqn:E; [|reflexivity].
  unfold expired_pro in E. apply andb_true_iff in E. destruct E as [_ E].
  assert (Hx : isExpired sub later = true).
  { unfold isExpired. destruct (end_date sub) as [e|]; [|discriminate].
    apply Z.ltb_lt in E. apply Z.ltb_lt. lia. }
  rewrite Hx. simpl. rewrite andb_false_r. reflexivity.
Qed.

Lemma check_expiry_changes_no_decision_witness :
  canUse (fst (checkAndTrackUsage Healthy Healthy
                 (snd (check_expiry false false 2000 two_pro_rows))
                 "student-2" 5 2500)) = true
  /\ canUse (fst (checkAndTrackUsage Healthy Healthy
                    (snd (check_expiry false false 2000 two_pro_rows))
                    "student-1" 5 2500)) = false.
Proof.
  assert (Hnd : NoDup (map id (subscriptions two_pro_rows))).
  { simpl. repeat constructor; simpl; intuition discriminate. }
  rewrite !(check_expiry_changes_no_decision 2000 two_pro_rows Healthy Healthy
              _ 5 2500 Hnd) by lia.
  split; reflexivity.
Defined.

(** ** From approval to the ledger *)

(** X16.  An approval opens a window of 30 days.  After a successful
    [approve_request] whose update of the subscriptions the store applied,
    a student with one subscription row is granted any request that fits
    the limit (if the ledger's awaited update does not reject), at every
    instant up to 30 days (30 times 86400000 ms) after the approval read
    the clock, counting from zero when the store applies the ledger's
    update, and is refused every request after that instant. *)
Theorem approval_opens_a_30_day_window :
  forall clock onRequest db body,
    ManageSubscription.success
      (fst (ManageSubscription.approve_request clock onRequest Applied db
              body)) = true ->
    exists request,
      In request (upgrade_requests db)
      /\ ManageSubscription.requestId body = Some (req_id request)
      /\ forall sub n,
           subscriptions_of db (req_student_id request) = [sub] ->
           n <= tts_limit sub ->
           let sid := req_student_id request in
           let db' :=
             snd (ManageSubscription.approve_request clock onRequest Applied
                    db body) in
           let closes :=
             ManageSubscription.at_end_date clock + 30 * 86400000 in
           (forall updating now,
               now <= closes ->
               updating <> Throwing ->
               canUse (fst (checkAndTrackUsage Healthy updating db' sid n now))
               = true
               /\ (updating = Healthy ->
                   stored_usage
                     (snd (checkAndTrackUsage Healthy updating db' sid n now))
                     sid = [n]))
           /\ (forall fault updating now,
                  closes < now ->
                  canUse (fst (checkAndTrackUsage fault updating db' sid n now))
                  = false).
Proof.
  intros clock onRequest db body Hok.
  destruct (approve_request_cases clock onRequest Applied db body)
    as [[Hf _] | (tok & school & rid & request & _ & _ & Hr & _ & _
                  & Hq & _ & _ & _ & E)]; [congruence|].
  assert (Hin : In request (filter (fun r => String.eqb (req_id r) rid)
                              (upgrade_requests db)))
    by (rewrite Hq; now left).
  apply filter_In in Hin. destruct Hin as [Hin Hid].
  apply String.eqb_eq in Hid. subst rid.
  exists request. split; [exact Hin|]. split; [exact Hr|].
  intros sub n Hrows Hfit. cbv zeta.
  set (sid := req_student_id request) in *.
  set (closes := ManageSubscription.at_end_date clock + 30 * 86400000).
  set (sub' := ManageSubscription.activate_pro sub
                 (ManageSubscription.at_start_date clock) closes).
  assert (Hsid : student_id sub = sid).
  { assert (Hs : In sub (subscriptions_of db sid)) by (rewrite Hrows; now left).
    apply filter_In in Hs. apply String.eqb_eq, Hs. }
  assert (Hrows' :
    subscriptions_of
      (snd (ManageSubscription.approve_request clock onRequest Applied db
              body)) sid
    = [sub']).
  { rewrite (subscriptions_of_map
               (fun s => if String.eqb (student_id s) sid
                         then ManageSubscription.activate_pro s
                                (ManageSubscription.at_start_date clock)
                                (ManageSubscription.at_end_date clock
                                 + 30 * JsDate.msPerDay)
                         else s)
               db _ sid).
    - rewrite Hrows. simpl. rewrite Hsid, String.eqb_refl. reflexivity.
    - intros s. destruct (String.eqb (student_id s) sid); reflexivity.
    - rewrite E. reflexivity. }
  assert (Hfetch : forall db0,
             subscriptions_of db0 sid = [sub'] ->
             fetch_subscription Healthy db0 sid = Answered (QData (Some sub'))).
  { intros db0 H0. unfold fetch_subscription. rewrite H0. reflexivity. }
  split.
  - intros updating now Hnow Hup.
    assert (Hent : entitled sub' n now).
    { unfold entitled, sub'. simpl. repeat split; auto. }
    destruct (LedgerFacts.check_on_row Healthy updating _ sid n now sub'
                (Hfetch _ Hrows')) as [Hgrant _].
    destruct (Hgrant Hent) as (Hcan & _ & Hdb).
    split; [exact (proj1 (Hcan Hup))|].
    intros ->. rewrite Hdb. cbn [LedgerFacts.applies]. unfold stored_usage.
    rewrite (LedgerFacts.granted_row_updated _ sid sub' _ Hrows').
    reflexivity.
  - intros fault updating now Hlate.
    rewrite check_canUse, decide_canUse.
    unfold fetch_subscription. destruct fault; try reflexivity.
    rewrite Hrows'. cbn [maybeSingle].
    assert (Hx : isExpired sub' now = true).
    { unfold isExpired, sub'. simpl. apply Z.ltb_lt. exact Hlate. }
    rewrite Hx. simpl. rewrite ?andb_false_r. reflexivity.
Qed.

Lemma approval_opens_a_30_day_window_witness :
  canUse (fst (checkAndTrackUsage Healthy Healthy pro_school_db "student-1"
                 150000 (1793682000007 + 30 * 86400000))) = true
  /\ canUse (fst (checkAndTrackUsage Healthy Healthy pro_school_db "student-1"
                    1 (1793682000007 + 30 * 86400000 + 1))) = false.
Proof.
  destruct (approval_opens_a_30_day_window ApprovalFacts.approval_clock
              Applied ApprovalFacts.school_db ApprovalFacts.approve_body
              eq_refl)
    as (request & Hin & _ & Hwindow).
  destruct Hin as [<- | []].
  split.
  - refine (proj1 (proj1 (Hwindow _ 150000 eq_refl _) Healthy _ _ _)).
    + simpl. lia.
    + simpl. lia.
    + discriminate.
  - refine (proj2 (Hwindow _ 1 eq_refl _) Healthy Healthy _ _).
    + simpl. lia.
    + simpl. lia.
Defined.

(** ** What no action does *)

(** The columns of a subscription that identify it and cap its usage. *)
Definition identity (s : Subscription) : string * string * Z :=
  (id s, student_id s, tts_limit s).

(** The row [s'] is the row [s], possibly rewritten: same id, student and
    limit, and active if [s] was. *)
Definition same_row (s s' : Subscription) : Prop :=
  identity s' = identity s
  /\ (is_active s = true -> is_active s' = true).

(** [db'] has the subscription rows of [db], one for one in the same
    order, each with the id, student and limit it had and none
    deactivated; the same students and session tokens; and no fewer
    upgrade requests. *)
Definition preserved (db db' : Db) : Prop :=
  Forall2 same_row (subscriptions db) (subscriptions db')
  /\ students db' = students db
  /\ session_tokens db' = session_tokens db
  /\ map req_id (firstn (List.length (upgrade_requests db))
                   (upgrade_requests db'))
     = map req_id (upgrade_requests db).

Lemma same_rows (f : Subscription -> Subscription) rows :
  (forall s, identity (f s) = identity s) ->
  (forall s, is_active s = true -> is_active (f s) = true) ->
  Forall2 same_row rows (map f rows).
Proof.
  intros Hid Hactive.
  induction rows as [|s rows IH]; simpl; constructor; [|exact IH].
  split; [apply Hid | apply Hactive].
Qed.

Lemma same_rows_refl rows : Forall2 same_row rows rows.
Proof.
  rewrite <- (map_id rows) at 2. apply same_rows; auto.
Qed.

Lemma preserved_refl db : preserved db db.
Proof.
  unfold preserved. repeat split; auto using same_rows_refl.
  rewrite firstn_all. reflexivity.
Qed.

Lemma preserved_rows (f : Subscription -> Subscription)
  (g : UpgradeRequest -> UpgradeRequest) db db' :
  (forall s, identity (f s) = identity s) ->
  (forall s, is_active s = true -> is_active (f s) = true) ->
  (forall r, req_id (g r) = req_id r) ->
  subscriptions db' = map f (subscriptions db) ->
  upgrade_requests db' = map g (upgrade_requests db) ->
  students db' = students db ->
  session_tokens db' = session_tokens db ->
  preserved db db'.
Proof.
  intros Hid Hactive Hreq Hsubs Hreqs Hstu Htok.
  unfold preserved. rewrite Hsubs, Hreqs.
  repeat split; auto using same_rows.
  rewrite <- (length_map g), firstn_all, map_map.
  apply map_ext, Hreq.
Qed.

(** A store that has the subscriptions of one preserved store and the
    requests, students and tokens of another is preserved. *)
Lemma preserved_mix db a b c :
  preserved db a -> preserved db b ->
  subscriptions c = subscriptions a ->
  upgrade_requests c = upgrade_requests b ->
  students c = students db ->
  session_tokens c = session_tokens db ->
  preserved db c.
Proof.
  intros (Ha & _) (_ & _ & _ & Hb) Hs Hr Hstu Htok.
  unfold preserved. rewrite Hs, Hr. auto.
Qed.

(** X17.  No action of [manage-subscription] creates or deletes a
    subscription, moves it to another student, changes its limit or
    deactivates it: after any action the store has the subscription rows
    it had, one for one in the same order, each with the id, the student
    and the limit it had, and active if it was.  None touches the students
    or the session tokens; and none deletes an upgrade request or changes
    its id.  This holds for every request body, clock reading and store
    answer, whether the action succeeds or not. *)
Theorem actions_keep_rows_and_limits :
  forall db,
    (forall existingError subError inserted body,
        preserved db
          (snd (request_upgrade existingError subError inserted db body)))
    /\ (forall updating body now,
           preserved db (snd (increment_tts updating db body now)))
    /\ (forall clock updating body,
           preserved db (snd (reject_request clock updating db body)))
    /\ (forall clock onRequests onSubscription body,
           preserved db
             (snd (block_student clock onRequests onSubscription db body)))
    /\ (forall now updating body,
           preserved db (snd (cancel_pro now updating db body)))
    /\ (forall expiredError updateError now,
           preserved db (snd (check_expiry expiredError updateError now db)))
    /\ (forall clock onRequest onSubscription body,
           preserved db
             (snd (ManageSubscription.approve_request clock onRequest
                     onSubscription db body))).
Proof.
  intros db.
  assert (Hdown : forall s, identity (downgrade s) = identity s)
    by reflexivity.
  split; [|split; [|split; [|split; [|split; [|split]]]]].
  - intros existingError subError inserted body. unfold request_upgrade.
    destruct (present (studentId body)) as [sid|]; [|apply preserved_refl].
    destruct (looked_up existingError _); [apply preserved_refl|].
    destruct (match looked_up subError _ with
              | Some s => plan_eqb (plan s) pro
              | None => false
              end); [apply preserved_refl|].
    destruct inserted as [rid|]; [|apply preserved_refl].
    cbn [snd]. destruct (preserved_refl db) as (H1 & H2 & H3 & _).
    unfold preserved. simpl. repeat split; auto.
    rewrite firstn_app, firstn_all, Nat.sub_diag. simpl.
    rewrite app_nil_r. reflexivity.
  - intros updating body now. unfold increment_tts.
    destruct (present (studentId body)) as [sid|]; [|apply preserved_refl].
    destruct (ttsCharacters body) as [n|]; [|apply preserved_refl].
    destruct (n =? 0); [apply preserved_refl|].
    destruct (data_of (maybeSingle (subscriptions_of db sid))) as [sub|];
      [|apply preserved_refl].
    destruct (plan_eqb (plan sub) pro && is_active sub
              && (tts_used sub + n <=? tts_limit sub)
              && negb (isExpired sub now)); [|apply preserved_refl].
    cbn [snd]. destruct updating; [|apply preserved_refl].
    apply (preserved_rows
             (fun s => if String.eqb (id s) (id sub)
                       then set_tts_used s (tts_used sub + n) else s)
             (fun r => r)); auto.
    + intros s. destruct (String.eqb (id s) (id sub)); reflexivity.
    + intros s. destruct (String.eqb (id s) (id sub)); auto.
    + simpl. rewrite map_id. reflexivity.
  - intros clock updating body.
    destruct (reject_request_cases clock updating db body)
      as [[_ ->] | (tok & school & rid & request & _ & _ & _ & _ & _ & _ & _
                    & ->)]; [apply preserved_refl|].
    cbn [snd]. destruct updating; [|apply preserved_refl].
    apply (preserved_rows (fun s => s)
             (fun r => if String.eqb (req_id r) rid
                       then reject r (at_processed clock) school
                              match present (rejectionReason body) with
                              | Some given => given
                              | None => "Request rejected by school"%string
                              end
                       else r)); auto.
    + intros r. destruct (String.eqb (req_id r) rid); reflexivity.
    + simpl. rewrite map_id. reflexivity.
  - intros clock onRequests onSubscription body.
    destruct (block_student_cases clock onRequests onSubscription db body)
      as [[_ ->] | (tok & school & sid & _ & _ & _ & _ & _ & ->)];
      [apply preserved_refl|].
    cbn [snd].
    assert (Hsubs : preserved db (downgrade_student db sid)).
    { apply (preserved_rows
               (fun s => if String.eqb (student_id s) sid
                         then downgrade s else s)
               (fun r => r)); auto.
      - intros s. destruct (String.eqb (student_id s) sid); reflexivity.
      - intros s. destruct (String.eqb (student_id s) sid); auto.
      - simpl. rewrite map_id. reflexivity. }
    assert (Hreqs : preserved db
                      (pending_blocked clock onRequests db school sid)).
    { destruct onRequests; [|apply preserved_refl].
      apply (preserved_rows (fun s => s)
               (fun r => if String.eqb (req_student_id r) sid
                            && status_eqb (status r) pending
                         then block r (at_processed clock) school else r));
        auto.
      - intros r. destruct (String.eqb (req_student_id r) sid
                            && status_eqb (status r) pending); reflexivity.
      - simpl. rewrite map_id. reflexivity. }
    destruct onSubscription; [|exact Hreqs].
    apply (preserved_mix db (downgrade_student db sid)
             (pending_blocked clock onRequests db school sid));
      auto; destruct onRequests; reflexivity.
  - intros now updating body.
    destruct (cancel_pro_cases now updating db body)
      as [[_ ->] | (tok & school & sid & _ & _ & _ & _ & _ & ->)];
      [apply preserved_refl|].
    cbn [snd]. destruct updating; [|apply preserved_refl].
    apply (preserved_rows
             (fun s => if String.eqb (student_id s) sid
                       then downgrade s else s)
             (fun r => r)); auto.
    + intros s. destruct (String.eqb (student_id s) sid); reflexivity.
    + intros s. destruct (String.eqb (student_id s) sid); auto.
    + simpl. rewrite map_id. reflexivity.
  - intros expiredError updateError now. unfold check_expiry.
    destruct expiredError; [apply preserved_refl|]. cbn [snd].
    destruct ((0 <? Z.of_nat (List.length (filter (expired_pro now)
                                             (subscriptions db))))
              && negb updateError); [|apply preserved_refl].
    apply (preserved_rows
             (fun s => if existsb (String.eqb (id s))
                            (map id (filter (expired_pro now)
                                       (subscriptions db)))
                       then downgrade s else s)
             (fun r => r)); auto.
    + intros s. destruct (existsb _ _); reflexivity.
    + intros s. destruct (existsb _ _); auto.
    + simpl. rewrite map_id. reflexivity.
  - intros clock onRequest onSubscription body.
    destruct (approve_request_cases clock onRequest onSubscription db body)
      as [[_ ->] | (tok & school & rid & request & _ & _ & _ & _ & _ & _ & _
                    & _ & _ & ->)]; [apply preserved_refl|].
    assert (Hreqs : preserved db
                      (request_approved clock onRequest db school rid)).
    { destruct onRequest; [|apply preserved_refl].
      apply (preserved_rows (fun s => s)
               (fun r => if String.eqb (req_id r) rid
                         then ManageSubscription.approve r
                                (ManageSubscription.at_processed clock) school
                         else r)); auto.
      - intros r. destruct (String.eqb (req_id r) rid); reflexivity.
      - simpl. rewrite map_id. reflexivity. }
    destruct onSubscription; [|exact Hreqs].
    assert (Hsubs :
      preserved db
        (with_subscriptions db
           (map (fun s =>
                   if String.eqb (student_id s) (req_student_id request)
                   then ManageSubscription.activate_pro s
                          (ManageSubscription.at_start_date clock)
                          (ManageSubscription.at_end_date clock
                           + 30 * JsDate.msPerDay)
                   else s)
                (subscriptions db)))).
    { apply (preserved_rows
               (fun s => if String.eqb (student_id s) (req_student_id request)
                         then ManageSubscription.activate_pro s
                                (ManageSubscription.at_start_date clock)
                                (ManageSubscription.at_end_date clock
                                 + 30 * JsDate.msPerDay)
                         else s)
               (fun r => r)); auto.
      - intros s.
        destruct (String.eqb (student_id s) (req_student_id request));
          reflexivity.
      - intros s.
        destruct (String.eqb (student_id s) (req_student_id request)); auto.
      - simpl. rewrite map_id. reflexivity. }
    apply (preserved_mix db _ _ _ Hsubs Hreqs);
      auto; destruct onRequest; reflexivity.
Qed.

(** ** The quota invariant *)

(** No counter is above its limit, and no limit is negative. *)
Definition within_limits (db : Db) : Prop :=
  Forall (fun s => 0 <= tts_limit s /\ tts_used s <= tts_limit s)
         (subscriptions db).

Definition unique_ids (db : Db) : Prop := NoDup (map id (subscriptions db)).

(** The invariant passes to a store whose rows are those of [db] rewritten
    one by one, when the rewriting keeps ids and respects the invariant. *)
Lemma limits_kept (f : Subscription -> Subscription) db db' :
  subscriptions db' = map f (subscriptions db) ->
  (forall s, id (f s) = id s) ->
  (forall s, In s (subscriptions db) ->
             0 <= tts_limit s /\ tts_used s <= tts_limit s ->
             0 <= tts_limit (f s) /\ tts_used (f s) <= tts_limit (f s)) ->
  unique_ids db /\ within_limits db ->
  unique_ids db' /\ within_limits db'.
Proof.
  intros Hrows Hid Hf [Hu Hw]. unfold unique_ids, within_limits in *.
  rewrite Hrows. split.
  - rewrite map_map. rewrite (map_ext _ id Hid). exact Hu.
  - rewrite Forall_forall in *. intros s' Hs'. apply in_map_iff in Hs'.
    destruct Hs' as (s & <- & Hs). apply Hf; auto.
Qed.

Lemma limits_same db db' :
  subscriptions db' = subscriptions db ->
  unique_ids db /\ within_limits db -> unique_ids db' /\ within_limits db'.
Proof.
  intros Hrows [Hu Hw]. unfold unique_ids, within_limits. rewrite Hrows. auto.
Qed.

(** Raising the counter of the row that was read, within its limit. *)
Lemma limits_after_update db sid sub v :
  subscriptions_of db sid = [sub] ->
  v <= tts_limit sub ->
  unique_ids db /\ within_limits db ->
  unique_ids (update_tts_used db (id sub) v)
  /\ within_limits (update_tts_used db (id sub) v).
Proof.
  intros Hrows Hv Hinv.
  assert (Hin : In sub (subscriptions db)).
  { assert (H : In sub (subscriptions_of db sid)) by (rewrite Hrows; now left).
    apply filter_In in H. apply H. }
  apply (limits_kept
           (fun s => if String.eqb (id s) (id sub) then set_tts_used s v else s)
           db); auto.
  - intros s. destruct (String.eqb (id s) (id sub)); reflexivity.
  - intros s Hs Hok. destruct (String.eqb (id s) (id sub)) eqn:E; [|exact Hok].
    apply String.eqb_eq in E.
    assert (s = sub) by (apply (unique_by_id (subscriptions db)); tauto).
    subst s. simpl. tauto.
Qed.

Lemma limits_after_check fault updating db sid n now :
  unique_ids db /\ within_limits db ->
  unique_ids (snd (checkAndTrackUsage fault updating db sid n now))
  /\ within_limits (snd (checkAndTrackUsage fault updating db sid n now)).
Proof.
  intros Hinv. rewrite LedgerFacts.check_unfold.
  destruct (decide (fetch_subscription fault db sid) n now)
    as [r | rid v r] eqn:Hd; [exact Hinv|].
  rewrite LedgerFacts.track_store.
  destruct (LedgerFacts.applies updating); [|exact Hinv].
  apply LedgerFacts.decide_grant in Hd.
  destruct Hd as (sub & Hf & Hent & -> & -> & _).
  apply LedgerFacts.fetch_some in Hf. destruct Hf as [_ Hrows].
  apply (limits_after_update db sid sub); auto.
  destruct Hent as (_ & _ & _ & Hfit). exact Hfit.
Qed.

(** X18.  The quota invariant.  In a store with unique row ids in which no
    usage counter is above its limit (and no limit is negative), that is
    again so after any operation: a request to the text-to-speech handler,
    whatever it asks and whatever the vendor and the store do, or any of
    the subscription actions. *)
Theorem usage_never_exceeds_limit :
  forall db,
    unique_ids db ->
    within_limits db ->
    let kept db' := unique_ids db' /\ within_limits db' in
    (forall toLowerCase env fault updating vendor clock cache req,
        kept (TtsFunction.db_after
                (TtsFunction.serve toLowerCase env fault updating vendor clock
                   db cache req)))
    /\ (forall existingError subError inserted body,
           kept (snd (request_upgrade existingError subError inserted db
                        body)))
    /\ (forall updating body now,
           kept (snd (increment_tts updating db body now)))
    /\ (forall clock updating body,
           kept (snd (reject_request clock updating db body)))
    /\ (forall clock onRequests onSubscription body,
           kept (snd (block_student clock onRequests onSubscription db body)))
    /\ (forall now updating body, kept (snd (cancel_pro now updating db body)))
    /\ (forall expiredError updateError now,
           kept (snd (check_expiry expiredError updateError now db)))
    /\ (forall clock onRequest onSubscription body,
           kept (snd (ManageSubscription.approve_request clock onRequest
                        onSubscription db body))).
Proof.
  intros db Hu Hw. cbv zeta.
  assert (Hinv : unique_ids db /\ within_limits db) by (split; assumption).
  assert (Hdown : forall (p : Subscription -> bool) db',
             subscriptions db'
             = map (fun s => if p s then downgrade s else s) (subscriptions db) ->
             unique_ids db' /\ within_limits db').
  { intros p db' Hrows.
    apply (limits_kept (fun s => if p s then downgrade s else s) db); auto.
    - intros s. destruct (p s); reflexivity.
    - intros s _ Hok. destruct (p s); exact Hok. }
  split; [|split; [|split; [|split; [|split; [|split; [|split]]]]]].
  - intros toLowerCase env fault updating vendor clock cache req.
    destruct (HandlerFacts.serve_served toLowerCase env fault updating vendor
                clock db cache req)
      as [req r _ | b raw sid Ht Hne Hs Hc | b raw sid Ht Hne Hs Hc
          | b raw Ht Hne Hc]; cbv zeta;
      rewrite ?TtsFacts.synthesize_db; cbn [TtsFunction.db_after];
      auto using limits_after_check.
  - intros existingError subError inserted body. unfold request_upgrade.
    destruct (present (studentId body)) as [sid|]; [|exact Hinv].
    destruct (looked_up existingError _); [exact Hinv|].
    destruct (match looked_up subError _ with
              | Some s => plan_eqb (plan s) pro
              | None => false
              end); [exact Hinv|].
    destruct inserted; [|exact Hinv].
    apply (limits_same db); auto.
  - intros updating body now. unfold increment_tts.
    destruct (present (studentId body)) as [sid|]; [|exact Hinv].
    destruct (ttsCharacters body) as [n|]; [|exact Hinv].
    destruct (n =? 0); [exact Hinv|].
    destruct (data_of (maybeSingle (subscriptions_of db sid))) as [sub|] eqn:Q;
      [|exact Hinv].
    apply single_row in Q.
    destruct (plan_eqb (plan sub) pro && is_active sub) ; [|exact Hinv].
    destruct (tts_used sub + n <=? tts_limit sub) eqn:Hfit; [|exact Hinv].
    destruct (negb (isExpired sub now)); [|exact Hinv].
    cbn [andb snd]. apply Z.leb_le in Hfit.
    destruct updating; [|exact Hinv].
    apply (limits_after_update db sid sub); auto.
  - intros clock updating body.
    destruct (reject_request_cases clock updating db body)
      as [[_ ->] | (tok & school & rid & request & _ & _ & _ & _ & _ & _ & _
                    & ->)]; [exact Hinv|].
    apply (limits_same db); auto. destruct updating; reflexivity.
  - intros clock onRequests onSubscription body.
    destruct (block_student_cases clock onRequests onSubscription db body)
      as [[_ ->] | (tok & school & sid & _ & _ & _ & _ & _ & ->)];
      [exact Hinv|].
    cbn [snd]. destruct onSubscription.
    + apply (Hdown (fun s => String.eqb (student_id s) sid)).
      destruct onRequests; reflexivity.
    + apply (limits_same db); auto. apply pending_blocked_subscriptions.
  - intros now updating body.
    destruct (cancel_pro_cases now updating db body)
      as [[_ ->] | (tok & school & sid & _ & _ & _ & _ & _ & ->)];
      [exact Hinv|].
    cbn [snd]. destruct updating; [|exact Hinv].
    apply (Hdown (fun s => String.eqb (student_id s) sid)). reflexivity.
  - intros expiredError updateError now. unfold check_expiry.
    destruct expiredError; [exact Hinv|]. cbn [snd].
    destruct ((0 <? Z.of_nat (List.length (filter (expired_pro now)
                                             (subscriptions db))))
              && negb updateError); [|exact Hinv].
    apply (Hdown (fun s => existsb (String.eqb (id s))
                             (map id (filter (expired_pro now)
                                        (subscriptions db))))).
    reflexivity.
  - intros clock onRequest onSubscription body.
    destruct (approve_request_cases clock onRequest onSubscription db body)
      as [[_ ->] | (tok & school & rid & request & _ & _ & _ & _ & _ & _ & _
                    & _ & _ & ->)]; [exact Hinv|].
    destruct onSubscription;
      [|apply (limits_same db); auto; apply request_approved_subscriptions].
    apply (limits_kept
             (fun s => if String.eqb (student_id s) (req_student_id request)
                       then ManageSubscription.activate_pro s
                              (ManageSubscription.at_start_date clock)
                              (ManageSubscription.at_end_date clock
                               + 30 * JsDate.msPerDay)
                       else s) db); auto.
    + intros s.
      destruct (String.eqb (student_id s) (req_student_id request));
        reflexivity.
    + intros s _ Hok.
      destruct (String.eqb (student_id s) (req_student_id request));
        [simpl; tauto | exact Hok].
Qed.

Lemma usage_never_exceeds_limit_witness :
  within_limits
    (TtsFunction.db_after
       (TtsFunction.serve TtsFacts.ascii_lower TtsFacts.configured Healthy
          Healthy (fun _ => TtsFunction.Rejected)
          {| TtsFunction.at_usage_check := 0; TtsFunction.at_sweep := 0;
             TtsFunction.at_store := 0 |}
          (LedgerFacts.one_row (LedgerFacts.pro_row 149995 150000)) []
          (TtsFunction.Post (Some TtsFacts.hello_from_student)))).
Proof.
  assert (Hu : unique_ids (LedgerFacts.one_row (LedgerFacts.pro_row 149995 150000))).
  { unfold unique_ids. simpl. repeat constructor. simpl. tauto. }
  assert (Hw : within_limits
                 (LedgerFacts.one_row (LedgerFacts.pro_row 149995 150000))).
  { unfold within_limits. simpl. repeat constructor; simpl; lia. }
  apply (proj1 (usage_never_exceeds_limit _ Hu Hw)).
Defined.

(** ** Calls in flight *)

(** A call that has read its row holds a new counter within the limit of
    every row that carries the id it will write to. *)
Definition call_fits (db : Db) (c : Call) : Prop :=
  match c with
  | Selected rowId newTtsUsed _ =>
      forall s, In s (subscriptions db) -> id s = rowId ->
                newTtsUsed <= tts_limit s
  | _ => True
  end.

Lemma call_fits_update db rid v c :
  call_fits db c -> call_fits (update_tts_used db rid v) c.
Proof.
  destruct c as [sid n | rid' v' r | r]; simpl; auto.
  intros Hfit s Hs Hid. apply in_map_iff in Hs.
  destruct Hs as (s0 & Heq & Hs0).
  destruct (String.eqb (id s0) rid); subst s; apply (Hfit s0); auto.
Qed.

Lemma step_keeps_limits now updating db c other :
  unique_ids db /\ within_limits db ->
  call_fits db c -> call_fits db other ->
  (unique_ids (snd (step_call now updating db c))
   /\ within_limits (snd (step_call now updating db c)))
  /\ call_fits (snd (step_call now updating db c))
       (fst (step_call now updating db c))
  /\ call_fits (snd (step_call now updating db c)) other.
Proof.
  intros Hinv Hc Ho. destruct c as [sid n | rid v r | r].
  - unfold step_call.
    destruct (decide (fetch_subscription Healthy db sid) n now)
      as [r | rid v r] eqn:Hd; cbn [fst snd]; [simpl; auto|].
    split; [exact Hinv|]. split; [|exact Ho].
    apply LedgerFacts.decide_grant in Hd.
    destruct Hd as (sub & Hf & Hent & -> & -> & _).
    apply LedgerFacts.fetch_some in Hf. destruct Hf as [_ Hrows].
    assert (Hin : In sub (subscriptions db)).
    { assert (H : In sub (subscriptions_of db sid)) by (rewrite Hrows; now left).
      apply filter_In in H. apply H. }
    intros s Hs Hid.
    assert (s = sub)
      by (apply (unique_by_id (subscriptions db)); destruct Hinv; auto).
    subst s. destruct Hent as (_ & _ & _ & Hfit). exact Hfit.
  - destruct updating; cbn [step_call track fst snd];
      [|simpl; auto|simpl; auto].
    split; [|split].
    + apply (limits_kept
               (fun s => if String.eqb (id s) rid then set_tts_used s v else s)
               db); auto.
      * intros s. destruct (String.eqb (id s) rid); reflexivity.
      * intros s Hs Hok. destruct (String.eqb (id s) rid) eqn:E; [|exact Hok].
        apply String.eqb_eq in E. simpl. split; [tauto|].
        apply (Hc s Hs E).
    + exact I.
    + apply call_fits_update, Ho.
  - cbn [step_call fst snd]. auto.
Qed.

Lemma schedule_keeps_limits now updating sched :
  forall db a b,
    unique_ids db /\ within_limits db ->
    call_fits db a -> call_fits db b ->
    unique_ids (snd (run_schedule now updating sched db a b))
    /\ within_limits (snd (run_schedule now updating sched db a b)).
Proof.
  induction sched as [|turn sched IH]; intros db a b Hinv Ha Hb;
    [exact Hinv|].
  destruct turn; cbn [run_schedule].
  - destruct (step_keeps_limits now (updating First) db a b Hinv Ha Hb)
      as (Hinv' & Ha' & Hb').
    destruct (step_call now (updating First) db a) as [a' db'].
    apply IH; assumption.
  - destruct (step_keeps_limits now (updating Second) db b a Hinv Hb Ha)
      as (Hinv' & Hb' & Ha').
    destruct (step_call now (updating Second) db b) as [b' db'].
    apply IH; assumption.
Qed.

(** X19.  What the race cannot do.  Two calls of [checkAndTrackUsage] in
    flight at once, their selects and updates interleaved in any order and
    stopped at any point, never leave a stored counter above its limit (in
    a store with unique row ids that was within its limits), whatever the
    store does with their updates: each call writes the value it checked.
    The race loses an update; it does not store an overrun. *)
Theorem interleaving_never_stores_an_overrun :
  forall now updating sched db sid1 n1 sid2 n2,
    unique_ids db ->
    within_limits db ->
    within_limits
      (snd (run_schedule now updating sched db (Waiting sid1 n1)
              (Waiting sid2 n2))).
Proof.
  intros now updating sched db sid1 n1 sid2 n2 Hu Hw.
  apply schedule_keeps_limits; simpl; auto.
Qed.

Lemma interleaving_never_stores_an_overrun_witness :
  within_limits
    (snd (run_schedule 0 (fun _ => Healthy) [First; Second; First; Second]
            (LedgerFacts.one_row (LedgerFacts.pro_row 149995 150000))
            (Waiting "student-1" 5) (Waiting "student-1" 5))).
Proof.
  apply interleaving_never_stores_an_overrun.
  - unfold unique_ids. simpl. repeat constructor. simpl. tauto.
  - unfold within_limits. simpl. repeat constructor; simpl; lia.
Defined.

End ActionFacts.
(* ===================================================================== *)
(** * Properties of the client hooks *)
(* ===================================================================== *)

Module ClientFacts.
Import Js Store SmartTTS.







(** X21.  Once the quota is seen to be exhausted, premium stays off.  When
    [speak] finds fewer characters left than the text needs, it speaks with
    the browser voice without calling the edge function and marks the plan
    status as unable to use premium; from the state it leaves, every later
    [speak], whatever the text, the cache and the outside world, uses the
    browser voice only and never calls the edge function. *)
Theorem exhausted_quota_turns_premium_off :
  forall sid st cache options w,
    SmartTTSFacts.speakable (text options) ->
    limitReached (route sid (usageInfo st) (Js.length (text options))) = true ->
    let out := speak sid st cache options w in
    invoked out = [Web]
    /\ edge_function_called out = false
    /\ (exists u, usageInfo (state_after out) = Some u
                  /\ canUsePremium u = false /\ usingPremium u = false)
    /\ forall cache' options' w',
         SmartTTSFacts.speakable (text options') ->
         invoked (speak sid (state_after out) cache' options' w') = [Web]
         /\ edge_function_called
              (speak sid (state_after out) cache' options' w') = false.
Proof.
  intros sid st cache options w Hsp Hlim. cbv zeta.
  assert (Hweb : usePremium (route sid (usageInfo st)
                               (Js.length (text options))) = false).
  { destruct (usePremium _) eqn:E; [|reflexivity].
    apply RouterFacts.route_premium in E. congruence. }
  destruct (SmartTTSFacts.speak_web_speakable sid st cache options w Hsp Hweb)
    as [Hinv Hcall].
  split; [exact Hinv|]. split; [exact Hcall|].
  assert (Hstate : exists u,
             usageInfo (state_after (speak sid st cache options w)) = Some u
             /\ plan u = pro /\ canUsePremium u = false
             /\ usingPremium u = false).
  { unfold speak.
    rewrite (SmartTTSFacts.speakable_guard _ Hsp), Hweb, Hlim.
    unfold route in Hlim.
    destruct (negb (truthy_opt sid)); [discriminate|].
    destruct (usageInfo st) as [u|] eqn:Hu; [|discriminate].
    destruct (plan u) eqn:Hplan; [discriminate|].
    cbn [usageInfo with_usageInfo]. unfold speakWeb.
    destruct (web_resolves w); cbn; rewrite Hplan; eauto 6. }
  destruct Hstate as (u & Hu & Hplan & Hcan & Husing).
  split; [exists u; auto|].
  intros cache' options' w' Hsp'.
  apply SmartTTSFacts.speak_web_speakable; [exact Hsp'|].
  rewrite Hu. unfold route.
  destruct (negb (truthy_opt sid)); [reflexivity|].
  rewrite Hplan, Hcan. reflexivity.
Qed.

Definition nearly_spent : TTSUsageInfo :=
  {| plan := pro; ttsUsed := 149997; ttsLimit := 150000; ttsRemaining := 3;
     canUsePremium := true; usingPremium := true |}.

Lemma exhausted_quota_turns_premium_off_witness :
  let first :=
    speak (Some "student-1"%string)
      (SmartTTSFacts.initial_state (Some nearly_spent)) []
      {| text := str "Hello"; voiceId := None |}
      {| reply := ReplyError "unused"; playback := Ended;
         web_resolves := true |} in
  invoked first = [Web]
  /\ invoked (speak (Some "student-1"%string) (state_after first) []
                {| text := str "Hi"; voiceId := None |}
                {| reply := ReplyError "unused"; playback := Ended;
                   web_resolves := true |})
     = [Web].
Proof.
  cbv zeta.
  assert (Hsp : forall t, t = str "Hello" \/ t = str "Hi" ->
                          SmartTTSFacts.speakable t).
  { intros t [-> | ->]; split; vm_compute; discriminate. }
  destruct (exhausted_quota_turns_premium_off (Some "student-1"%string)
              (SmartTTSFacts.initial_state (Some nearly_spent)) []
              {| text := str "Hello"; voiceId := None |}
              {| reply := ReplyError "unused"; playback := Ended;
                 web_resolves := true |}
              (Hsp _ (or_introl eq_refl)) eq_refl)
    as (H1 & _ & _ & Hlater).
  split; [exact H1|].
  apply Hlater. apply Hsp. right. reflexivity.
Defined.

(** ** The client cache *)

(** At most 51 entries, none under the empty key. *)
Definition client_bounded (cache : ClientCache) : Prop :=
  JsMap.size cache <= 51 /\ Forall (fun e => fst e <> []) cache.

Lemma client_key_truthy st options : client_key st options <> [].
Proof.
  unfold client_key. destruct (match voiceId options with
                               | Some v => v
                               | None => currentVoiceId st
                               end); discriminate.
Qed.

Lemma delete_bounded k (cache : ClientCache) :
  client_bounded cache -> client_bounded (JsMap.delete k cache).
Proof.
  intros [Hs Hk]. unfold client_bounded, JsMap.delete, JsMap.size in *. split.
  - pose proof (filter_length_le
                  (fun e : jsstring * string => negb (Js.eqb (fst e) k)) cache).
    lia.
  - rewrite Forall_forall in *. intros e He. apply filter_In in He.
    apply Hk, He.
Qed.

Lemma play_cache st cache hit called p :
  premium_cache (play st cache hit called p) = cache.
Proof. destruct p; reflexivity. Qed.

Lemma store_bounded k a (cache : ClientCache) :
  k <> [] -> client_bounded cache ->
  client_bounded
    (JsMap.set k a
       (if 50 <? JsMap.size cache then
          match JsMap.first_key cache with
          | Some firstKey =>
              if truthy firstKey then JsMap.delete firstKey cache else cache
          | None => cache
          end
        else cache)).
Proof.
  intros Hk [Hs Hkeys].
  assert (Hroom : exists room : ClientCache,
             (if 50 <? JsMap.size cache then
                match JsMap.first_key cache with
                | Some firstKey =>
                    if truthy firstKey then JsMap.delete firstKey cache
                    else cache
                | None => cache
                end
              else cache) = room
             /\ JsMap.size room <= 50
             /\ Forall (fun e => fst e <> []) room).
  { destruct (50 <? JsMap.size cache) eqn:Hbig.
    - destruct cache as [|[k0 v0] rest]; [vm_compute in Hbig; discriminate|].
      unfold JsMap.first_key.
      assert (Hk0 : truthy k0 = true).
      { inversion Hkeys as [|? ? Hhead _]; subst.
        destruct k0; [exfalso; apply Hhead; reflexivity | reflexivity]. }
      rewrite Hk0. eexists. split; [reflexivity|]. split.
      + pose proof (CacheFacts.delete_head_length k0 v0 rest).
        unfold JsMap.size in *. simpl List.length in Hs. lia.
      + apply (delete_bounded k0 ((k0, v0) :: rest)). split; assumption.
    - apply Z.ltb_ge in Hbig. eauto. }
  destruct Hroom as (room & -> & Hsize & Hall).
  split.
  - pose proof (CacheFacts.set_length k a room). unfold JsMap.size in *. lia.
  - apply (CacheFacts.set_keys (fun key => key <> [])); assumption.
Qed.

Lemma speakPremium_bounded st cache options reply playback :
  client_bounded cache ->
  client_bounded
    (premium_cache (speakPremium st cache options reply playback)).
Proof.
  intros Hb. unfold speakPremium.
  set (cache1 := match JsMap.get (client_key st options) cache with
                 | Some cachedAudio =>
                     if nonempty cachedAudio
                        && includes "audio_data" cachedAudio
                     then JsMap.delete (client_key st options) cache
                     else cache
                 | None => cache
                 end).
  assert (Hb1 : client_bounded cache1).
  { unfold cache1. destruct (JsMap.get _ cache) as [a|]; [|exact Hb].
    destruct (nonempty a && includes "audio_data" a);
      [apply delete_bounded, Hb | exact Hb]. }
  assert (Hcall : client_bounded
            (premium_cache
               match reply with
               | ReplyError _ =>
                   {| played := false; premium_state := st;
                      premium_cache := cache1; from_cache := false;
                      function_called := true |}
               | ReplyData None =>
                   {| played := false; premium_state := st;
                      premium_cache := cache1; from_cache := false;
                      function_called := true |}
               | ReplyData (Some data) =>
                   if match d_error data with
                      | Some e => nonempty e
                      | None => false
                      end
                   then {| played := false; premium_state := st;
                           premium_cache := cache1; from_cache := false;
                           function_called := true |}
                   else
                     match match d_audio data with
                           | Some a => if nonempty a then Some a else None
                           | None => None
                           end with
                     | None =>
                         {| played := false; premium_state := st;
                            premium_cache := cache1; from_cache := false;
                            function_called := true |}
                     | Some a =>
                         play
                           match d_usageInfo data, usageInfo st with
                           | Some u, Some prev =>
                               with_usageInfo st
                                 (Some {| plan := plan prev;
                                          ttsUsed := Ledger.ttsUsed u;
                                          ttsLimit := ttsLimit prev;
                                          ttsRemaining := Ledger.ttsRemaining u;
                                          canUsePremium := Ledger.canUsePremium u;
                                          usingPremium := usingPremium prev |})
                           | _, _ => st
                           end
                           (JsMap.set (client_key st options)
                              ("data:audio/mp3;base64," ++ a)%string
                              (if 50 <? JsMap.size cache1 then
                                 match JsMap.first_key cache1 with
                                 | Some firstKey =>
                                     if truthy firstKey
                                     then JsMap.delete firstKey cache1
                                     else cache1
                                 | None => cache1
                                 end
                               else cache1))
                           false true playback
                     end
               end)).
  { destruct reply as [m | [data|]]; try exact Hb1.
    destruct (match d_error data with
              | Some e => nonempty e
              | None => false
              end); [exact Hb1|].
    destruct (match d_audio data with
              | Some a => if nonempty a then Some a else None
              | None => None
              end) as [a|]; [|exact Hb1].
    rewrite play_cache.
    apply store_bounded; [apply client_key_truthy | exact Hb1]. }
  fold cache1.
  destruct (JsMap.get (client_key st options) cache1) as [valid|];
    [|exact Hcall].
  destruct (nonempty valid); [|exact Hcall].
  rewrite play_cache. exact Hb1.
Qed.

(** X22.  The client cache stays bounded, at 51 entries: the size is
    tested against 50 before the new entry goes in.  When the cache holds
    at most 51 entries, none under the empty key, it again does so after
    any [speak], whatever the edge function and the audio element do. *)
Theorem client_cache_stays_bounded :
  forall sid st cache options w,
    client_bounded cache ->
    client_bounded (cache_after (speak sid st cache options w)).
Proof.
  intros sid st cache options w Hb. unfold speak.
  destruct (negb (truthy (text options))
            || (Js.length (Sanitizer.trim (text options)) =? 0));
    [exact Hb|].
  destruct (usePremium _); [|unfold speakWeb;
                             destruct (web_resolves w); exact Hb].
  match goal with
  | |- context [speakPremium ?s cache options (reply w) (playback w)] =>
      pose proof (speakPremium_bounded s cache options (reply w) (playback w)
                    Hb) as Hp;
      destruct (speakPremium s cache options (reply w) (playback w)) as
        [pl ps pc fc fcall]
  end.
  cbn [played premium_state premium_cache function_called] in *.
  destruct pl; [exact Hp|].
  unfold speakWeb. destruct (web_resolves w); exact Hp.
Qed.

Lemma client_cache_stays_bounded_witness :
  client_bounded
    (cache_after
       (speak (Some "student-1"%string)
          (SmartTTSFacts.initial_state (Some (SmartTTSFacts.pro_info 0))) []
          RouterFacts.hello_options
          {| reply := RouterFacts.audio_reply "QUJD"; playback := Ended;
             web_resolves := true |})).
Proof.
  apply client_cache_stays_bounded.
  split; [vm_compute; discriminate | constructor].
Defined.

(** X23.  A denial by the server ends in the browser voice.  When the
    client routes a text to premium, its cache has nothing for it, and the
    edge function refuses the request (the ledger says no), then the store
    and the server cache are untouched and the vendor is not called, the
    client invokes premium and then the browser voice, and the plan status
    it holds is not updated from the denial: the next [speak] starts from
    the same usage figures. *)
Theorem denied_request_falls_back_to_web :
  forall toLowerCase env fault updating vendor clock db serverCache b raw
         student sid st cache options w,
    TtsFacts.tracked env b raw student ->
    Ledger.canUse
      (fst (Ledger.checkAndTrackUsage fault updating db student
              (Js.length (TtsFunction.truncate (Sanitizer.sanitizeText raw)))
              (TtsFunction.at_usage_check clock))) = false ->
    SmartTTSFacts.speakable (text options) ->
    usePremium (route sid (usageInfo st) (Js.length (text options))) = true ->
    JsMap.get (client_key st options) cache = None ->
    let served :=
      TtsFunction.serve toLowerCase env fault updating vendor clock db
        serverCache (TtsFunction.Post (Some b)) in
    reply w = reply_of_response (TtsFunction.response served) ->
    let out := speak sid st cache options w in
    TtsFunction.db_after served = db
    /\ TtsFunction.cache_after served = serverCache
    /\ TtsFunction.vendor_call served = None
    /\ invoked out = [Premium; Web]
    /\ edge_function_called out = true
    /\ cache_after out = cache
    /\ usageInfo (state_after out) = usageInfo st.
Proof.
  intros toLowerCase env fault updating vendor clock db serverCache b raw
         student sid st cache options w Htr Hdeny Hsp Hroute Hmiss.
  cbv zeta.
  rewrite (TtsFacts.serve_tracked toLowerCase env fault updating vendor clock
             db serverCache b raw student Htr).
  cbv zeta. unfold TtsFacts.spoken. rewrite Hdeny. simpl negb. cbv iota.
  cbn [TtsFunction.response TtsFunction.db_after TtsFunction.cache_after
       TtsFunction.vendor_call].
  intros Hreply.
  split; [apply (LedgerFacts.denied_store_unchanged _ _ _ _ _ _ Hdeny)|].
  split; [reflexivity|]. split; [reflexivity|].
  unfold speak.
  rewrite (SmartTTSFacts.speakable_guard _ Hsp), Hroute.
  rewrite (RouterFacts.route_premium _ _ _ Hroute).
  unfold speakPremium. cbn [client_key currentVoiceId].
  change (client_key
            {| isSpeaking := false; isLoading := true; error := None;
               currentVoiceId := currentVoiceId st;
               usageInfo := usageInfo st |} options)
    with (client_key st options).
  rewrite Hmiss, Hmiss, Hreply. cbn.
  unfold speakWeb. destruct (web_resolves w); cbn; auto.
Qed.

(** A student one character short of the limit asks for "Hello": what the
    edge function answers is what the client receives. *)
Definition denied_world : World :=
  {| reply :=
       reply_of_response
         (TtsFunction.response
            (TtsFunction.serve TtsFacts.ascii_lower TtsFacts.configured
               Healthy Healthy (fun _ => TtsFunction.Rejected)
               {| TtsFunction.at_usage_check := 0;
                  TtsFunction.at_sweep := 0;
                  TtsFunction.at_store := 0 |}
               (LedgerFacts.one_row (LedgerFacts.pro_row 149999 150000))
               [] (TtsFunction.Post (Some TtsFacts.hello_from_student))));
     playback := Ended; web_resolves := true |}.

Lemma denied_request_falls_back_to_web_witness :
  invoked
    (speak (Some "student-1"%string)
       (SmartTTSFacts.initial_state (Some (SmartTTSFacts.pro_info 0))) []
       RouterFacts.hello_options denied_world)
  = [Premium; Web].
Proof.
  refine (proj1 (proj2 (proj2 (proj2
    (denied_request_falls_back_to_web TtsFacts.ascii_lower TtsFacts.configured
       Healthy Healthy (fun _ => TtsFunction.Rejected)
       {| TtsFunction.at_usage_check := 0; TtsFunction.at_sweep := 0;
          TtsFunction.at_store := 0 |}
       (LedgerFacts.one_row (LedgerFacts.pro_row 149999 150000)) []
       TtsFacts.hello_from_student (str "Hello") "student-1"
       (Some "student-1"%string)
       (SmartTTSFacts.initial_state (Some (SmartTTSFacts.pro_info 0))) []
       RouterFacts.hello_options denied_world
       TtsFacts.hello_tracked _ _ _ _ eq_refl))))).
  - reflexivity.
  - split; vm_compute; discriminate.
  - reflexivity.
  - reflexivity.
Defined.

(** ** Replaying and keeping count *)

Lemma play_state_voice st cache hit called p :
  currentVoiceId (premium_state (play st cache hit called p))
  = currentVoiceId st
  /\ usageInfo (premium_state (play st cache hit called p)) = usageInfo st.
Proof. destruct p; split; reflexivity. Qed.

Lemma evicted_absent k (cache : ClientCache) :
  JsMap.get k cache = None ->
  JsMap.get k
    (if 50 <? JsMap.size cache then
       match JsMap.first_key cache with
       | Some firstKey =>
           if truthy firstKey then JsMap.delete firstKey cache else cache
       | None => cache
       end
     else cache) = None.
Proof.
  intros G. destruct (50 <? JsMap.size cache); [|exact G].
  destruct (JsMap.first_key cache) as [k0|]; [|exact G].
  destruct (truthy k0); [|exact G].
  unfold JsMap.delete. apply CacheFacts.get_filter_absent, G.
Qed.

Lemma get_set_new {V} k (v : V) (m : JsMap.t V) :
  JsMap.get k m = None -> JsMap.get k (JsMap.set k v m) = Some v.
Proof.
  intros G. rewrite (CacheFacts.set_absent k v m G).
  rewrite (CacheFacts.get_app_absent k m _ G). simpl.
  rewrite CacheFacts.eqb_refl. reflexivity.
Qed.

(** X24.  Repeated playback is served locally.  When [speakPremium] had
    nothing cached for a text and voice and the edge function gave audio
    (not empty, and whose data URL does not contain "audio_data"), the next
    [speakPremium] of the same text and voice takes the audio from the
    client cache: the edge function is not called, so nothing is billed,
    the cache and the plan status stay as they are, and the call succeeds
    as soon as the audio element plays to its end. *)
Theorem repeated_playback_is_served_locally :
  forall st cache options a usage playback,
    JsMap.get (client_key st options) cache = None ->
    a <> ""%string ->
    includes "audio_data" ("data:audio/mp3;base64," ++ a) = false ->
    let first :=
      speakPremium st cache options
        (ReplyData (Some {| d_error := None; d_audio := Some a;
                            d_usageInfo := usage |}))
        playback in
    function_called first = true
    /\ JsMap.get (client_key st options) (premium_cache first)
       = Some ("data:audio/mp3;base64," ++ a)%string
    /\ forall reply' playback',
         let second :=
           speakPremium (premium_state first) (premium_cache first) options
             reply' playback' in
         from_cache second = true
         /\ function_called second = false
         /\ premium_cache second = premium_cache first
         /\ usageInfo (premium_state second) = usageInfo (premium_state first)
         /\ (playback' = Ended -> played second = true).
Proof.
  intros st cache options a usage playback Hmiss Ha Hclean. cbv zeta.
  assert (Hne : nonempty a = true).
  { unfold nonempty. apply String.eqb_neq in Ha. rewrite Ha. reflexivity. }
  set (url := ("data:audio/mp3;base64," ++ a)%string) in *.
  set (st1 := match usage, usageInfo st with
              | Some u, Some prev =>
                  with_usageInfo st
                    (Some {| plan := plan prev;
                             ttsUsed := Ledger.ttsUsed u;
                             ttsLimit := ttsLimit prev;
                             ttsRemaining := Ledger.ttsRemaining u;
                             canUsePremium := Ledger.canUsePremium u;
                             usingPremium := usingPremium prev |})
              | _, _ => st
              end).
  set (cache2 := JsMap.set (client_key st options) url
                   (if 50 <? JsMap.size cache then
                      match JsMap.first_key cache with
                      | Some firstKey =>
                          if truthy firstKey
                          then JsMap.delete firstKey cache else cache
                      | None => cache
                      end
                    else cache)).
  assert (Hfirst :
    speakPremium st cache options
      (ReplyData (Some {| d_error := None; d_audio := Some a;
                          d_usageInfo := usage |})) playback
    = play st1 cache2 false true playback).
  { unfold speakPremium. rewrite Hmiss, Hmiss.
    cbn [d_error d_audio d_usageInfo]. rewrite Hne. reflexivity. }
  rewrite Hfirst.
  assert (Hvoice : currentVoiceId st1 = currentVoiceId st).
  { unfold st1. destruct usage, (usageInfo st); reflexivity. }
  assert (Hkey : forall p,
             client_key (premium_state (play st1 cache2 false true p)) options
             = client_key st options).
  { intros p. unfold client_key.
    rewrite (proj1 (play_state_voice st1 cache2 false true p)), Hvoice.
    reflexivity. }
  assert (Hget : JsMap.get (client_key st options) cache2 = Some url).
  { unfold cache2. apply get_set_new, evicted_absent, Hmiss. }
  rewrite !play_cache.
  split; [destruct playback; reflexivity|]. split; [exact Hget|].
  intros reply' playback'. cbv zeta.
  unfold speakPremium. rewrite Hkey, Hget.
  assert (Hurl : nonempty url = true) by reflexivity.
  rewrite Hurl, Hclean. cbn [andb]. rewrite Hget, Hurl.
  rewrite play_cache.
  rewrite (proj2 (play_state_voice _ cache2 true false playback')).
  repeat split; try (destruct playback'; reflexivity).
  intros ->. reflexivity.
Qed.

Lemma repeated_playback_is_served_locally_witness :
  let first :=
    speakPremium (SmartTTSFacts.initial_state (Some (SmartTTSFacts.pro_info 0)))
      [] RouterFacts.hello_options (RouterFacts.audio_reply "QUJD") Ended in
  let second :=
    speakPremium (premium_state first) (premium_cache first)
      RouterFacts.hello_options (ReplyError "not called") Ended in
  function_called first = true
  /\ from_cache second = true
  /\ function_called second = false.
Proof.
  cbv zeta.
  destruct (repeated_playback_is_served_locally
              (SmartTTSFacts.initial_state (Some (SmartTTSFacts.pro_info 0)))
              [] RouterFacts.hello_options "QUJD" None Ended eq_refl)
    as (H1 & _ & Hnext); [discriminate | reflexivity |].
  destruct (Hnext (ReplyError "not called") Ended) as (H2 & H3 & _).
  auto.
Defined.

(** An answer of [synthesize] that carries audio is a 200 and carries the
    usage figures it was given. *)
Lemma synthesize_audio toLowerCase vendor clock db cache t v l info
  a cached n sz u :
  TtsFunction.body
    (TtsFunction.response
       (TtsFunction.synthesize toLowerCase vendor clock db cache t v l info))
  = TtsFunction.AudioBody a cached n sz u ->
  TtsFunction.response
    (TtsFunction.synthesize toLowerCase vendor clock db cache t v l info)
  = {| TtsFunction.status := 200;
       TtsFunction.body := TtsFunction.AudioBody a cached n sz info |}.
Proof.
  unfold TtsFunction.synthesize.
  destruct (JsMap.get _ (TtsFunction.cleanCache _ _)).
  - cbn. intros H; injection H as <- <- <- <- <-. reflexivity.
  - match goal with
    | |- context [vendor ?q] => destruct (vendor q) as [r|]
    end; [|cbn; discriminate].
    destruct (negb (TtsFunction.vendor_ok r)).
    + destruct (TtsFunction.vstatus r =? 401); [cbn; discriminate|].
      destruct (TtsFunction.vstatus r =? 429); [cbn; discriminate|].
      destruct (TtsFunction.carries_body (TtsFunction.vstatus r));
        cbn; discriminate.
    + destruct (TtsFunction.audio_data r); [|cbn; discriminate].
      cbn. intros H; injection H as <- <- <- <- <-. reflexivity.
Qed.

(** X25.  The client keeps count with what the server reports.  When an
    entitled student's request is answered with audio (fresh or from the
    server cache) and the client, which held a plan status and had routed
    the text to premium with nothing in its own cache, receives that
    answer, the plan status it holds afterwards shows as used the old
    counter plus the length of the spoken text, and as remaining the limit
    less that, whatever the audio element then does.  That is the counter
    now stored for the student when the store applied the ledger's update;
    when the store answered the update with an error, which the ledger does
    not look at, the stored counter is still the old one and the client is
    ahead of it by that length. *)
Theorem client_usage_follows_the_server_answer :
  forall toLowerCase env updating vendor clock db serverCache b raw student
         sub sid st prev cache options w a cached n sz u,
    TtsFacts.tracked env b raw student ->
    Ledger.fetch_subscription Healthy db student
    = Ledger.Answered (QData (Some sub)) ->
    Ledger.entitled sub
      (Js.length (TtsFunction.truncate (Sanitizer.sanitizeText raw)))
      (TtsFunction.at_usage_check clock) ->
    let served :=
      TtsFunction.serve toLowerCase env Healthy updating vendor clock db
        serverCache (TtsFunction.Post (Some b)) in
    TtsFunction.body (TtsFunction.response served)
    = TtsFunction.AudioBody a cached n sz u ->
    a <> ""%string ->
    SmartTTSFacts.speakable (text options) ->
    usePremium (route sid (usageInfo st) (Js.length (text options))) = true ->
    usageInfo st = Some prev ->
    JsMap.get (client_key st options) cache = None ->
    reply w = reply_of_response (TtsFunction.response served) ->
    exists now_held,
      usageInfo (state_after (speak sid st cache options w)) = Some now_held
      /\ ttsUsed now_held
         = tts_used sub
           + Js.length (TtsFunction.truncate (Sanitizer.sanitizeText raw))
      /\ ttsRemaining now_held = tts_limit sub - ttsUsed now_held
      /\ canUsePremium now_held = (ttsUsed now_held <? tts_limit sub)
      /\ plan now_held = plan prev
      /\ (updating = Healthy ->
          Ledger.stored_usage (TtsFunction.db_after served) student
          = [ttsUsed now_held])
      /\ (updating = Failing ->
          Ledger.stored_usage (TtsFunction.db_after served) student
          = [tts_used sub])
      /\ updating <> Throwing.
Proof.
  intros toLowerCase env updating vendor clock db serverCache b raw student
         sub sid st prev cache options w a cached n sz u Htr Hfetch Hent.
  cbv zeta. fold (TtsFacts.spoken raw) in *.
  set (len := Js.length (TtsFacts.spoken raw)) in *.
  rewrite (TtsFacts.serve_tracked toLowerCase env Healthy updating vendor
             clock db serverCache b raw student Htr).
  cbv zeta. fold len.
  rewrite LedgerFacts.check_unfold, Hfetch,
    (LedgerFacts.decide_entitled sub len _ Hent).
  set (held := {| Ledger.ui_plan := pro;
                  Ledger.ttsUsed := tts_used sub + len;
                  Ledger.ttsLimit := tts_limit sub;
                  Ledger.ttsRemaining := tts_limit sub - (tts_used sub + len);
                  Ledger.canUsePremium := tts_used sub + len <? tts_limit sub |}).
  pose proof (TtsFacts.ledger_store_usage updating db student sub len Hfetch)
    as Hstored.
  unfold TtsFacts.ledger_store in Hstored.
  destruct updating;
    cbn [Ledger.track fst snd Ledger.canUse Ledger.usageInfo negb
         Ledger.usage_check_failed];
    cbn [LedgerFacts.applies] in Hstored;
    [| |cbn; discriminate].
  all: rewrite TtsFacts.synthesize_db;
    intros Hbody Ha Hsp Hroute Hprev Hmiss Hreply;
    rewrite (synthesize_audio _ _ _ _ _ _ _ _ _ _ _ _ _ _ Hbody) in Hreply;
    cbn in Hreply;
    assert (Hne : nonempty a = true)
      by (unfold nonempty; apply String.eqb_neq in Ha; rewrite Ha;
          reflexivity);
    (exists {| plan := plan prev;
               ttsUsed := tts_used sub + len;
               ttsLimit := ttsLimit prev;
               ttsRemaining := tts_limit sub - (tts_used sub + len);
               canUsePremium := tts_used sub + len <? tts_limit sub;
               usingPremium := usingPremium prev |});
    (split;
     [ unfold speak;
       rewrite (SmartTTSFacts.speakable_guard _ Hsp), Hroute;
       rewrite (RouterFacts.route_premium _ _ _ Hroute);
       unfold speakPremium;
       change (client_key
                 {| isSpeaking := false; isLoading := true; error := None;
                    currentVoiceId := currentVoiceId st;
                    usageInfo := usageInfo st |} options)
         with (client_key st options);
       rewrite Hmiss, Hmiss, Hreply;
       cbn [d_error d_audio d_usageInfo usageInfo]; rewrite Hne, Hprev;
       unfold speakWeb;
       destruct (playback w), (web_resolves w); reflexivity
     | cbn [ttsUsed ttsRemaining canUsePremium plan] ]).
  - rewrite Hstored. repeat split; discriminate.
  - rewrite Hstored, Z.add_0_r. repeat split; discriminate.
Qed.

(** A student at 0 of 150000 asks for "Hello" and the vendor gives audio,
    while the store answers the ledger's update with an error: what the
    edge function answers is what the client receives. *)
Definition granted_world : World :=
  {| reply :=
       reply_of_response
         (TtsFunction.response
            (TtsFunction.serve TtsFacts.ascii_lower TtsFacts.configured
               Healthy Failing (CacheFacts.speaking_vendor "QUJD")
               {| TtsFunction.at_usage_check := 0;
                  TtsFunction.at_sweep := 0;
                  TtsFunction.at_store := 0 |}
               (LedgerFacts.one_row (LedgerFacts.pro_row 0 150000))
               [] (TtsFunction.Post (Some TtsFacts.hello_from_student))));
     playback := Ended; web_resolves := true |}.

Lemma client_usage_follows_the_server_answer_witness :
  exists now_held,
    usageInfo
      (state_after
         (speak (Some "student-1"%string)
            (SmartTTSFacts.initial_state (Some (SmartTTSFacts.pro_info 0))) []
            RouterFacts.hello_options granted_world))
    = Some now_held
    /\ ttsUsed now_held = 0 + 5
    /\ Ledger.stored_usage
         (TtsFunction.db_after
            (TtsFunction.serve TtsFacts.ascii_lower TtsFacts.configured
               Healthy Failing (CacheFacts.speaking_vendor "QUJD")
               {| TtsFunction.at_usage_check := 0;
                  TtsFunction.at_sweep := 0;
                  TtsFunction.at_store := 0 |}
               (LedgerFacts.one_row (LedgerFacts.pro_row 0 150000))
               [] (TtsFunction.Post (Some TtsFacts.hello_from_student))))
         "student-1"
       = [0].
Proof.
  destruct (client_usage_follows_the_server_answer TtsFacts.ascii_lower
              TtsFacts.configured Failing (CacheFacts.speaking_vendor "QUJD")
              {| TtsFunction.at_usage_check := 0; TtsFunction.at_sweep := 0;
                 TtsFunction.at_store := 0 |}
              (LedgerFacts.one_row (LedgerFacts.pro_row 0 150000)) []
              TtsFacts.hello_from_student (str "Hello") "student-1"
              (LedgerFacts.pro_row 0 150000)
              (Some "student-1"%string)
              (SmartTTSFacts.initial_state (Some (SmartTTSFacts.pro_info 0)))
              (SmartTTSFacts.pro_info 0) [] RouterFacts.hello_options
              granted_world "QUJD" false 5 (Some 3)
              (Some {| Ledger.ui_plan := pro; Ledger.ttsUsed := 5;
                       Ledger.ttsLimit := 150000;
                       Ledger.ttsRemaining := 149995;
                       Ledger.canUsePremium := true |})
              TtsFacts.hello_tracked eq_refl)
    as (held & H1 & H2 & _ & _ & _ & _ & H7 & _).
  - unfold Ledger.entitled. simpl. repeat split; try lia.
    vm_compute. discriminate.
  - vm_compute. reflexivity.
  - discriminate.
  - split; vm_compute; discriminate.
  - reflexivity.
  - reflexivity.
  - reflexivity.
  - reflexivity.
  - exists held. split; [exact H1|]. split.
    + rewrite H2. vm_compute. reflexivity.
    + exact (H7 eq_refl).
Defined.

(** ** The [useSubscription] hook *)

(** X26.  The hook's [canUsePremiumTTS] is the server's entitlement for one
    more character: it answers true exactly for a subscription that is pro,
    active, not past its end date and below its limit.  The label "Active
    Pro" is shown for every such subscription that has no blocked or
    pending request, and a subscription labelled "Active Pro" can use
    premium as long as it is active (the label does not look at
    [is_active]). *)
Theorem canUsePremiumTTS_is_entitlement_for_one_character :
  (forall sub now,
      SubscriptionHook.canUsePremiumTTS (Some sub) now = true
      <-> Ledger.entitled sub 1 now)
  /\ (forall now, SubscriptionHook.canUsePremiumTTS None now = false)
  /\ (forall sub now,
         SubscriptionHook.canUsePremiumTTS (Some sub) now = true ->
         SubscriptionHook.getStatusLabel (Some sub) None now
         = "Active Pro"%string)
  /\ (forall sub request now,
         SubscriptionHook.getStatusLabel (Some sub) request now
         = "Active Pro"%string ->
         is_active sub = true ->
         SubscriptionHook.canUsePremiumTTS (Some sub) now = true).
Proof.
  split; [|split; [reflexivity | split]].
  - intros sub now. unfold SubscriptionHook.canUsePremiumTTS, Ledger.entitled.
    destruct (Store.plan sub); simpl.
    + split; [discriminate | intros [H _]; discriminate].
    + destruct (is_active sub); simpl.
      * destruct (end_date sub) as [e|].
        -- destruct (e <? now) eqn:He.
           ++ apply Z.ltb_lt in He.
              split; [discriminate | intros (_ & _ & H & _); lia].
           ++ apply Z.ltb_ge in He.
              destruct (tts_limit sub <=? tts_used sub) eqn:Hl.
              ** apply Z.leb_le in Hl.
                 split; [discriminate | intros (_ & _ & _ & H); lia].
              ** apply Z.leb_gt in Hl. split; [|reflexivity].
                 intros _. repeat split; auto; lia.
        -- destruct (tts_limit sub <=? tts_used sub) eqn:Hl.
           ++ apply Z.leb_le in Hl.
              split; [discriminate | intros (_ & _ & _ & H); lia].
           ++ apply Z.leb_gt in Hl. split; [|reflexivity].
              intros _. repeat split; auto; lia.
      * split; [discriminate | intros (_ & H & _); discriminate].
  - intros sub now.
    unfold SubscriptionHook.canUsePremiumTTS, SubscriptionHook.getStatusLabel.
    destruct (Store.plan sub); simpl; [discriminate|].
    destruct (is_active sub); simpl; [|discriminate].
    destruct (match end_date sub with
              | Some e => e <? now
              | None => false
              end); [discriminate|].
    destruct (tts_limit sub <=? tts_used sub); [discriminate | reflexivity].
  - intros sub request now.
    unfold SubscriptionHook.canUsePremiumTTS, SubscriptionHook.getStatusLabel.
    destruct (match request with
              | Some r => status_eqb (status r) blocked
              | None => false
              end); [discriminate|].
    destruct (match request with
              | Some r => status_eqb (status r) pending
              | None => false
              end); [discriminate|].
    destruct (Store.plan sub); simpl; [discriminate|].
    destruct (match end_date sub with
              | Some e => e <? now
              | None => false
              end); [discriminate|].
    destruct (tts_limit sub <=? tts_used sub); [discriminate|].
    intros _ ->. reflexivity.
Qed.

End ClientFacts.

(* ===================================================================== *)
(** * Properties of [getBestVoice] *)
(* ===================================================================== *)

Module VoiceFacts.
Import Js NativeTTS.

Lemma find_first {A} (p : A -> bool) (l : list A) (x : A) :
  find p l = Some x ->
  exists before after,
    l = before ++ x :: after /\ p x = true
    /\ Forall (fun y => p y = false) before.
Proof.
  induction l as [|a l IH]; simpl; [discriminate|].
  destruct (p a) eqn:E.
  - intros H; injection H as ->. exists [], l. auto.
  - intros H. destruct (IH H) as (before & after & -> & Hx & Hb).
    exists (a :: before), after. auto.
Qed.

Lemma find_absent {A} (p : A -> bool) (l : list A) :
  find p l = None -> Forall (fun y => p y = false) l.
Proof.
  induction l as [|a l IH]; simpl; [constructor|].
  destruct (p a) eqn:E; [discriminate|]. auto.
Qed.

Definition speaks (code : string) (v : Voice) : bool :=
  Js.eqb (lang v) (str code).

(** X27.  [getBestVoice] picks by language, then by position.  Among the
    voices it looks at (the hook's list, or the engine's when that is
    empty) it returns the first hi-IN voice if there is one, else the first
    en-IN voice, else the first voice whose language starts with "en", else
    the very first voice; it returns nothing only when there is no voice. *)
Theorem getBestVoice_picks_by_language :
  forall availableVoices engineVoices,
    let voices :=
      match availableVoices with
      | [] => engineVoices
      | _ :: _ => availableVoices
      end in
    let best := getBestVoice availableVoices engineVoices in
    (best = None <-> voices = [])
    /\ (forall v, best = Some v ->
          exists before after,
            voices = before ++ v :: after
            /\ ((speaks "hi-IN" v = true
                 /\ Forall (fun o => speaks "hi-IN" o = false) before)
                \/ (speaks "en-IN" v = true
                    /\ Forall (fun o => speaks "hi-IN" o = false) voices
                    /\ Forall (fun o => speaks "en-IN" o = false) before)
                \/ (startsWith (str "en") (lang v) = true
                    /\ Forall (fun o => speaks "hi-IN" o = false) voices
                    /\ Forall (fun o => speaks "en-IN" o = false) voices
                    /\ Forall (fun o => startsWith (str "en") (lang o) = false)
                         before)
                \/ (before = []
                    /\ Forall (fun o => startsWith (str "en") (lang o) = false)
                         voices)))
    /\ (forall v, In v voices -> speaks "hi-IN" v = true ->
          exists h, best = Some h /\ speaks "hi-IN" h = true).
Proof.
  intros availableVoices engineVoices. cbv zeta. unfold getBestVoice.
  set (voices := match availableVoices with
                 | [] => engineVoices
                 | _ :: _ => availableVoices
                 end).
  fold (speaks "hi-IN"). fold (speaks "en-IN").
  destruct (find (speaks "hi-IN") voices) as [h|] eqn:Hh.
  { destruct (find_first _ _ _ Hh) as (before & after & Hv & Hp & Hb).
    split; [|split].
    - split; [discriminate|]. intros E. rewrite E in Hv.
      destruct before; discriminate.
    - intros v H; injection H as <-. exists before, after. auto.
    - intros v _ _. exists h. auto. }
  apply find_absent in Hh.
  assert (Hno : forall v, In v voices -> speaks "hi-IN" v = true ->
                  exists h, @None Voice = Some h /\ speaks "hi-IN" h = true).
  { intros v Hin Hv. rewrite Forall_forall in Hh.
    rewrite (Hh v Hin) in Hv. discriminate. }
  destruct (find (speaks "en-IN") voices) as [e|] eqn:He.
  { destruct (find_first _ _ _ He) as (before & after & Hv & Hp & Hb).
    split; [|split].
    - split; [discriminate|]. intros E. rewrite E in Hv.
      destruct before; discriminate.
    - intros v H; injection H as <-. exists before, after. auto 6.
    - intros v Hin Hv'. destruct (Hno v Hin Hv') as (? & ? & _).
      discriminate. }
  apply find_absent in He.
  destruct (find (fun v => startsWith (str "en") (lang v)) voices) as [g|]
    eqn:Hg.
  { destruct (find_first _ _ _ Hg) as (before & after & Hv & Hp & Hb).
    split; [|split].
    - split; [discriminate|]. intros E. rewrite E in Hv.
      destruct before; discriminate.
    - intros v H; injection H as <-. exists before, after. auto 8.
    - intros v Hin Hv'. destruct (Hno v Hin Hv') as (? & ? & _).
      discriminate. }
  apply find_absent in Hg.
  split; [|split].
  - destruct voices; simpl; split; congruence.
  - intros v Hv. destruct voices as [|v0 rest]; [discriminate|].
    injection Hv as <-. exists [], rest. auto 8.
  - intros v Hin Hv'. destruct (Hno v Hin Hv') as (? & ? & _). discriminate.
Qed.

End VoiceFacts.
(* ===================================================================== *)
(** * What the sanitiser guarantees *)
(* ===================================================================== *)

Module SanitizerContract.
Import Js Sanitizer SanitizerFacts.

Lemma strip_markup_edits e : well_formed e -> edits e (strip_markup e).
Proof.
  intros He. unfold strip_markup.
  pose proof (proj1 (strip_bold_edit e He)) as E1.
  pose proof (proj1 (strip_pair_edit star ltac:(reflexivity) star_unit _
                      (edit_wf_r _ _ E1))) as E2.
  pose proof (proj1 (strip_pair_edit backtick ltac:(reflexivity)
                      ltac:(reflexivity) _ (edit_wf_r _ _ E2))) as E3.
  pose proof (strip_heading_edit _ (edit_wf_r _ _ E3) O) as E4.
  pose proof (newlines_to_stop_edit _ (edit_wf_r _ _ E4)) as E5.
  pose proof (collapse_whitespace_edit _ (edit_wf_r _ _ E5)) as E6.
  pose proof (trim_edits _ (edit_wf_r _ _ E6)) as E7.
  simpl repeat in E4. simpl app in E4.
  repeat (econstructor; [eassumption|]). exact E7.
Qed.

Lemma sanitize_with_edits ranges t :
  well_formed t -> edits t (sanitize_with ranges t).
Proof.
  intros Ht. unfold sanitize_with.
  pose proof (remove_ranges_edits ranges t Ht) as E.
  eapply edits_trans; [exact E|].
  apply strip_markup_edits, (edits_wf_r _ _ E).
Qed.

(** The last unit of the text is white space. *)
Definition ends_ws (s : jsstring) : bool := head_ws (rev s).

Lemma trim_end_last s : ends_ws (trim_end s) = false.
Proof.
  unfold ends_ws. induction s as [|c s IH]; [reflexivity|].
  simpl. destruct (trim_end s) as [|k kept] eqn:E.
  - destruct (is_whitespace c) eqn:W; simpl; [reflexivity | exact W].
  - simpl in *. destruct (rev kept ++ [k]) as [|x xs] eqn:R.
    + destruct (rev kept); discriminate.
    + simpl. exact IH.
Qed.

(** The sanitised text of [text] under the emoji blocks [ranges]:
    well-formed, free of those blocks, with single spaces as its only
    white space and none at either end, and with no unit that [text] did
    not have, full stops and spaces apart. *)
Record clean (ranges : list (Z * Z)) (text s : jsstring) : Prop := {
  clean_well_formed : well_formed s;
  clean_no_emoji : Forall (fun r => emoji_free (fst r) (snd r) s) ranges;
  clean_spaces : ws_single s = true;
  clean_start : head_ws s = false;
  clean_end : ends_ws s = false;
  clean_no_new_units :
    forall d, d <> dot -> d <> space -> (count d s <= count d text)%nat
}.

Lemma sanitize_with_clean ranges t :
  Forall block ranges -> well_formed t ->
  clean ranges t (sanitize_with ranges t).
Proof.
  intros Hblocks Ht.
  pose proof (sanitize_with_edits ranges t Ht) as Eall.
  pose proof (remove_ranges_edits ranges t Ht) as Er.
  pose proof (strip_markup_edits _ (edits_wf_r _ _ Er)) as Em.
  constructor.
  - exact (edits_wf_r _ _ Eall).
  - pose proof (remove_ranges_emoji_free ranges t Hblocks Ht) as Hfree.
    rewrite Forall_forall in *. intros r Hr.
    apply (edits_emoji_free r _ _ (Hblocks r Hr) Em), Hfree, Hr.
  - unfold sanitize_with, strip_markup, trim.
    apply trim_end_ws_single, trim_start_ws_single, collapse_ws_single.
  - unfold sanitize_with, strip_markup, trim.
    apply trim_end_head, trim_start_head.
  - unfold sanitize_with, strip_markup, trim. apply trim_end_last.
  - intros d Hdot Hspace. exact (edits_count d _ _ Hdot Hspace Eall).
Qed.

(** X28.  The contract of the sanitiser, on the server and in the browser
    hook.  For every well-formed text the result is well-formed, has no
    character of the emoji blocks that variant removes, has no white space
    but single spaces between other units (so no line feed, no tab, no run
    of spaces, nothing at either end), and contains no unit more often than
    the text did, except the full stops and spaces that stand for line
    feeds. *)
Theorem sanitizeText_output_is_clean :
  forall text,
    well_formed text ->
    clean server_ranges text (sanitizeText text)
    /\ clean client_ranges text (sanitizeText_client text).
Proof.
  intros text Ht. split.
  - apply sanitize_with_clean; [exact server_blocks | exact Ht].
  - apply sanitize_with_clean; [exact client_blocks | exact Ht].
Qed.

Lemma sanitizeText_output_is_clean_witness :
  well_formed sample_line
  /\ clean server_ranges sample_line (sanitizeText sample_line).
Proof.
  assert (Hwf : well_formed sample_line).
  { unfold sample_line.
    repeat (first [ apply wf_nil
                  | apply wf_pair; [reflexivity | reflexivity |]
                  | apply wf_unit; [reflexivity |] ]). }
  split; [exact Hwf|].
  exact (proj1 (sanitizeText_output_is_clean sample_line Hwf)).
Defined.

End SanitizerContract.
